(** * Omni-Python Playground: the LSP bridging layer

    A shallow embedding of the TypeScript sources of the playground's
    transport and adapter layer:

    - [Position], [Uri], [Severity]: the pure conversions of the ty worker
      (workers/tyWorker.ts) and of the application (App.tsx, tyService.ts);
    - [TyWorker]: the request dispatcher [handleRequest] of the ty worker,
      over an abstract native engine (the ty_wasm call surface);
    - [Checkers]: the non-LSP checking path (typecheckerService.ts and the
      per-checker services);
    - [Transport], [WebWorkerTransport], [BasedPyrightTransport],
      [Teardown]: the two transports (services/lsp).

    JavaScript numbers that hold line, column and severity values are
    integers and are modelled by [Z]; where the code computes with them,
    the rounding of its binary64 arithmetic is written out ([Number]).
    Strings are [string], one character per code unit. Workers, ports and callbacks are objects of the
    platform; they appear by number, and what the code does to them is
    recorded as a trace of effects. *)

From Stdlib Require Import ZArith Ascii String List Lia Bool.
From stdpp Require Import base strings list gmap.

Import ListNotations.
Open Scope Z_scope.
Open Scope string_scope.
Open Scope list_scope.

Set Warnings "-clear-no-such-hyp".

(* ===================================================================== *)
(** * JavaScript numbers that hold integers *)
(* ===================================================================== *)

Module Number.
Local Open Scope Z_scope.

(** A number is a binary64 value. The integers among the numbers are
    those of magnitude below [2^53] and, from there on, the multiples of
    [2^(e-52)] in each interval from [2^e] to [2^(e+1)]. The sum and the
    difference of two numbers are the exact result rounded to the nearest
    number, and to the one with the even significand when two are
    equally near. [round z] is that number for an integer [z]; the code
    adds and subtracts 1 only, which keeps a number far from the end of
    the range of binary64. *)
Definition round (z : Z) : Z :=
  let a := Z.abs z in
  if a <? 2 ^ 53 then z
  else
    let u := 2 ^ (Z.log2 a - 52) in
    let q := a / u in
    let r := a mod u in
    let q' :=
      if 2 * r <? u then q
      else if u <? 2 * r then q + 1
      else if Z.even q then q else q + 1 in
    Z.sgn z * (q' * u).

(** [a + b] and [a - b] *)
Definition add (a b : Z) : Z := round (a + b).
Definition sub (a b : Z) : Z := round (a - b).






End Number.

(* ===================================================================== *)
(** * Positions and ranges (tyWorker.ts, lines 26-102) *)
(* ===================================================================== *)

Module Position.
Import Number.

(** [interface LSPPosition { line: number; character: number }] *)
Record LSPPosition := mkLSPPosition { line : Z; character : Z }.

(** [interface LSPRange { start: LSPPosition; end: LSPPosition }] *)
Record LSPRange := mkLSPRange { range_start : LSPPosition; range_end : LSPPosition }.

(** ty_wasm's [Position]: constructed as [new TyPosition(line, column)]
    and read through its [line] and [column] fields. *)
Record TyPosition := mkTyPosition { ty_line : Z; ty_column : Z }.

(** ty_wasm's [Range], with public [start] and [end] fields. *)
Record TyRange := mkTyRange { ty_start : TyPosition; ty_end : TyPosition }.

(** [function lspToTyPosition(pos)]:
    [return new TyPosition(pos.line + 1, pos.character + 1)] *)
Definition lspToTyPosition (pos : LSPPosition) : TyPosition :=
  mkTyPosition (add (line pos) 1) (add (character pos) 1).

(** [function tyToLSPPosition(pos)]:
    [return { line: pos.line - 1, character: pos.column - 1 }] *)
Definition tyToLSPPosition (pos : TyPosition) : LSPPosition :=
  mkLSPPosition (sub (ty_line pos) 1) (sub (ty_column pos) 1).

(** [function tyToLSPRange(range)]: both ends are rebuilt field by field
    and converted. *)
Definition tyToLSPRange (range : TyRange) : LSPRange :=
  let start := ty_start range in
  let end_ := ty_end range in
  mkLSPRange
    (tyToLSPPosition (mkTyPosition (ty_line start) (ty_column start)))
    (tyToLSPPosition (mkTyPosition (ty_line end_) (ty_column end_))).

(** The literal [{ start: { line: 0, character: 0 }, end: { line: 0, character: 0 } }]. *)
Definition zeroRange : LSPRange :=
  mkLSPRange (mkLSPPosition 0 0) (mkLSPPosition 0 0).










End Position.

(* ===================================================================== *)
(** * Engine path to document URI (tyWorker.ts, lines 104-131) *)
(* ===================================================================== *)

Module Uri.
Import Position.

(** [String.prototype.startsWith]: [searchString] is a prefix of [s]. *)
Fixpoint startsWith (s searchString : string) {struct searchString} : bool :=
  match searchString, s with
  | EmptyString, _ => true
  | String c p, String d t => if Ascii.eqb c d then startsWith t p else false
  | String _ _, EmptyString => false
  end.

(** [String.prototype.substring(start)]: the characters from index
    [start] to the end, the empty string when [start] is past the end. *)
Fixpoint substring (start : nat) (s : string) : string :=
  match start, s with
  | O, _ => s
  | S n, String _ t => substring n t
  | S _, EmptyString => EmptyString
  end.

(** ty_wasm's [LocationLink], as far as the worker reads it. *)
Record TyLocationLink := mkTyLocationLink { path : string; full_range : TyRange }.

(** The plain object [{ uri, range }] sent back. *)
Record LSPLocation := mkLSPLocation { uri : string; range : LSPRange }.

(** [function tyLocationLinkToLSPLocation(loc)] *)
Definition tyLocationLinkToLSPLocation (loc : TyLocationLink) : LSPLocation :=
  let fullRange := full_range loc in
  let uri0 := path loc in
  let uri1 :=
    if startsWith uri0 "/file:/" then
      let actualPath := substring 6 uri0 in
      "file://" +:+ actualPath
    else if negb (startsWith uri0 "file://") then
      "file://" +:+ uri0
    else uri0 in
  mkLSPLocation uri1 (tyToLSPRange fullRange).

(** A range to try the conversions on. *)
Definition sampleRange : TyRange := mkTyRange (mkTyPosition 5 1) (mkTyPosition 5 7).

(** [s] begins with [p], stated without the executable test. *)
Definition beginsWith (s p : string) : Prop := exists rest, s = p +:+ rest.

Lemma startsWith_spec s p : startsWith s p = true <-> beginsWith s p.
Proof.
  unfold beginsWith; revert s; induction p as [|c p IH]; intros s; simpl.
  - split; [exists s; reflexivity | reflexivity].
  - destruct s as [|d t].
    + split; [discriminate | intros [rest H]; discriminate].
    + destruct (Ascii.eqb_spec c d) as [->|Hne].
      * rewrite IH; split; intros [rest H]; exists rest.
        -- rewrite H; reflexivity.
        -- injection H as H; exact H.
      * split; [discriminate | intros [rest H]; injection H as Hc _; congruence].
Qed.

Lemma startsWith_false s p : startsWith s p = false <-> ~ beginsWith s p.
Proof.
  rewrite <- startsWith_spec; destruct (startsWith s p); split; intros H;
    try congruence; try reflexivity; exfalso; apply H; reflexivity.
Qed.

Lemma startsWith_app p rest : startsWith (p +:+ rest) p = true.
Proof. apply startsWith_spec; exists rest; reflexivity. Qed.

Lemma substring_app p rest : substring (String.length p) (p +:+ rest) = rest.
Proof. induction p as [|c p IH]; simpl; [destruct rest; reflexivity | exact IH]. Qed.

(** Every path is in exactly one of the three cases of the rewrite. *)
Lemma path_cases p :
  (beginsWith p "/file:/" /\ ~ beginsWith p "file://")
  \/ (~ beginsWith p "/file:/" /\ ~ beginsWith p "file://")
  \/ (~ beginsWith p "/file:/" /\ beginsWith p "file://").
Proof.
  destruct (startsWith p "/file:/") eqn:Hm, (startsWith p "file://") eqn:Hs.
  - exfalso; apply startsWith_spec in Hm, Hs.
    destruct Hm as [r1 ->]; destruct Hs as [r2 H]; discriminate H.
  - left; split; [apply startsWith_spec|apply startsWith_false]; assumption.
  - right; right; split; [apply startsWith_false|apply startsWith_spec]; assumption.
  - right; left; split; apply startsWith_false; assumption.
Qed.

(** C2. The three cases of the path rewrite in
    [tyLocationLinkToLSPLocation], read in the order the code tests them:
    a path that begins with the marker [/file:/] loses [/file:] and gets
    the scheme in front (the slash of the marker stays as the root of the
    path); a path that begins with neither the marker nor [file://] gets
    [file://] in front; a path that begins with [file://] comes back as
    it is. The three paths of the specification are instances. *)
Theorem uri_rewrite :
  (forall rest rng,
      uri (tyLocationLinkToLSPLocation (mkTyLocationLink ("/file:/" +:+ rest) rng))
      = "file://" +:+ ("/" +:+ rest))
  /\ (forall p rng,
      ~ beginsWith p "/file:/" -> ~ beginsWith p "file://" ->
      uri (tyLocationLinkToLSPLocation (mkTyLocationLink p rng)) = "file://" +:+ p)
  /\ (forall p rng,
      beginsWith p "file://" ->
      uri (tyLocationLinkToLSPLocation (mkTyLocationLink p rng)) = p)
  /\ (forall rng,
      uri (tyLocationLinkToLSPLocation (mkTyLocationLink "/file:/workspace/main.py" rng))
      = "file:///workspace/main.py"
      /\ uri (tyLocationLinkToLSPLocation (mkTyLocationLink "/workspace/main.py" rng))
         = "file:///workspace/main.py"
      /\ uri (tyLocationLinkToLSPLocation (mkTyLocationLink "file:///x" rng))
         = "file:///x").
Proof.
  split; [|split; [|split]].
  - intros rest rng; reflexivity.
  - intros p rng Hm Hs; unfold tyLocationLinkToLSPLocation; cbn [path uri].
    apply startsWith_false in Hm, Hs; rewrite Hm, Hs; reflexivity.
  - intros p rng [rest ->]; reflexivity.
  - intros rng; repeat split.
Qed.

Lemma uri_rewrite_witness :
  uri (tyLocationLinkToLSPLocation (mkTyLocationLink "/tmp/a.py" sampleRange))
  = "file:///tmp/a.py"
  /\ uri (tyLocationLinkToLSPLocation (mkTyLocationLink "file:///x" sampleRange))
     = "file:///x".
Proof.
  split.
  - apply (proj1 (proj2 uri_rewrite) "/tmp/a.py" sampleRange);
      apply startsWith_false; reflexivity.
  - apply (proj1 (proj2 (proj2 uri_rewrite)) "file:///x" sampleRange);
      apply startsWith_spec; reflexivity.
Defined.

End Uri.

(* ===================================================================== *)
(** * Severity levels (tyWorker.ts line 278, App.tsx line 167,
      tyService.ts lines 44-45) *)
(* ===================================================================== *)

Module Severity.

(** ty_wasm's [Severity] enumeration, with the numbering the worker
    documents at its use: "ty: Error=2, Warning=1, Info=0". *)
Inductive TySeverity := Info | Warning | Error.

Definition tyCode (s : TySeverity) : Z :=
  match s with Info => 0 | Warning => 1 | Error => 2 end.

(** The application's [severity: 'error' | 'warning' | 'info']. *)
Inductive AppSeverity := error | warning | info.

(** Pulled diagnostics, in the worker:
    [severity === 2 ? 1 : severity === 1 ? 2 : 3]. *)
Definition lspSeverity (severity : Z) : Z :=
  if (severity =? 2)%Z then 1 else if (severity =? 1)%Z then 2 else 3.

(** Pushed diagnostics, in [onDiagnostics]:
    [diag.severity === 1 ? 'error' : diag.severity === 2 ? 'warning' : 'info']. *)
Definition appSeverity (severity : Z) : AppSeverity :=
  if (severity =? 1)%Z then error else if (severity =? 2)%Z then warning else info.

(** The direct path of [checkWithTy]:
    [severity === Severity.Error ? 'error' :
     severity === Severity.Warning ? 'warning' : 'info']. *)
Definition tyAppSeverity (severity : Z) : AppSeverity :=
  if (severity =? tyCode Error)%Z then error
  else if (severity =? tyCode Warning)%Z then warning else info.

(** The level an application severity names. *)
Definition levelNamed (a : AppSeverity) : TySeverity :=
  match a with error => Error | warning => Warning | info => Info end.

Lemma levelNamed_tyAppSeverity s : levelNamed (tyAppSeverity (tyCode s)) = s.
Proof. destruct s; reflexivity. Qed.

Lemma tyCode_inj s t : tyCode s = tyCode t -> s = t.
Proof. destruct s, t; simpl; intros H; try reflexivity; discriminate H. Qed.

(** C3. On the three levels Error, Warning, Info the worker's mapping to
    protocol severities and the application's mapping back from them are
    inverse to each other: Error, Warning, Info go to 1, 2, 3; every
    level comes back from its protocol severity under its own name;
    every protocol severity 1, 2, 3 is the image of the level it is
    mapped back to; and the worker's mapping is one-to-one on the levels.
    The composite agrees with the direct path of [checkWithTy]. *)
Theorem severity_bijection :
  (lspSeverity (tyCode Error) = 1 /\ lspSeverity (tyCode Warning) = 2
   /\ lspSeverity (tyCode Info) = 3)
  /\ (appSeverity 1 = error /\ appSeverity 2 = warning /\ appSeverity 3 = info)
  /\ (forall s, levelNamed (appSeverity (lspSeverity (tyCode s))) = s)
  /\ (forall p, 1 <= p <= 3 -> lspSeverity (tyCode (levelNamed (appSeverity p))) = p)
  /\ (forall s t, lspSeverity (tyCode s) = lspSeverity (tyCode t) -> s = t)
  /\ (forall s, appSeverity (lspSeverity (tyCode s)) = tyAppSeverity (tyCode s)).
Proof.
  repeat split.
  - intros s; destruct s; reflexivity.
  - intros p Hp.
    assert (p = 1 \/ p = 2 \/ p = 3) as [->|[->| ->]] by lia; reflexivity.
  - intros s t; destruct s, t; simpl; intros H; try reflexivity; discriminate H.
  - intros s; destruct s; reflexivity.
Qed.

Lemma severity_bijection_witness :
  lspSeverity (tyCode (levelNamed (appSeverity 2))) = 2
  /\ Warning = Warning.
Proof.
  split.
  - apply (proj1 (proj2 (proj2 (proj2 severity_bijection))) 2); lia.
  - apply (proj1 (proj2 (proj2 (proj2 (proj2 severity_bijection)))) Warning Warning);
      reflexivity.
Defined.

End Severity.

(* ===================================================================== *)
(** * Values thrown by JavaScript code *)
(* ===================================================================== *)

Module Js.

(** What a [catch] clause can receive here: a [TypeError] raised by a
    property read on [undefined], an [Error] built by the code itself,
    or whatever the native engine threw, known by its string form. *)
Inductive Thrown :=
| TypeError (message : string)
| JsError (message : string)
| EngineFailure (stringified : string).

(** The string a template literal [`${error}`] puts in place of the
    thrown value. *)
Definition toString (e : Thrown) : string :=
  match e with
  | TypeError m => "TypeError: " +:+ m
  | JsError m => "Error: " +:+ m
  | EngineFailure s => s
  end.

(** A call either returns or throws. *)
Inductive Outcome (A : Type) :=
| Ok (a : A)
| Raise (e : Thrown).
Arguments Ok {A} a.
Arguments Raise {A} e.

(** [needle] occurs in [s]. *)
Definition contains (s needle : string) : Prop :=
  exists before after, s = before +:+ (needle +:+ after).

Lemma append_nil_r (s : string) : s +:+ "" = s.
Proof. induction s as [|c s IH]; [reflexivity|]. change (String c (s +:+ "") = String c s). now rewrite IH. Qed.

Lemma contains_suffix (p s : string) : contains (p +:+ s) s.
Proof. exists p, ""; now rewrite append_nil_r. Qed.

End Js.

(* ===================================================================== *)
(** * The non-LSP checking path (services/*.ts) *)
(* ===================================================================== *)

Module Checkers.
Import Severity Js.

(** [type TypeChecker = 'pyright' | 'basedpyright' | 'ty' | 'pyrefly'] *)
Inductive TypeChecker := pyright | basedpyright | ty | pyrefly.

Definition checkerName (c : TypeChecker) : string :=
  match c with
  | pyright => "pyright" | basedpyright => "basedpyright"
  | ty => "ty" | pyrefly => "pyrefly"
  end.

(** [type PythonVersion = '3.9' | ... | '3.14'] *)
Inductive PythonVersion := py3_9 | py3_10 | py3_11 | py3_12 | py3_13 | py3_14.

(** [interface DiagnosticRange { line: number; column: number }] *)
Record DiagnosticRange := mkDiagnosticRange { dr_line : Z; dr_column : Z }.

(** [interface Diagnostic] of App.tsx; [start] and [end] are optional. *)
Record Diagnostic := mkDiagnostic {
  diag_start : option DiagnosticRange;
  diag_end : option DiagnosticRange;
  diag_message : string;
  diag_severity : AppSeverity;
  diag_source : string
}.

(** pyrightService.ts, [checkWithPyright]: logs its arguments and
    returns one fixed diagnostic. *)
Definition checkWithPyright (code : string) (pythonVersion : PythonVersion) : list Diagnostic :=
  [ mkDiagnostic (Some (mkDiagnosticRange 1 1)) (Some (mkDiagnosticRange 1 1))
      "Pyright integration not yet implemented (will use server-side approach)"
      info "Pyright" ].

(** pyreflyService.ts, [checkWithPyrefly]: logs its arguments;
    [// Placeholder], [return []]. *)
Definition checkWithPyrefly (code : string) (pythonVersion : PythonVersion) : list Diagnostic :=
  [].

(** basedpyrightService.ts, [checkWithBasedPyright]: logs its arguments;
    [// Placeholder], [return []]. *)
Definition checkWithBasedPyright (code : string) (pythonVersion : PythonVersion) : list Diagnostic :=
  [].

(** A diagnostic that only informs. *)
Definition informational (d : Diagnostic) : Prop := diag_severity d = info.

Section RunTypeChecker.

(** tyService.ts, [checkWithTy], runs the native engine; it is a
    promise of diagnostics that the caller awaits inside a [try]. *)
Variable checkWithTy : string -> PythonVersion -> Thrown + list Diagnostic.

(** typecheckerService.ts, [runTypeChecker]. The [default] branch of
    the [switch] is outside the [TypeChecker] type. *)
Definition runTypeChecker (typeChecker : TypeChecker) (code : string)
    (pythonVersion : PythonVersion) : list Diagnostic :=
  let attempt : Thrown + list Diagnostic :=
    match typeChecker with
    | pyright => inr (checkWithPyright code pythonVersion)
    | basedpyright => inr (checkWithBasedPyright code pythonVersion)
    | ty => checkWithTy code pythonVersion
    | pyrefly => inr (checkWithPyrefly code pythonVersion)
    end in
  match attempt with
  | inr diagnostics => diagnostics
  | inl err =>
      [ mkDiagnostic (Some (mkDiagnosticRange 1 1)) (Some (mkDiagnosticRange 1 1))
          ("Error running " +:+ checkerName typeChecker +:+ ": " +:+ toString err)
          error (checkerName typeChecker) ]
  end.

(** C8 (behaviour of the code). Of the three checkers without a
    working integration only Pyright answers with a synthetic
    informational diagnostic; for Pyrefly and BasedPyright
    [runTypeChecker] returns the empty list, whatever the code and the
    Python version. *)
Theorem placeholder_checkers code pythonVersion :
  (exists d, runTypeChecker pyright code pythonVersion = [d] /\ informational d)
  /\ runTypeChecker pyrefly code pythonVersion = []
  /\ runTypeChecker basedpyright code pythonVersion = [].
Proof.
  split; [|split]; try reflexivity.
  eexists; split; reflexivity.
Qed.

End RunTypeChecker.

End Checkers.

(* ===================================================================== *)
(** * The ty language-server worker (workers/tyWorker.ts) *)
(* ===================================================================== *)

Module TyWorker.
Import Position Uri Js.

(** ** Protocol data *)

(** [id?: number | string] *)
Inductive RequestId := IdNumber (n : Z) | IdString (s : string).

(** [params.textDocument]: [LSPTextDocumentItem] on open, an identifier
    with the same [uri] elsewhere. *)
Record TextDocument := mkTextDocument { doc_uri : string; doc_text : string }.

(** An element of [params.contentChanges]. *)
Record ContentChange := mkContentChange { change_text : string }.

(** [params.initializationOptions] *)
Record InitializationOptions := mkInitializationOptions { opt_pythonVersion : option string }.

(** [params?: any], with the properties the worker reads; each one may
    be missing. *)
Record Params := mkParams {
  initializationOptions : option InitializationOptions;
  textDocument : option TextDocument;
  contentChanges : option (list ContentChange);
  position : option LSPPosition
}.

(** [interface LSPRequest] *)
Record LSPRequest := mkLSPRequest {
  id : option RequestId;
  method : string;
  params : option Params
}.

(** ** Results of the native engine *)

Record TyHover := mkTyHover { markdown : string; hover_range : TyRange }.
Record TyTextEdit := mkTyTextEdit { edit_range : TyRange; new_text : string }.
Record TyCompletion := mkTyCompletion {
  name : string;
  kind : option Z;
  detail : option string;
  documentation : option string;
  insert_text : option string;
  additional_text_edits : option (list TyTextEdit)
}.
Record TyDocumentHighlight := mkTyDocumentHighlight { hl_range : TyRange; hl_kind : Z }.
Record TyParameterInformation := mkTyParameterInformation {
  param_label : string;
  param_documentation : option string
}.
Record TySignatureInformation := mkTySignatureInformation {
  sig_label : string;
  sig_documentation : option string;
  parameters : list TyParameterInformation;
  active_parameter : option Z
}.
Record TySignatureHelp := mkTySignatureHelp {
  signatures : list TySignatureInformation;
  active_signature : option Z
}.

(** ** Results sent to the client *)

Record LSPDiagnostic := mkLSPDiagnostic {
  d_range : LSPRange;
  d_severity : Z;
  d_message : string;
  d_source : string
}.
Record LSPTextEdit := mkLSPTextEdit { e_range : LSPRange; newText : string }.
(** [documentation] is [{ kind: 'markdown', value }] or [undefined]. *)
Record LSPCompletionItem := mkLSPCompletionItem {
  c_label : string;
  c_kind : Z;
  c_detail : option string;
  c_documentation : option string;
  insertText : string;
  additionalTextEdits : option (list LSPTextEdit)
}.
Record LSPDocumentHighlight := mkLSPDocumentHighlight { h_range : LSPRange; h_kind : Z }.
Record LSPParameterInformation := mkLSPParameterInformation {
  p_label : string;
  p_documentation : option string
}.
Record LSPSignatureInformation := mkLSPSignatureInformation {
  s_label : string;
  s_documentation : option string;
  s_parameters : list LSPParameterInformation;
  activeParameter : option Z
}.

(** The [result] of a response, one constructor per shape the worker
    builds. *)
Inductive LSPResult :=
| RCapabilities
| RNull
| RDiagnosticReport (items : list LSPDiagnostic)
| RHover (value : string) (range : LSPRange)
| RCompletionList (items : list LSPCompletionItem)
| RLocations (locations : list LSPLocation)
| RHighlights (highlights : list LSPDocumentHighlight)
| RSignatureHelp (sigs : list LSPSignatureInformation) (activeSignature : Z)
| RTextEdits (edits : list LSPTextEdit).

(** What [self.postMessage] is given. *)
Inductive Outgoing :=
| Response (id : option RequestId) (result : LSPResult)
| ErrorResponse (id : option RequestId) (code : Z) (message : string)
| Notification (method : string) (type : Z) (message : string)
| WorkerReady.

(** The effects of the worker on its surroundings, in order. *)
Inductive Effect :=
| PostMessage (m : Outgoing)
| ConsoleError (label : string) (e : Thrown)
| SelfClose.

(** ** Truthiness of the values the worker tests *)

(** [s || fallback] for an optional string: [undefined] and the empty
    string are falsy. *)
Definition orString (s : option string) (fallback : string) : string :=
  match s with
  | Some (String c t) => String c t
  | _ => fallback
  end.

(** [s ? { kind: 'markdown', value: s } : undefined] *)
Definition markdownOf (s : option string) : option string :=
  match s with
  | Some (String c t) => Some (String c t)
  | _ => None
  end.

(** [n || 0] for an optional number. *)
Definition orZero (n : option Z) : Z := match n with Some k => k | None => 0 end.

(** [n ?? 1] *)
Definition orOne (n : option Z) : Z := match n with Some k => k | None => 1 end.

(** [text.split('\n')]: the pieces between line feeds, at least one. *)
Fixpoint splitLines (text : string) : list string :=
  match text with
  | EmptyString => [EmptyString]
  | String c t =>
      if Ascii.eqb c "010"%char then EmptyString :: splitLines t
      else match splitLines t with
           | l :: ls => String c l :: ls
           | [] => [String c EmptyString]
           end
  end.

(** ** The method names of the [switch] *)

Inductive Method :=
| Initialize | Initialized | DidOpen | DidChange | DidClose
| Diagnostic | Hover | Completion | Definition_ | References
| TypeDefinition | Declaration | DocumentHighlight | SignatureHelp
| Formatting | Shutdown | Exit.

Definition methodName (m : Method) : string :=
  match m with
  | Initialize => "initialize"
  | Initialized => "initialized"
  | DidOpen => "textDocument/didOpen"
  | DidChange => "textDocument/didChange"
  | DidClose => "textDocument/didClose"
  | Diagnostic => "textDocument/diagnostic"
  | Hover => "textDocument/hover"
  | Completion => "textDocument/completion"
  | Definition_ => "textDocument/definition"
  | References => "textDocument/references"
  | TypeDefinition => "textDocument/typeDefinition"
  | Declaration => "textDocument/declaration"
  | DocumentHighlight => "textDocument/documentHighlight"
  | SignatureHelp => "textDocument/signatureHelp"
  | Formatting => "textDocument/formatting"
  | Shutdown => "shutdown"
  | Exit => "exit"
  end.

(** The [case] labels in the order of the source. *)
Definition allMethods : list Method :=
  [ Initialize; Initialized; DidOpen; DidChange; DidClose; Diagnostic; Hover;
    Completion; Definition_; References; TypeDefinition; Declaration;
    DocumentHighlight; SignatureHelp; Formatting; Shutdown; Exit ].

Definition supportedMethods : list string := map methodName allMethods.

(** [switch (method)]: the first [case] whose label is strictly equal to
    [method], if there is one. *)
Fixpoint selectCase (cases : list Method) (name : string) : option Method :=
  match cases with
  | [] => None
  | m :: rest => if String.eqb name (methodName m) then Some m else selectCase rest name
  end.

(** ** The adapter over an abstract engine *)

Section Adapter.

(** ty_wasm's [Workspace] and [FileHandle]. A workspace is a mutable
    object; here it is the value of its state, and a call that may
    change it returns the state it leaves behind. *)
Context {Workspace FileHandle : Type}.

(** ty_wasm's [Diagnostic], read through [toRange(workspace)],
    [severity()] and [message()]; these readers, like the property reads
    on the other results of the engine, are taken to return. *)
Record TyDiagnostic := mkTyDiagnostic {
  toRange : Workspace -> option TyRange;
  severity : Z;
  message : string
}.

(** The call surface of ty_wasm the worker uses. Every call may throw. *)
Record Engine := mkEngine {
  init : Outcome unit;
  newWorkspace : string -> string -> Outcome Workspace;
  openFile : Workspace -> string -> string -> Outcome FileHandle * Workspace;
  updateFile : Workspace -> FileHandle -> string -> Outcome unit * Workspace;
  closeFile : Workspace -> FileHandle -> Outcome unit * Workspace;
  checkFile : Workspace -> FileHandle -> Outcome (list TyDiagnostic);
  hover : Workspace -> FileHandle -> TyPosition -> Outcome (option TyHover);
  completions : Workspace -> FileHandle -> TyPosition -> Outcome (list TyCompletion);
  gotoDefinition : Workspace -> FileHandle -> TyPosition -> Outcome (list TyLocationLink);
  gotoReferences : Workspace -> FileHandle -> TyPosition -> Outcome (list TyLocationLink);
  gotoTypeDefinition : Workspace -> FileHandle -> TyPosition -> Outcome (list TyLocationLink);
  gotoDeclaration : Workspace -> FileHandle -> TyPosition -> Outcome (list TyLocationLink);
  documentHighlights :
    Workspace -> FileHandle -> TyPosition -> Outcome (list TyDocumentHighlight);
  signatureHelp : Workspace -> FileHandle -> TyPosition -> Outcome (option TySignatureHelp);
  format : Workspace -> FileHandle -> Outcome (option string);
  sourceText : Workspace -> FileHandle -> Outcome string
}.

Variable engine : Engine.

(** The module-level variables [workspace], [fileHandles] and
    [pythonVersion], and whether [self.close()] has been called. *)
Record State := mkState {
  workspace : option Workspace;
  fileHandles : gmap string FileHandle;
  pythonVersion : string;
  closing : bool
}.

Definition initialState : State := mkState None ∅ "3.12" false.

(** A computation of the worker: from a state to an outcome, the state
    left behind and the effects emitted, whether it returns or throws. *)
Definition M (A : Type) : Type := State -> Outcome A * State * list Effect.

Definition ret {A} (a : A) : M A := fun st => (Ok a, st, []).

Definition throw {A} (e : Thrown) : M A := fun st => (Raise e, st, []).

Definition bind {A B} (m : M A) (k : A -> M B) : M B :=
  fun st =>
    match m st with
    | (Ok a, st1, out1) =>
        match k a st1 with
        | (r, st2, out2) => (r, st2, out1 ++ out2)
        end
    | (Raise e, st1, out1) => (Raise e, st1, out1)
    end.

(** [try { m } catch (error) { handler error }] *)
Definition tryCatch {A} (m : M A) (handler : Thrown -> M A) : M A :=
  fun st =>
    match m st with
    | (Ok a, st1, out1) => (Ok a, st1, out1)
    | (Raise e, st1, out1) =>
        match handler e st1 with
        | (r, st2, out2) => (r, st2, out1 ++ out2)
        end
    end.

Notation "x <- c1 ;; c2" := (bind c1 (fun x => c2))
  (at level 100, c1 at next level, right associativity).
Notation "c1 ;; c2" := (bind c1 (fun _ => c2))
  (at level 100, right associativity).

Definition get : M State := fun st => (Ok st, st, []).
Definition emit (e : Effect) : M unit := fun st => (Ok tt, st, [e]).
Definition setWorkspace (w : option Workspace) : M unit :=
  fun st => (Ok tt, mkState w (fileHandles st) (pythonVersion st) (closing st), []).
Definition setFileHandles (h : gmap string FileHandle) : M unit :=
  fun st => (Ok tt, mkState (workspace st) h (pythonVersion st) (closing st), []).
Definition setPythonVersion (v : string) : M unit :=
  fun st => (Ok tt, mkState (workspace st) (fileHandles st) v (closing st), []).
Definition selfClose : M unit :=
  fun st => (Ok tt, mkState (workspace st) (fileHandles st) (pythonVersion st) true,
             [SelfClose]).

(** A call into the engine that leaves the workspace as it is. *)
Definition callEngine {A} (call : Outcome A) : M A := fun st => (call, st, []).

(** A call on the workspace object that may change it; the variable
    [workspace] keeps referring to the object, thrown or not. *)
Definition callWorkspace {A} (call : Outcome A * Workspace) : M A :=
  fun st => (fst call,
             mkState (Some (snd call)) (fileHandles st) (pythonVersion st) (closing st),
             []).

(** [function sendResponse(id, result)] *)
Definition sendResponse (id : option RequestId) (result : LSPResult) : M unit :=
  emit (PostMessage (Response id result)).

(** [function sendError(id, code, message)] *)
Definition sendError (id : option RequestId) (code : Z) (message : string) : M unit :=
  emit (PostMessage (ErrorResponse id code message)).

(** [function sendNotification(method, params)] *)
Definition sendNotification (method : string) (type : Z) (message : string) : M unit :=
  emit (PostMessage (Notification method type message)).

(** Reading [property] of a value that is [undefined]. *)
Definition undefinedRead (property : string) : Thrown :=
  TypeError ("Cannot read properties of undefined (reading '" +:+ property +:+ "')").

Definition defined {A} (v : option A) (property : string) : M A :=
  match v with
  | Some a => ret a
  | None => throw (undefinedRead property)
  end.

(** [params.textDocument.uri] *)
Definition documentUri (params : option Params) : M string :=
  p <- defined params "textDocument" ;;
  doc <- defined (textDocument p) "uri" ;;
  ret (doc_uri doc).

(** [params.position] and [params.contentChanges], read once [params]
    is known to be an object. *)
Definition positionOf (params : option Params) : option LSPPosition :=
  match params with Some p => position p | None => None end.
Definition contentChangesOf (params : option Params) : option (list ContentChange) :=
  match params with Some p => contentChanges p | None => None end.

(** [(params?.initializationOptions || {}).pythonVersion || '3.12'] *)
Definition requestedVersion (params : option Params) : string :=
  let initOptions :=
    match params with Some p => initializationOptions p | None => None end in
  orString (match initOptions with Some o => opt_pythonVersion o | None => None end)
           "3.12".

(** [lspToTyPosition(position)], where [position] may be [undefined]. *)
Definition tyPositionOf (params : option Params) : M TyPosition :=
  pos <- defined (positionOf params) "line" ;;
  ret (lspToTyPosition pos).

(** The object built for one diagnostic in [textDocument/diagnostic]. *)
Definition lspDiagnostic (ws : Workspace) (diag : TyDiagnostic) : LSPDiagnostic :=
  let range := toRange diag ws in
  let severity := severity diag in
  mkLSPDiagnostic
    (match range with Some r => tyToLSPRange r | None => zeroRange end)
    (Severity.lspSeverity severity)
    (message diag)
    "ty".

Definition lspTextEdit (edit : TyTextEdit) : LSPTextEdit :=
  mkLSPTextEdit (tyToLSPRange (edit_range edit)) (new_text edit).

(** The object built for one completion in [textDocument/completion]. *)
Definition lspCompletionItem (comp : TyCompletion) : LSPCompletionItem :=
  mkLSPCompletionItem
    (name comp)
    (orOne (kind comp))
    (detail comp)
    (markdownOf (documentation comp))
    (orString (insert_text comp) (name comp))
    (option_map (map lspTextEdit) (additional_text_edits comp)).

Definition lspDocumentHighlight (hl : TyDocumentHighlight) : LSPDocumentHighlight :=
  mkLSPDocumentHighlight (tyToLSPRange (hl_range hl)) (hl_kind hl).

Definition lspParameter (param : TyParameterInformation) : LSPParameterInformation :=
  mkLSPParameterInformation (param_label param) (markdownOf (param_documentation param)).

Definition lspSignature (sig : TySignatureInformation) : LSPSignatureInformation :=
  mkLSPSignatureInformation
    (sig_label sig)
    (markdownOf (sig_documentation sig))
    (map lspParameter (parameters sig))
    (active_parameter sig).

(** The whole-document range of [textDocument/formatting]. *)
Definition fullRange (currentText : string) : LSPRange :=
  let lines := splitLines currentText in
  let lastLine := (length lines - 1)%nat in
  let lastChar := String.length (nth lastLine lines EmptyString) in
  mkLSPRange (mkLSPPosition 0 0) (mkLSPPosition (Z.of_nat lastLine) (Z.of_nat lastChar)).

(** The four location requests differ in the engine call only. *)
Definition locations
    (call : Workspace -> FileHandle -> TyPosition -> Outcome (list TyLocationLink))
    (id : option RequestId) (params : option Params) : M unit :=
  uri <- documentUri params ;;
  st <- get ;;
  match workspace st, fileHandles st !! uri with
  | Some ws, Some handle =>
      tyPos <- tyPositionOf params ;;
      locs <- callEngine (call ws handle tyPos) ;;
      sendResponse id (RLocations (map tyLocationLinkToLSPLocation locs))
  | _, _ => sendResponse id (RLocations [])
  end.

(** The body of one [case] of [handleRequest]. *)
Definition handleCase (m : Method) (id : option RequestId) (params : option Params)
    : M unit :=
  match m with
  | Initialize =>
      callEngine (init engine) ;;
      setPythonVersion (requestedVersion params) ;;
      st <- get ;;
      ws <- callEngine (newWorkspace engine "/" (pythonVersion st)) ;;
      setWorkspace (Some ws) ;;
      sendResponse id RCapabilities
  | Initialized =>
      sendNotification "window/logMessage" 3 "ty language server initialized"
  | DidOpen =>
      p <- defined params "textDocument" ;;
      st <- get ;;
      match workspace st with
      | Some ws =>
          doc <- defined (textDocument p) "uri" ;;
          handle <- callWorkspace (openFile engine ws (doc_uri doc) (doc_text doc)) ;;
          st' <- get ;;
          setFileHandles (<[doc_uri doc := handle]> (fileHandles st'))
      | None => ret tt
      end
  | DidChange =>
      uri <- documentUri params ;;
      st <- get ;;
      match workspace st, fileHandles st !! uri with
      | Some ws, Some handle =>
          changes <- defined (contentChangesOf params) "length" ;;
          match changes with
          | change :: _ => callWorkspace (updateFile engine ws handle (change_text change))
          | [] => ret tt
          end
      | _, _ => ret tt
      end
  | DidClose =>
      uri <- documentUri params ;;
      st <- get ;;
      match workspace st, fileHandles st !! uri with
      | Some ws, Some handle =>
          callWorkspace (closeFile engine ws handle) ;;
          st' <- get ;;
          setFileHandles (delete uri (fileHandles st'))
      | _, _ => ret tt
      end
  | Diagnostic =>
      uri <- documentUri params ;;
      st <- get ;;
      match workspace st, fileHandles st !! uri with
      | Some ws, Some handle =>
          diagnostics <- callEngine (checkFile engine ws handle) ;;
          sendResponse id (RDiagnosticReport (map (lspDiagnostic ws) diagnostics))
      | _, _ => sendResponse id (RDiagnosticReport [])
      end
  | Hover =>
      uri <- documentUri params ;;
      st <- get ;;
      match workspace st, fileHandles st !! uri with
      | Some ws, Some handle =>
          tyPos <- tyPositionOf params ;;
          h <- callEngine (hover engine ws handle tyPos) ;;
          match h with
          | Some hv => sendResponse id (RHover (markdown hv) (tyToLSPRange (hover_range hv)))
          | None => sendResponse id RNull
          end
      | _, _ => sendResponse id RNull
      end
  | Completion =>
      uri <- documentUri params ;;
      st <- get ;;
      match workspace st, fileHandles st !! uri with
      | Some ws, Some handle =>
          tyPos <- tyPositionOf params ;;
          comps <- callEngine (completions engine ws handle tyPos) ;;
          sendResponse id (RCompletionList (map lspCompletionItem comps))
      | _, _ => sendResponse id (RCompletionList [])
      end
  | Definition_ => locations (gotoDefinition engine) id params
  | References => locations (gotoReferences engine) id params
  | TypeDefinition => locations (gotoTypeDefinition engine) id params
  | Declaration => locations (gotoDeclaration engine) id params
  | DocumentHighlight =>
      uri <- documentUri params ;;
      st <- get ;;
      match workspace st, fileHandles st !! uri with
      | Some ws, Some handle =>
          tyPos <- tyPositionOf params ;;
          hls <- callEngine (documentHighlights engine ws handle tyPos) ;;
          sendResponse id (RHighlights (map lspDocumentHighlight hls))
      | _, _ => sendResponse id (RHighlights [])
      end
  | SignatureHelp =>
      uri <- documentUri params ;;
      st <- get ;;
      match workspace st, fileHandles st !! uri with
      | Some ws, Some handle =>
          tyPos <- tyPositionOf params ;;
          sigHelp <- callEngine (signatureHelp engine ws handle tyPos) ;;
          match sigHelp with
          | Some sh =>
              sendResponse id
                (RSignatureHelp (map lspSignature (signatures sh))
                                (orZero (active_signature sh)))
          | None => sendResponse id RNull
          end
      | _, _ => sendResponse id RNull
      end
  | Formatting =>
      uri <- documentUri params ;;
      st <- get ;;
      match workspace st, fileHandles st !! uri with
      | Some ws, Some handle =>
          formatted <- callEngine (format engine ws handle) ;;
          match formatted with
          | Some (String c t) =>
              currentText <- callEngine (sourceText engine ws handle) ;;
              sendResponse id
                (RTextEdits [mkLSPTextEdit (fullRange currentText) (String c t)])
          | _ => sendResponse id (RTextEdits [])
          end
      | _, _ => sendResponse id (RTextEdits [])
      end
  | Shutdown => sendResponse id RNull
  | Exit => selfClose
  end.

(** The [switch] inside the [try] of [handleRequest]. *)
Definition dispatch (request : LSPRequest) : M unit :=
  match selectCase allMethods (method request) with
  | Some m => handleCase m (id request) (params request)
  | None => sendError (id request) (-32601) ("Method not found: " +:+ method request)
  end.

(** [async function handleRequest(request)]. The one [await] of the
    function is that of [init()]; a request is taken to run to its end
    before the next message is looked at. *)
Definition handleRequest (request : LSPRequest) : M unit :=
  tryCatch (dispatch request)
    (fun error =>
       emit (ConsoleError "Error handling LSP request:" error) ;;
       sendError (id request) (-32603) ("Internal error: " +:+ toString error)).

(** [event.data] of a message from the main thread: [null], an object
    with [jsonrpc === '2.0'], or anything else. *)
Inductive MessageData :=
| DataNull
| DataRequest (request : LSPRequest)
| DataOther.

(** The ['message'] listener: [typeof message === 'object' &&
    message.jsonrpc === '2.0'] guards the call of [handleRequest];
    [typeof null] is ['object']. *)
Definition onMessage (data : MessageData) : M unit :=
  match data with
  | DataNull => throw (TypeError "Cannot read properties of null (reading 'jsonrpc')")
  | DataRequest request => handleRequest request
  | DataOther => ret tt
  end.

(** The module body: the state starts empty and the last statement posts
    [{ type: 'worker-ready' }]. *)
Definition startWorker : State * list Effect :=
  (initialState, [PostMessage WorkerReady]).

(** The worker given the messages in their order of arrival: each one
    runs the listener; a listener that throws leaves the worker
    running; after [self.close()] no further message is delivered. *)
Fixpoint runWorker (inbox : list MessageData) (st : State) : State * list Effect :=
  match inbox with
  | [] => (st, [])
  | data :: rest =>
      if closing st then (st, [])
      else
        match onMessage data st with
        | (_, st1, out1) =>
            match runWorker rest st1 with
            | (st2, out2) => (st2, out1 ++ out2)
            end
        end
  end.

(** ** Notions the properties of the worker are stated with *)

(** The response to a request for a method the [switch] has no case for. *)
Definition methodNotFound (request : LSPRequest) : Effect :=
  PostMessage
    (ErrorResponse (id request) (-32601) ("Method not found: " +:+ method request)).

(** The response of the [catch] clause. *)
Definition internalError (request : LSPRequest) (e : Thrown) : list Effect :=
  [ ConsoleError "Error handling LSP request:" e;
    PostMessage
      (ErrorResponse (id request) (-32603) ("Internal error: " +:+ toString e)) ].

(** The result the worker sends when the state a request needs is
    missing, for the requests that need a workspace and a file handle. *)
Definition emptyResult (m : Method) : option LSPResult :=
  match m with
  | Diagnostic => Some (RDiagnosticReport [])
  | Hover | SignatureHelp => Some RNull
  | Completion => Some (RCompletionList [])
  | Definition_ | References | TypeDefinition | Declaration => Some (RLocations [])
  | DocumentHighlight => Some (RHighlights [])
  | Formatting => Some (RTextEdits [])
  | _ => None
  end.

(** [null], or a list or report without elements. *)
Definition emptyOrNull (r : LSPResult) : Prop :=
  match r with
  | RNull | RDiagnosticReport [] | RCompletionList [] | RLocations []
  | RHighlights [] | RTextEdits [] => True
  | _ => False
  end.

(** The request names an open document of an existing workspace. *)
Definition onDocument (params : option Params) (st : State)
    (P : Params -> Workspace -> FileHandle -> Prop) : Prop :=
  exists p doc ws handle,
    params = Some p /\ textDocument p = Some doc /\ workspace st = Some ws
    /\ fileHandles st !! doc_uri doc = Some handle /\ P p ws handle.

(** The request carries a position; [P] is about its engine form. *)
Definition atPosition (p : Params) (P : TyPosition -> Prop) : Prop :=
  exists pos, position p = Some pos /\ P (lspToTyPosition pos).

(** The engine throws [e] in a call the worker makes while it handles
    method [m] with [params] in state [st]: one clause per call site
    of [handleRequest], each with the conditions under which the call
    is reached. *)
Definition engineRaises (m : Method) (params : option Params) (st : State)
    (e : Thrown) : Prop :=
  match m with
  | Initialize =>
      init engine = Raise e
      \/ (init engine = Ok tt
          /\ newWorkspace engine "/" (requestedVersion params) = Raise e)
  | DidOpen =>
      exists p doc ws,
        params = Some p /\ textDocument p = Some doc /\ workspace st = Some ws
        /\ fst (openFile engine ws (doc_uri doc) (doc_text doc)) = Raise e
  | DidChange =>
      onDocument params st (fun p ws handle =>
        exists change rest,
          contentChanges p = Some (change :: rest)
          /\ fst (updateFile engine ws handle (change_text change)) = Raise e)
  | DidClose =>
      onDocument params st (fun _ ws handle =>
        fst (closeFile engine ws handle) = Raise e)
  | Diagnostic =>
      onDocument params st (fun _ ws handle => checkFile engine ws handle = Raise e)
  | Hover =>
      onDocument params st (fun p ws handle =>
        atPosition p (fun tyPos => hover engine ws handle tyPos = Raise e))
  | Completion =>
      onDocument params st (fun p ws handle =>
        atPosition p (fun tyPos => completions engine ws handle tyPos = Raise e))
  | Definition_ =>
      onDocument params st (fun p ws handle =>
        atPosition p (fun tyPos => gotoDefinition engine ws handle tyPos = Raise e))
  | References =>
      onDocument params st (fun p ws handle =>
        atPosition p (fun tyPos => gotoReferences engine ws handle tyPos = Raise e))
  | TypeDefinition =>
      onDocument params st (fun p ws handle =>
        atPosition p (fun tyPos => gotoTypeDefinition engine ws handle tyPos = Raise e))
  | Declaration =>
      onDocument params st (fun p ws handle =>
        atPosition p (fun tyPos => gotoDeclaration engine ws handle tyPos = Raise e))
  | DocumentHighlight =>
      onDocument params st (fun p ws handle =>
        atPosition p (fun tyPos => documentHighlights engine ws handle tyPos = Raise e))
  | SignatureHelp =>
      onDocument params st (fun p ws handle =>
        atPosition p (fun tyPos => signatureHelp engine ws handle tyPos = Raise e))
  | Formatting =>
      onDocument params st (fun _ ws handle =>
        format engine ws handle = Raise e
        \/ exists c t,
             format engine ws handle = Ok (Some (String c t))
             /\ sourceText engine ws handle = Raise e)
  | Initialized | Shutdown | Exit => False
  end.

(** ** Facts about the dispatcher *)

Lemma selectCase_None cases name :
  selectCase cases name = None <-> ~ In name (map methodName cases).
Proof.
  induction cases as [|m rest IH]; simpl.
  - split; [intros _ [] | reflexivity].
  - destruct (String.eqb_spec name (methodName m)) as [->|Hne].
    + split; [discriminate | intros H; exfalso; apply H; left; reflexivity].
    + rewrite IH; split.
      * intros H [Heq|Hin]; [apply Hne; symmetry; exact Heq | exact (H Hin)].
      * intros H Hin; apply H; right; exact Hin.
Qed.

Lemma selectCase_methodName m : selectCase allMethods (methodName m) = Some m.
Proof. destruct m; reflexivity. Qed.

Lemma selectCase_Some name m : selectCase allMethods name = Some m -> name = methodName m.
Proof.
  unfold allMethods; simpl.
  repeat match goal with
         | |- context [String.eqb name ?s] =>
             destruct (String.eqb_spec name s) as [->|_];
             [intros H; injection H as <-; reflexivity|]
         end.
  discriminate.
Qed.

Lemma dispatch_unknown request st :
  selectCase allMethods (method request) = None ->
  dispatch request st = (Ok tt, st, [methodNotFound request]).
Proof. intros H; unfold dispatch; rewrite H; reflexivity. Qed.

Lemma handleRequest_Ok request st a st1 out1 :
  dispatch request st = (Ok a, st1, out1) ->
  handleRequest request st = (Ok a, st1, out1).
Proof. intros H; unfold handleRequest, tryCatch; rewrite H; reflexivity. Qed.

Lemma handleRequest_Raise request st e st1 out1 :
  dispatch request st = (Raise e, st1, out1) ->
  handleRequest request st = (Ok tt, st1, out1 ++ internalError request e).
Proof. intros H; unfold handleRequest, tryCatch; rewrite H; reflexivity. Qed.

Lemma handleRequest_returns request st :
  exists st1 out1, handleRequest request st = (Ok tt, st1, out1).
Proof.
  destruct (dispatch request st) as [[[[]|e] st1] out1] eqn:H.
  - exists st1, out1; apply handleRequest_Ok; exact H.
  - exists st1, (out1 ++ internalError request e); apply handleRequest_Raise; exact H.
Qed.

Lemma runWorker_request request rest st st1 out1 :
  closing st = false ->
  handleRequest request st = (Ok tt, st1, out1) ->
  runWorker (DataRequest request :: rest) st
  = (fst (runWorker rest st1), out1 ++ snd (runWorker rest st1)).
Proof.
  intros Hc H; simpl; rewrite Hc, H.
  destruct (runWorker rest st1); reflexivity.
Qed.

(** C4. A request whose method is none of the names of the dispatch
    table is answered with exactly one message, the error response
    with code -32601 and the id of the request; the state of the
    worker is unchanged, and the worker goes on with the messages that
    follow exactly as it would have without the request. *)
Theorem unknown_method (request : LSPRequest) (st : State) :
  ~ In (method request) supportedMethods ->
  handleRequest request st
  = (Ok tt, st,
     [PostMessage
        (ErrorResponse (id request) (-32601) ("Method not found: " +:+ method request))])
  /\ (forall rest,
       closing st = false ->
       runWorker (DataRequest request :: rest) st
       = (fst (runWorker rest st),
          PostMessage
            (ErrorResponse (id request) (-32601)
               ("Method not found: " +:+ method request))
          :: snd (runWorker rest st))).
Proof.
  intros Hnot.
  assert (H : handleRequest request st = (Ok tt, st, [methodNotFound request])).
  { apply handleRequest_Ok, dispatch_unknown, selectCase_None; exact Hnot. }
  split; [exact H|].
  intros rest Hc; rewrite (runWorker_request _ _ _ _ _ Hc H); reflexivity.
Qed.

Ltac run_handler :=
  unfold handleCase, locations, documentUri, tyPositionOf, defined, callEngine,
    callWorkspace, sendResponse, sendError, emit, get, bind, ret, throw; cbn.

Lemma dispatch_missing_state m r rid p doc st :
  emptyResult m = Some r ->
  textDocument p = Some doc ->
  workspace st = None \/ fileHandles st !! doc_uri doc = None ->
  dispatch (mkLSPRequest rid (methodName m) (Some p)) st
  = (Ok tt, st, [PostMessage (Response rid r)]).
Proof.
  intros Hr Hdoc Hmissing; unfold dispatch; cbn [method id params].
  rewrite selectCase_methodName.
  destruct m; simpl in Hr; try discriminate Hr; injection Hr as <-;
    run_handler; rewrite Hdoc; cbn;
    (destruct Hmissing as [Hw|Hh];
     [rewrite Hw; reflexivity
     |destruct (workspace st); rewrite ?Hh; reflexivity]).
Qed.

(** C6. For diagnostics-pull, hover, completion, definition,
    references, type-definition, declaration, document-highlight,
    signature-help and formatting: when the workspace has not been
    created, or the file-handle map has no entry for the URI of the
    request's document, the worker returns normally, leaves its state
    as it is and posts one response carrying the empty or null result
    of the method (an empty report, [null], an empty list), and no
    error response. *)
Theorem missing_state_empty_result
    (m : Method) (r : LSPResult) (rid : option RequestId) (p : Params)
    (doc : TextDocument) (st : State) :
  emptyResult m = Some r ->
  textDocument p = Some doc ->
  workspace st = None \/ fileHandles st !! doc_uri doc = None ->
  handleRequest (mkLSPRequest rid (methodName m) (Some p)) st
  = (Ok tt, st, [PostMessage (Response rid r)])
  /\ emptyOrNull r.
Proof.
  intros Hr Hdoc Hmissing; split.
  - apply handleRequest_Ok, (dispatch_missing_state m r rid p doc st Hr Hdoc Hmissing).
  - destruct m; simpl in Hr; try discriminate Hr; injection Hr as <-; exact I.
Qed.

(** C10. In the response to a diagnostics pull every item carries a
    range: the list of items has one item per engine diagnostic, in
    order; the item of a diagnostic whose [toRange] is absent has the
    range from (0, 0) to (0, 0), and the item of a diagnostic with a
    range has that range converted. *)
Theorem diagnostic_range_fallback
    (rid : option RequestId) (p : Params) (doc : TextDocument) (st : State)
    (ws : Workspace) (handle : FileHandle) (diagnostics : list TyDiagnostic) :
  textDocument p = Some doc ->
  workspace st = Some ws ->
  fileHandles st !! doc_uri doc = Some handle ->
  checkFile engine ws handle = Ok diagnostics ->
  exists items,
    handleRequest (mkLSPRequest rid "textDocument/diagnostic" (Some p)) st
    = (Ok tt, st, [PostMessage (Response rid (RDiagnosticReport items))])
    /\ length items = length diagnostics
    /\ forall i diag,
        nth_error diagnostics i = Some diag ->
        exists item,
          nth_error items i = Some item
          /\ (toRange diag ws = None -> d_range item = zeroRange)
          /\ (forall range, toRange diag ws = Some range ->
                            d_range item = tyToLSPRange range).
Proof.
  intros Hdoc Hws Hh Hcheck.
  exists (map (lspDiagnostic ws) diagnostics); split; [|split].
  - apply handleRequest_Ok; unfold dispatch; cbn [method id params].
    change (selectCase allMethods "textDocument/diagnostic") with (Some Diagnostic).
    run_handler; rewrite Hdoc; cbn; rewrite Hws, Hh, Hcheck; reflexivity.
  - apply length_map.
  - intros i diag Hi; exists (lspDiagnostic ws diag); split; [|split].
    + apply map_nth_error; exact Hi.
    + intros Hnone; unfold lspDiagnostic; cbn; rewrite Hnone; reflexivity.
    + intros range Hsome; unfold lspDiagnostic; cbn; rewrite Hsome; reflexivity.
Qed.

Ltac open_hyps :=
  repeat match goal with
         | H : exists _, _ |- _ => destruct H
         | H : _ /\ _ |- _ => destruct H
         | H : _ \/ _ |- _ => destruct H
         end.

Ltac rewrite_hyps :=
  repeat match goal with
         | H : _ = _ |- _ => rewrite H; clear H; cbn
         end.

Lemma dispatch_engineRaises m rid ps st e :
  engineRaises m ps st e ->
  exists st1,
    dispatch (mkLSPRequest rid (methodName m) ps) st = (Raise e, st1, [])
    /\ fileHandles st1 = fileHandles st /\ closing st1 = closing st.
Proof.
  intros H; unfold dispatch; cbn [method id params].
  rewrite selectCase_methodName.
  destruct m; cbn in H; try contradiction;
    unfold onDocument, atPosition in H; open_hyps; subst;
    run_handler; unfold setPythonVersion, positionOf, contentChangesOf; cbn;
    rewrite_hyps; eexists; repeat split.
Qed.

(** C7. Whatever the request and the state, [handleRequest] returns
    normally: nothing it runs, engine call or property read, throws
    past it. When the engine throws [e] in a call made for the
    request, the worker posts exactly one message, the error response
    with code -32603, the id of the request and the message
    "Internal error: " followed by the string form of [e] (after
    logging [e] on the console); more generally this is the answer to
    whatever is thrown inside the [try]. The worker then goes on with
    the messages that follow. *)
Theorem engine_failure_contained (request : LSPRequest) (st : State) :
  (exists st1 out1, handleRequest request st = (Ok tt, st1, out1))
  /\ (forall m e,
       method request = methodName m ->
       engineRaises m (params request) st e ->
       exists st1,
         handleRequest request st
         = (Ok tt, st1,
            [ ConsoleError "Error handling LSP request:" e;
              PostMessage
                (ErrorResponse (id request) (-32603)
                   ("Internal error: " +:+ toString e)) ])
         /\ contains ("Internal error: " +:+ toString e) (toString e)
         /\ closing st1 = closing st
         /\ forall rest,
             closing st = false ->
             runWorker (DataRequest request :: rest) st
             = (fst (runWorker rest st1),
                internalError request e ++ snd (runWorker rest st1)))
  /\ (forall e st1 out1,
       dispatch request st = (Raise e, st1, out1) ->
       handleRequest request st
       = (Ok tt, st1,
          out1 ++
          [ ConsoleError "Error handling LSP request:" e;
            PostMessage
              (ErrorResponse (id request) (-32603)
                 ("Internal error: " +:+ toString e)) ])).
Proof.
  split; [apply handleRequest_returns|split].
  - intros m e Hm Hraise.
    destruct request as [rid name ps]; cbn [method id params] in *; subst name.
    destruct (dispatch_engineRaises m rid ps st e Hraise) as (st1 & Hd & _ & Hc).
    pose proof (handleRequest_Raise _ _ _ _ _ Hd) as Hr; cbn [app] in Hr.
    exists st1; split; [exact Hr|split; [apply contains_suffix|split; [exact Hc|]]].
    intros rest Hcl; apply runWorker_request; assumption.
  - intros e st1 out1 Hd; apply handleRequest_Raise; exact Hd.
Qed.

End Adapter.

(** ** A small engine to run the worker on *)

(** Two diagnostics, the first without a location. *)
Definition sampleDiagnostics : list (@TyDiagnostic unit) :=
  [ mkTyDiagnostic (fun _ => None) 2 "Cannot resolve import";
    mkTyDiagnostic (fun _ => Some Uri.sampleRange) 1 "Name may be unbound" ].

(** An engine with one kind of workspace, numbered file handles, the
    two diagnostics above for every file, and a [hover] that throws. *)
Definition sampleEngine : @Engine unit nat :=
  {| init := Ok tt;
     newWorkspace := fun _ _ => Ok tt;
     openFile := fun ws _ _ => (Ok 0%nat, ws);
     updateFile := fun ws _ _ => (Ok tt, ws);
     closeFile := fun ws _ => (Ok tt, ws);
     checkFile := fun _ _ => Ok sampleDiagnostics;
     hover := fun _ _ _ => Raise (EngineFailure "RuntimeError: unreachable");
     completions := fun _ _ _ => Ok [];
     gotoDefinition := fun _ _ _ => Ok [];
     gotoReferences := fun _ _ _ => Ok [];
     gotoTypeDefinition := fun _ _ _ => Ok [];
     gotoDeclaration := fun _ _ _ => Ok [];
     documentHighlights := fun _ _ _ => Ok [];
     signatureHelp := fun _ _ _ => Ok None;
     format := fun _ _ => Ok None;
     sourceText := fun _ _ => Ok "" |}.

Definition mainDocument : TextDocument := mkTextDocument "file:///main.py" "x = 1".

Definition mainParams : Params :=
  mkParams None (Some mainDocument) None (Some (mkLSPPosition 0 0)).

(** The state after [initialize] and [textDocument/didOpen] of
    [mainDocument]. *)
Definition openState : @State unit nat :=
  mkState (Some tt) {[ "file:///main.py" := 0%nat ]} "3.12" false.

Example openState_reached :
  fst (runWorker sampleEngine
         [ DataRequest (mkLSPRequest (Some (IdNumber 1)) "initialize" None);
           DataRequest (mkLSPRequest None "textDocument/didOpen" (Some mainParams)) ]
         initialState)
  = openState.
Proof. reflexivity. Qed.

Lemma unknown_method_witness :
  handleRequest sampleEngine
    (mkLSPRequest (Some (IdNumber 7)) "textDocument/inlayHint" None) initialState
  = (Ok tt, initialState,
     [PostMessage
        (ErrorResponse (Some (IdNumber 7)) (-32601)
           "Method not found: textDocument/inlayHint")]).
Proof.
  apply (unknown_method sampleEngine
           (mkLSPRequest (Some (IdNumber 7)) "textDocument/inlayHint" None) initialState).
  cbn; intros H; repeat (destruct H as [H|H]; [discriminate H|]); exact H.
Defined.

Lemma missing_state_empty_result_witness :
  handleRequest sampleEngine
    (mkLSPRequest (Some (IdNumber 2)) "textDocument/hover" (Some mainParams)) initialState
  = (Ok tt, initialState, [PostMessage (Response (Some (IdNumber 2)) RNull)]).
Proof.
  apply (missing_state_empty_result sampleEngine Hover RNull (Some (IdNumber 2))
           mainParams mainDocument initialState).
  - reflexivity.
  - reflexivity.
  - left; reflexivity.
Defined.

Lemma diagnostic_range_fallback_witness :
  exists items,
    handleRequest sampleEngine
      (mkLSPRequest (Some (IdNumber 3)) "textDocument/diagnostic" (Some mainParams))
      openState
    = (Ok tt, openState,
       [PostMessage (Response (Some (IdNumber 3)) (RDiagnosticReport items))])
    /\ exists item, nth_error items 0 = Some item /\ d_range item = zeroRange.
Proof.
  destruct (diagnostic_range_fallback sampleEngine (Some (IdNumber 3)) mainParams
              mainDocument openState tt 0%nat sampleDiagnostics
              eq_refl eq_refl eq_refl eq_refl)
    as (items & Hresp & _ & Hitems).
  exists items; split; [exact Hresp|].
  destruct (Hitems 0%nat (mkTyDiagnostic (fun _ => None) 2 "Cannot resolve import") eq_refl)
    as (item & Hnth & Hnone & _).
  exists item; split; [exact Hnth | apply Hnone; reflexivity].
Defined.

Lemma engine_failure_contained_witness :
  exists st1,
    handleRequest sampleEngine
      (mkLSPRequest (Some (IdNumber 4)) "textDocument/hover" (Some mainParams)) openState
    = (Ok tt, st1,
       [ ConsoleError "Error handling LSP request:"
           (EngineFailure "RuntimeError: unreachable");
         PostMessage
           (ErrorResponse (Some (IdNumber 4)) (-32603)
              "Internal error: RuntimeError: unreachable") ]).
Proof.
  destruct (proj1 (proj2 (engine_failure_contained sampleEngine
              (mkLSPRequest (Some (IdNumber 4)) "textDocument/hover" (Some mainParams))
              openState))
              Hover (EngineFailure "RuntimeError: unreachable") eq_refl)
    as (st1 & Hresp & _).
  - exists mainParams, mainDocument, tt, 0%nat; repeat split.
    exists (mkLSPPosition 0 0); split; reflexivity.
  - exists st1; exact Hresp.
Defined.

End TyWorker.

(* ===================================================================== *)
(** * What the two transports share (services/lsp/*.ts) *)
(* ===================================================================== *)

Module Transport.
Import Js.
Local Open Scope nat_scope.

(** Workers, message ports and subscribed handler functions are objects;
    each is known by a number. *)
Definition WorkerId := nat.
Definition Port := nat.
Definition Handler := nat.

(** [Set<(message: string) => void>]: a set that keeps insertion order. *)
Definition setAdd (h : Handler) (s : list Handler) : list Handler :=
  if bool_decide (h ∈ s) then s else s ++ [h].

Definition setDelete (h : Handler) (s : list Handler) : list Handler :=
  filter (fun k => k ≠ h) s.

(** The [name] option of a worker the transport constructs. *)
Inductive WorkerName :=
| Unnamed
| Foreground                  (* 'BasedPyright-foreground' *)
| Background (n : nat).       (* `BasedPyright-background-${n}` *)

(** What a transport does to its surroundings; [D] is what it posts. *)
Inductive Effect (D : Type) :=
| NewWorker (w : WorkerId) (name : WorkerName)
| PostMessage (w : WorkerId) (data : D) (transfer : list Port)
| Terminate (w : WorkerId)
| HandlerCall (h : Handler) (message : string)
| ConsoleError (label : string)
| OnError
| OnClose.
Arguments NewWorker {D} w name.
Arguments PostMessage {D} w data transfer.
Arguments Terminate {D} w.
Arguments HandlerCall {D} h message.
Arguments ConsoleError {D} label.
Arguments OnError {D}.
Arguments OnClose {D}.

Definition isOnClose {D} (e : Effect D) : bool :=
  match e with OnClose => true | _ => false end.

Definition terminated {D} (e : Effect D) : option WorkerId :=
  match e with Terminate w => Some w | _ => None end.

(** The close callbacks and the workers terminated in a trace. *)
Definition closeCallbacks {D} (trace : list (Effect D)) : nat :=
  length (List.filter isOnClose trace).

Definition terminations {D} (trace : list (Effect D)) : list WorkerId :=
  omap terminated trace.

(** The interface the LSP client uses ([send], [subscribe],
    [unsubscribe]) together with the [close] and [isClosed] both classes
    add, over the state [T] of a transport object. *)
Class Transport (T D : Type) := {
  send : string -> T -> Outcome unit * T * list (Effect D);
  subscribe : Handler -> T -> T;
  unsubscribe : Handler -> T -> T;
  close : T -> T * list (Effect D);
  isClosed : T -> bool;
  subscribed : T -> list Handler
}.

(** [close()] called [n] times in a row, with everything it did. *)
Fixpoint closeTimes {T D} `{Transport T D} (n : nat) (t : T) : T * list (Effect D) :=
  match n with
  | O => (t, [])
  | S k =>
      match close t with
      | (t1, out1) =>
          match closeTimes k t1 with
          | (t2, out2) => (t2, out1 ++ out2)
          end
      end
  end.

(** The calls a client can make on a transport. *)
Inductive Call :=
| CallSend (message : string)
| CallSubscribe (h : Handler)
| CallUnsubscribe (h : Handler)
| CallClose.

Definition call {T D} `{Transport T D} (c : Call) (t : T) : T * list (Effect D) :=
  match c with
  | CallSend message => match send message t with (_, t1, out) => (t1, out) end
  | CallSubscribe h => (subscribe h t, [])
  | CallUnsubscribe h => (unsubscribe h t, [])
  | CallClose => close t
  end.

Fixpoint calls {T D} `{Transport T D} (cs : list Call) (t : T) : T * list (Effect D) :=
  match cs with
  | [] => (t, [])
  | c :: rest =>
      match call c t with
      | (t1, out1) =>
          match calls rest t1 with
          | (t2, out2) => (t2, out1 ++ out2)
          end
      end
  end.

(** [handlers.forEach(handler => { try { handler(message) } catch ... })] *)
Definition forEachHandler {D} (throws : Handler -> string -> bool) (label : string)
    (handlers : list Handler) (message : string) : list (Effect D) :=
  flat_map
    (fun h => HandlerCall h message :: (if throws h message then [ConsoleError label] else []))
    handlers.

(** ** Teardown *)

(** What the two [close()] methods have in common. *)
Record TeardownIdempotent {T D : Type} (I : Transport T D) : Prop := {
  close_closes : forall t, isClosed (fst (close t)) = true;
  close_clears : forall t, isClosed t = false -> subscribed (fst (close t)) = [];
  close_again : forall t, isClosed t = true -> close t = (t, []);
  close_callback : forall t, closeCallbacks (snd (close t)) <= 1;
  send_closed :
    forall t message,
      isClosed t = true -> send message t = (Raise (JsError "Transport is closed"), t, []);
  subscribe_closed : forall t h, isClosed (subscribe h t) = isClosed t;
  unsubscribe_closed : forall t h, isClosed (unsubscribe h t) = isClosed t
}.

(** The statement of teardown idempotence for a transport [t]: [close()]
    followed by [n] more does what the first alone does, to the state and
    to the surroundings; it invokes the close callback at most once and,
    called on a transport that is not closed yet, leaves no handler
    subscribed; and whatever calls [later] follow it, they do nothing to
    the surroundings and [send] still throws after them. *)
Definition teardown {T D : Type} {I : Transport T D}
    (t : T) (n : nat) (later : list Call) (message : string) : Prop :=
  closeTimes (S n) t = close t
  /\ closeCallbacks (snd (closeTimes (S n) t)) <= 1
  /\ terminations (snd (closeTimes (S n) t)) = terminations (snd (close t))
  /\ isClosed (fst (close t)) = true
  /\ (isClosed t = false -> subscribed (fst (close t)) = [])
  /\ snd (calls later (fst (close t))) = []
  /\ send message (fst (calls later (fst (close t))))
     = (Raise (JsError "Transport is closed"), fst (calls later (fst (close t))), []).

Section Teardown.

Context {T D : Type} {I : Transport T D} (law : TeardownIdempotent I).

Lemma closeTimes_closed n t : isClosed t = true -> closeTimes n t = (t, []).
Proof.
  intros Hc; induction n as [|n IH]; [reflexivity|].
  cbn; rewrite (close_again I law t Hc), IH; reflexivity.
Qed.

Lemma closeTimes_first n t : closeTimes (S n) t = close t.
Proof.
  cbn; pose proof (close_closes I law t) as Hc.
  destruct (close t) as [t1 out1]; cbn in Hc.
  rewrite (closeTimes_closed n t1 Hc), app_nil_r; reflexivity.
Qed.

Lemma call_closed c t :
  isClosed t = true -> isClosed (fst (call c t)) = true /\ snd (call c t) = [].
Proof.
  intros Hc; destruct c as [message|h|h|]; cbn.
  - rewrite (send_closed I law t message Hc); split; [exact Hc|reflexivity].
  - rewrite (subscribe_closed I law); split; [exact Hc|reflexivity].
  - rewrite (unsubscribe_closed I law); split; [exact Hc|reflexivity].
  - rewrite (close_again I law t Hc); split; [exact Hc|reflexivity].
Qed.

Lemma calls_closed cs : forall t,
  isClosed t = true -> isClosed (fst (calls cs t)) = true /\ snd (calls cs t) = [].
Proof.
  induction cs as [|c cs IH]; intros t Hc; [split; [exact Hc|reflexivity]|].
  cbn; destruct (call_closed c t Hc) as [Hc1 Hout1].
  destruct (call c t) as [t1 out1]; cbn in Hc1, Hout1; subst out1.
  destruct (IH t1 Hc1) as [Hc2 Hout2].
  destruct (calls cs t1) as [t2 out2]; cbn in *; split; assumption.
Qed.

End Teardown.

Lemma teardown_of_law {T D : Type} {I : Transport T D} (law : TeardownIdempotent I)
    (t : T) (n : nat) (later : list Call) (message : string) :
  teardown t n later message.
Proof.
  unfold teardown.
  pose proof (calls_closed law later (fst (close t)) (close_closes I law t)) as [Hc Hout].
  rewrite (closeTimes_first law).
  repeat split; try reflexivity.
  - apply (close_callback I law).
  - apply (close_closes I law).
  - apply (close_clears I law).
  - exact Hout.
  - apply (send_closed I law); exact Hc.
Qed.

End Transport.

(* ===================================================================== *)
(** * WebWorkerTransport (services/lsp/WebWorkerTransport.ts) *)
(* ===================================================================== *)

Module WebWorkerTransport.
Import Js Transport.
Local Open Scope nat_scope.

Section WebWorker.

(** Parsed JSON values, with [JSON.parse] ([None] when it throws),
    [JSON.stringify] and the test [value.jsonrpc === '2.0']. *)
Context {Json : Type}.
Variable JSON_parse : string -> option Json.
Variable JSON_stringify : Json -> string.
Variable isJsonRpc : Json -> bool.

(** Whether a subscribed handler throws on a message. *)
Variable handlerThrows : Handler -> string -> bool.

(** What [worker.postMessage] is given. *)
Inductive Posted :=
| PostedObject (j : Json)
| PostedString (s : string).

(** The fields of the class; [listening] says that [messageListener] and
    [errorListener] are attached to the worker, [onError] and [onClose]
    that the option of that name was given. *)
Record WebWorkerTransport := mkWebWorkerTransport {
  worker : WorkerId;
  handlers : list Handler;
  listening : bool;
  closed : bool;
  onError : bool;
  onClose : bool
}.

(** [config.worker]: a [Worker] instance, or a URL from which the
    constructor builds a worker, [w] then being the new worker. *)
Inductive WorkerSource :=
| FromInstance (w : WorkerId)
| FromUrl (url : string) (w : WorkerId).

(** The constructor. Building a worker from a URL is taken to succeed. *)
Definition construct (source : WorkerSource) (onError onClose : bool)
    : WebWorkerTransport * list (Effect Posted) :=
  match source with
  | FromInstance w => (mkWebWorkerTransport w [] true false onError onClose, [])
  | FromUrl _ w => (mkWebWorkerTransport w [] true false onError onClose, [NewWorker w Unnamed])
  end.

(** [event.data] of a message from the worker. *)
Inductive Data :=
| DataObject (j : Json)
| DataString (s : string)
| DataOther.

(** [this.messageListener] *)
Definition messageListener (data : Data) (t : WebWorkerTransport) : list (Effect Posted) :=
  match data with
  | DataObject j =>
      if isJsonRpc j then
        forEachHandler handlerThrows "Error in LSP message handler:" (handlers t)
          (JSON_stringify j)
      else []
  | DataString s =>
      match JSON_parse s with
      | Some parsed =>
          if isJsonRpc parsed then
            forEachHandler handlerThrows "Error in LSP message handler:" (handlers t) s
          else []
      | None => []
      end
  | DataOther => []
  end.

(** [this.errorListener] *)
Definition errorListener (t : WebWorkerTransport) : list (Effect Posted) :=
  ConsoleError "WebWorker error:" :: (if onError t then [OnError] else []).

(** [private handleClose()] *)
Definition handleClose (t : WebWorkerTransport) : WebWorkerTransport :=
  mkWebWorkerTransport (worker t) [] false true (onError t) (onClose t).

(** [send(message)] *)
Definition send (message : string) (t : WebWorkerTransport)
    : Outcome unit * WebWorkerTransport * list (Effect Posted) :=
  if closed t then (Raise (JsError "Transport is closed"), t, [])
  else
    match JSON_parse message with
    | Some parsed => (Ok tt, t, [PostMessage (worker t) (PostedObject parsed) []])
    | None => (Ok tt, t, [PostMessage (worker t) (PostedString message) []])
    end.

(** [subscribe(handler)] *)
Definition subscribe (handler : Handler) (t : WebWorkerTransport) : WebWorkerTransport :=
  mkWebWorkerTransport (worker t) (setAdd handler (handlers t)) (listening t) (closed t)
    (onError t) (onClose t).

(** [unsubscribe(handler)] *)
Definition unsubscribe (handler : Handler) (t : WebWorkerTransport) : WebWorkerTransport :=
  mkWebWorkerTransport (worker t) (setDelete handler (handlers t)) (listening t) (closed t)
    (onError t) (onClose t).

(** [close()] *)
Definition close (t : WebWorkerTransport) : WebWorkerTransport * list (Effect Posted) :=
  if closed t then (t, [])
  else (handleClose t, [Terminate (worker t)]).

(** [isClosed()] *)
Definition isClosed (t : WebWorkerTransport) : bool := closed t.

(** The events of the worker the constructor listens to. The two
    removable listeners run only while attached; the ['messageerror']
    listener is never removed. *)
Inductive WorkerEvent :=
| MessageEvent (data : Data)
| ErrorEvent
| MessageErrorEvent.

Definition onEvent (ev : WorkerEvent) (t : WebWorkerTransport)
    : WebWorkerTransport * list (Effect Posted) :=
  match ev with
  | MessageEvent data => (t, if listening t then messageListener data t else [])
  | ErrorEvent => (t, if listening t then errorListener t else [])
  | MessageErrorEvent => (handleClose t, if onClose t then [OnClose] else [])
  end.

#[export] Instance transport : Transport WebWorkerTransport Posted :=
  {| Transport.send := send;
     Transport.subscribe := subscribe;
     Transport.unsubscribe := unsubscribe;
     Transport.close := close;
     Transport.isClosed := isClosed;
     Transport.subscribed := handlers |}.

(** ** Teardown *)

Lemma webWorker_teardown_law : TeardownIdempotent transport.
Proof.
  split; cbn.
  - intros t; unfold close; destruct (closed t) eqn:Hc; cbn; [exact Hc|reflexivity].
  - intros t Hc; unfold close, isClosed in *; rewrite Hc; reflexivity.
  - intros t Hc; unfold close, isClosed in *; rewrite Hc; reflexivity.
  - intros t; unfold close; destruct (closed t); cbn; lia.
  - intros t message Hc; unfold send, isClosed in *; rewrite Hc; reflexivity.
  - reflexivity.
  - reflexivity.
Qed.

(** A single [close()] terminates the one worker, once. *)
Lemma webWorker_close_terminations t :
  terminations (snd (close t)) = if closed t then [] else [worker t].
Proof. unfold close; destruct (closed t); reflexivity. Qed.

(** No call and no event of the worker reopens a closed transport. *)
Lemma webWorker_closed_onEvent ev t : closed t = true -> closed (fst (onEvent ev t)) = true.
Proof. intros Hc; destruct ev; cbn; [exact Hc|exact Hc|reflexivity]. Qed.

(** Once closed, the removable listeners are detached and a message of
    the worker reaches no handler. *)
Lemma webWorker_closed_silent data t :
  closed t = false ->
  snd (onEvent (MessageEvent data) (fst (close t))) = [].
Proof. intros Hopen; unfold close; rewrite Hopen; reflexivity. Qed.

End WebWorker.

End WebWorkerTransport.

(* ===================================================================== *)
(** * BasedPyrightTransport (services/lsp/BasedPyrightTransport.ts) *)
(* ===================================================================== *)

Module BasedPyrightTransport.
Import Js Transport.
Local Open Scope nat_scope.

Section BasedPyright.

(** [initialData] of a spawn request is opaque to the transport. *)
Context {Payload : Type}.

(** Parsed JSON values, with [JSON.parse] ([None] when it throws),
    [JSON.stringify] and the test [value.jsonrpc === '2.0']. *)
Context {Json : Type}.
Variable JSON_parse : string -> option Json.
Variable JSON_stringify : Json -> string.
Variable isJsonRpc : Json -> bool.

(** [parsed.method === 'initialize' && parsed.params], which throws
    when [parsed] is [null] ([None]), and the three assignments to
    [parsed.params] that follow it, given the Python version: the root
    URI and the workspace folders forced to [file:///workspace], and
    [initializationOptions.files] filled with the bundled typeshed files
    and the generated [pyrightconfig.json]. An assignment that throws
    gives [None]. *)
Variable isInitialize : Json -> option bool.
Variable injectInitializationOptions : string -> Json -> option Json.

(** Whether a subscribed handler throws on a message. *)
Variable handlerThrows : Handler -> string -> bool.

(** What [postMessage] is given. *)
Inductive Posted :=
| BootForeground                                   (* { type: 'browser/boot', mode: 'foreground' } *)
| BootBackground (initialData : Payload) (port : Port)
                                                   (* { type: 'browser/boot', mode: 'background', initialData, port } *)
| PostedObject (j : Json)
| PostedString (s : string).

(** The state of the [_ready] promise. *)
Inductive Ready := Pending | Resolved | Rejected.

(** The fields of the class, and of its surroundings the number the next
    constructed worker gets and the message ports this context holds. *)
Record BasedPyrightTransport := mkBasedPyrightTransport {
  foregroundWorker : option WorkerId;
  backgroundWorkers : list WorkerId;
  handlers : list Handler;
  closed : bool;
  ready : Ready;
  pythonVersion : option string;
  onError : bool;
  onClose : bool;
  nextWorker : WorkerId;
  owned : gset Port
}.

(** A promise settles once. *)
Definition settle (outcome : Ready) (r : Ready) : Ready :=
  match r with Pending => outcome | _ => r end.

(** [worker.postMessage(data, transfer)]: the ports of the transfer list
    leave this context; a port this context does not hold (it is
    detached, or listed twice) cannot be transferred and the call throws. *)
Definition postMessage (w : WorkerId) (data : Posted) (transfer : list Port)
    (t : BasedPyrightTransport)
    : Outcome unit * BasedPyrightTransport * list (Effect Posted) :=
  if bool_decide (NoDup transfer) && forallb (fun p => bool_decide (p ∈ owned t)) transfer
  then
    (Ok tt,
     mkBasedPyrightTransport (foregroundWorker t) (backgroundWorkers t) (handlers t)
       (closed t) (ready t) (pythonVersion t) (onError t) (onClose t) (nextWorker t)
       (owned t ∖ list_to_set transfer),
     [PostMessage w data transfer])
  else (Raise (JsError "DataCloneError"), t, []).

(** The constructor with [initializeWorker()]: the foreground worker is
    built and booted. The timer it starts is the event [TimerEvent].
    [new Worker] is taken to succeed, here and below; the [catch] clause
    of [initializeWorker] is for its failure only. *)
Definition construct (pythonVersion : option string) (onError onClose : bool)
    (nextWorker : WorkerId) (owned : gset Port)
    : BasedPyrightTransport * list (Effect Posted) :=
  (mkBasedPyrightTransport (Some nextWorker) [] [] false Pending pythonVersion
     onError onClose (S nextWorker) owned,
   [NewWorker nextWorker Foreground; PostMessage nextWorker BootForeground []]).

(** [private createBackgroundWorker(data)]: the worker is built and kept
    in [backgroundWorkers] before the boot message is posted; when the
    posting throws, the [catch] clause logs and the worker stays. *)
Definition createBackgroundWorker (initialData : Payload) (port : Port)
    (t : BasedPyrightTransport) : BasedPyrightTransport * list (Effect Posted) :=
  let background := nextWorker t in
  let name := Background (length (backgroundWorkers t) + 1) in
  let t1 :=
    mkBasedPyrightTransport (foregroundWorker t) (backgroundWorkers t ++ [background])
      (handlers t) (closed t) (ready t) (pythonVersion t) (onError t) (onClose t)
      (S background) (owned t) in
  match postMessage background (BootBackground initialData port) [port] t1 with
  | (Ok _, t2, out) => (t2, NewWorker background name :: out)
  | (Raise _, t2, out) =>
      (t2, NewWorker background name :: out
           ++ [ConsoleError "[BasedPyright] Failed to create background worker:"])
  end.

(** [event.data] of a message from the foreground worker: not an object
    (or [null]), a spawn request [{ type: 'browser/newWorker',
    initialData, port }], or another object. *)
Inductive Data :=
| DataPrimitive
| DataNewWorker (initialData : Payload) (port : Port)
| DataObject (j : Json).

(** [private handleMessage(event)] *)
Definition handleMessage (data : Data) (t : BasedPyrightTransport)
    : BasedPyrightTransport * list (Effect Posted) :=
  match data with
  | DataPrimitive => (t, [])
  | DataNewWorker initialData port => createBackgroundWorker initialData port t
  | DataObject j =>
      if isJsonRpc j then
        (t, forEachHandler handlerThrows "[BasedPyright] Error in LSP message handler:"
              (handlers t) (JSON_stringify j))
      else (t, [])
  end.

(** A message port that arrives in a message belongs to the receiving
    context from then on. *)
Definition receive (data : Data) (t : BasedPyrightTransport) : BasedPyrightTransport :=
  match data with
  | DataNewWorker _ port =>
      mkBasedPyrightTransport (foregroundWorker t) (backgroundWorkers t) (handlers t)
        (closed t) (ready t) (pythonVersion t) (onError t) (onClose t) (nextWorker t)
        ({[port]} ∪ owned t)
  | _ => t
  end.

(** A message the foreground worker emitted, as it reaches the
    transport: the ['message'] listener runs [handleMessage] on it. *)
Definition deliver (data : Data) (t : BasedPyrightTransport)
    : BasedPyrightTransport * list (Effect Posted) :=
  handleMessage data (receive data t).

(** The messages of the foreground worker in their order of arrival. *)
Fixpoint deliverAll (inbox : list Data) (t : BasedPyrightTransport)
    : BasedPyrightTransport * list (Effect Posted) :=
  match inbox with
  | [] => (t, [])
  | data :: rest =>
      match deliver data t with
      | (t1, out1) =>
          match deliverAll rest t1 with
          | (t2, out2) => (t2, out1 ++ out2)
          end
      end
  end.

(** The ['error'] listener of the foreground worker. *)
Definition onErrorEvent (t : BasedPyrightTransport)
    : BasedPyrightTransport * list (Effect Posted) :=
  (mkBasedPyrightTransport (foregroundWorker t) (backgroundWorkers t) (handlers t)
     (closed t) (settle Rejected (ready t)) (pythonVersion t) (onError t) (onClose t)
     (nextWorker t) (owned t),
   ConsoleError "[BasedPyright] Worker error:" :: (if onError t then [OnError] else [])).

(** The callback of [setTimeout(..., 100)]. *)
Definition onTimer (t : BasedPyrightTransport) : BasedPyrightTransport :=
  if closed t then t
  else
    mkBasedPyrightTransport (foregroundWorker t) (backgroundWorkers t) (handlers t)
      (closed t) (settle Resolved (ready t)) (pythonVersion t) (onError t) (onClose t)
      (nextWorker t) (owned t).

(** [send(message)] *)
Definition send (message : string) (t : BasedPyrightTransport)
    : Outcome unit * BasedPyrightTransport * list (Effect Posted) :=
  if closed t then (Raise (JsError "Transport is closed"), t, [])
  else
    match foregroundWorker t with
    | None => (Raise (JsError "Worker not initialized"), t, [])
    | Some fg =>
        match JSON_parse message with
        | Some parsed =>
            match isInitialize parsed with
            | Some true =>
                let version :=
                  match pythonVersion t with
                  | Some (String c v) => String c v
                  | _ => "3.12"
                  end in
                match injectInitializationOptions version parsed with
                | Some parsed' => (Ok tt, t, [PostMessage fg (PostedObject parsed') []])
                | None => (Ok tt, t, [PostMessage fg (PostedString message) []])
                end
            | Some false => (Ok tt, t, [PostMessage fg (PostedObject parsed) []])
            | None => (Ok tt, t, [PostMessage fg (PostedString message) []])
            end
        | None => (Ok tt, t, [PostMessage fg (PostedString message) []])
        end
    end.

(** [subscribe(handler)] *)
Definition subscribe (handler : Handler) (t : BasedPyrightTransport) : BasedPyrightTransport :=
  mkBasedPyrightTransport (foregroundWorker t) (backgroundWorkers t)
    (setAdd handler (handlers t)) (closed t) (ready t) (pythonVersion t) (onError t)
    (onClose t) (nextWorker t) (owned t).

(** [unsubscribe(handler)] *)
Definition unsubscribe (handler : Handler) (t : BasedPyrightTransport)
    : BasedPyrightTransport :=
  mkBasedPyrightTransport (foregroundWorker t) (backgroundWorkers t)
    (setDelete handler (handlers t)) (closed t) (ready t) (pythonVersion t) (onError t)
    (onClose t) (nextWorker t) (owned t).

(** [close()] *)
Definition close (t : BasedPyrightTransport) : BasedPyrightTransport * list (Effect Posted) :=
  if closed t then (t, [])
  else
    (mkBasedPyrightTransport None [] [] true (ready t) (pythonVersion t) (onError t)
       (onClose t) (nextWorker t) (owned t),
     match foregroundWorker t with Some fg => [Terminate fg] | None => [] end
     ++ map Terminate (backgroundWorkers t)
     ++ (if onClose t then [OnClose] else [])).

(** [isClosed()] *)
Definition isClosed (t : BasedPyrightTransport) : bool := closed t.

#[export] Instance transport : Transport BasedPyrightTransport Posted :=
  {| Transport.send := send;
     Transport.subscribe := subscribe;
     Transport.unsubscribe := unsubscribe;
     Transport.close := close;
     Transport.isClosed := isClosed;
     Transport.subscribed := handlers |}.

(** The spawn requests among the messages, in order. *)
Definition spawnRequests (inbox : list Data) : list (Payload * Port) :=
  omap (fun data =>
          match data with
          | DataNewWorker initialData port => Some (initialData, port)
          | _ => None
          end) inbox.

(** The effects on workers in a trace: constructions and postings. *)
Definition onWorkers (e : Effect Posted) : bool :=
  match e with
  | NewWorker _ _ | PostMessage _ _ _ => true
  | _ => false
  end.

(** For spawn requests [requests], the first served by a worker numbered
    [w] and named after [k + 1]: one construction and one boot message
    per request, the message carrying the payload and the port of the
    request, the port alone in the transfer list. *)
Fixpoint boots (w : WorkerId) (k : nat) (requests : list (Payload * Port))
    : list (Effect Posted) :=
  match requests with
  | [] => []
  | (initialData, port) :: rest =>
      NewWorker w (Background (k + 1))
      :: PostMessage w (BootBackground initialData port) [port]
      :: boots (S w) (S k) rest
  end.

(** The workers constructed in a trace. *)
Definition constructed (trace : list (Effect Posted)) : list WorkerId :=
  omap (fun e => match e with NewWorker w _ => Some w | _ => None end) trace.

(** The messages posted to worker [w] in a trace, with their transfer lists. *)
Definition postedTo (w : WorkerId) (trace : list (Effect Posted))
    : list (Posted * list Port) :=
  omap (fun e =>
          match e with
          | PostMessage w' data transfer =>
              if bool_decide (w' = w) then Some (data, transfer) else None
          | _ => None
          end) trace.

(** The workers a port is transferred to in a trace. *)
Definition transferredTo (port : Port) (trace : list (Effect Posted)) : list WorkerId :=
  omap (fun e =>
          match e with
          | PostMessage w _ transfer =>
              if bool_decide (port ∈ transfer) then Some w else None
          | _ => None
          end) trace.

(** The workers the transport holds. *)
Definition workers (t : BasedPyrightTransport) : list WorkerId :=
  match foregroundWorker t with Some fg => [fg] | None => [] end ++ backgroundWorkers t.

(** The workers held are distinct and were numbered by the surroundings. *)
Definition wellFormed (t : BasedPyrightTransport) : Prop :=
  NoDup (workers t) /\ Forall (fun w => w < nextWorker t) (workers t).

(** What can happen to a transport once constructed: a call by the
    client, a message or an error event of the foreground worker, the
    timer. *)
Inductive Action :=
| Called (c : Call)
| Message (data : Data)
| ErrorEvent
| TimerEvent.

Definition act (a : Action) (t : BasedPyrightTransport)
    : BasedPyrightTransport * list (Effect Posted) :=
  match a with
  | Called c => call c t
  | Message data => deliver data t
  | ErrorEvent => onErrorEvent t
  | TimerEvent => (onTimer t, [])
  end.

Fixpoint run (actions : list Action) (t : BasedPyrightTransport)
    : BasedPyrightTransport * list (Effect Posted) :=
  match actions with
  | [] => (t, [])
  | a :: rest =>
      match act a t with
      | (t1, out1) =>
          match run rest t1 with
          | (t2, out2) => (t2, out1 ++ out2)
          end
      end
  end.

(** ** Boot fan-out *)

Lemma omap_filter {A B} (f : A -> option B) (g : A -> bool) (l : list A) :
  (forall a, g a = false -> f a = None) ->
  omap f (List.filter g l) = omap f l.
Proof.
  intros Hfg; induction l as [|a l IH]; [reflexivity|].
  cbn; destruct (g a) eqn:Hg; cbn; [now rewrite IH|].
  rewrite (Hfg a Hg); exact IH.
Qed.

Lemma forEachHandler_onWorkers label hs message :
  List.filter onWorkers (forEachHandler handlerThrows label hs message) = [].
Proof.
  unfold forEachHandler; induction hs as [|h hs IH]; [reflexivity|].
  cbn; destruct (handlerThrows h message); cbn; exact IH.
Qed.

Lemma deliver_newWorker initialData port t :
  deliver (DataNewWorker initialData port) t
  = (mkBasedPyrightTransport (foregroundWorker t) (backgroundWorkers t ++ [nextWorker t])
       (handlers t) (closed t) (ready t) (pythonVersion t) (onError t) (onClose t)
       (S (nextWorker t)) (owned t ∖ {[port]}),
     [ NewWorker (nextWorker t) (Background (length (backgroundWorkers t) + 1));
       PostMessage (nextWorker t) (BootBackground initialData port) [port] ]).
Proof.
  unfold deliver, receive, handleMessage, createBackgroundWorker, postMessage; cbn.
  rewrite (bool_decide_eq_true_2 (NoDup [port])) by apply NoDup_singleton.
  rewrite (bool_decide_eq_true_2 (port ∈ {[port]} ∪ owned t)) by set_solver.
  cbn; f_equal; f_equal; set_solver.
Qed.

Lemma deliver_other data t :
  (forall initialData port, data <> DataNewWorker initialData port) ->
  fst (deliver data t) = t /\ List.filter onWorkers (snd (deliver data t)) = [].
Proof.
  intros Hother; destruct data as [|d p|j]; cbn.
  - split; reflexivity.
  - exfalso; exact (Hother d p eq_refl).
  - unfold deliver, handleMessage; cbn; destruct (isJsonRpc j); cbn;
      split; try reflexivity; apply forEachHandler_onWorkers.
Qed.

Lemma deliverAll_trace inbox : forall t,
  List.filter onWorkers (snd (deliverAll inbox t))
  = boots (nextWorker t) (length (backgroundWorkers t)) (spawnRequests inbox)
  /\ backgroundWorkers (fst (deliverAll inbox t))
     = backgroundWorkers t ++ seq (nextWorker t) (length (spawnRequests inbox))
  /\ owned (fst (deliverAll inbox t))
     = owned t ∖ list_to_set (map snd (spawnRequests inbox)).
Proof.
  induction inbox as [|data rest IH]; intros t.
  - cbn; repeat split; [now rewrite app_nil_r | set_solver].
  - cbn [deliverAll].
    destruct data as [|d p|j].
    + destruct (deliver_other DataPrimitive t) as [Hst Htr]; [discriminate|].
      destruct (deliver DataPrimitive t) as [t1 out1]; cbn in Hst, Htr; subst t1.
      specialize (IH t); destruct (deliverAll rest t) as [t2 out2]; cbn in *.
      rewrite List.filter_app, Htr; exact IH.
    + rewrite deliver_newWorker.
      match goal with |- context [deliverAll rest ?t1] => specialize (IH t1) end.
      cbn [nextWorker backgroundWorkers owned] in IH.
      match goal with |- context [deliverAll rest ?t1] =>
        destruct (deliverAll rest t1) as [t2 out2] end.
      cbn [fst snd] in *; destruct IH as (Htr & Hbg & Hown).
      cbn; rewrite Htr, Hbg, Hown, length_app, <- app_assoc; cbn.
      replace (length (backgroundWorkers t) + 1)%nat with (S (length (backgroundWorkers t)))
        by lia.
      repeat split; set_solver.
    + destruct (deliver_other (DataObject j) t) as [Hst Htr]; [discriminate|].
      destruct (deliver (DataObject j) t) as [t1 out1]; cbn in Hst, Htr; subst t1.
      specialize (IH t); destruct (deliverAll rest t) as [t2 out2]; cbn in *.
      rewrite List.filter_app, Htr; exact IH.
Qed.

Lemma map_add_seq (w a n : nat) : map (fun i => w + i) (seq a n) = seq (w + a) n.
Proof.
  revert a; induction n as [|n IH]; intros a; [reflexivity|].
  cbn; f_equal; rewrite IH; f_equal; lia.
Qed.

Lemma constructed_boots w k requests :
  constructed (boots w k requests) = seq w (length requests).
Proof.
  revert w k; induction requests as [|[d p] rest IH]; intros w k; [reflexivity|].
  cbn; f_equal; apply IH.
Qed.

Lemma postedTo_NewWorker w' w name trace :
  postedTo w' (NewWorker w name :: trace) = postedTo w' trace.
Proof. reflexivity. Qed.

Lemma postedTo_PostMessage w' w data transfer trace :
  postedTo w' (PostMessage w data transfer :: trace)
  = if bool_decide (w = w') then (data, transfer) :: postedTo w' trace
    else postedTo w' trace.
Proof. unfold postedTo; cbn; destruct (bool_decide (w = w')); reflexivity. Qed.

Lemma transferredTo_NewWorker port w name trace :
  transferredTo port (NewWorker w name :: trace) = transferredTo port trace.
Proof. reflexivity. Qed.

Lemma transferredTo_PostMessage port w data transfer trace :
  transferredTo port (PostMessage w data transfer :: trace)
  = if bool_decide (port ∈ transfer) then w :: transferredTo port trace
    else transferredTo port trace.
Proof. unfold transferredTo; cbn; destruct (bool_decide (port ∈ transfer)); reflexivity. Qed.

Lemma postedTo_boots_below w' w k requests :
  w' < w -> postedTo w' (boots w k requests) = [].
Proof.
  revert w k; induction requests as [|[d p] rest IH]; intros w k Hlt; [reflexivity|].
  cbn [boots]; rewrite postedTo_NewWorker, postedTo_PostMessage.
  rewrite bool_decide_eq_false_2 by lia; apply IH; lia.
Qed.

Lemma postedTo_boots_above w' w k requests :
  w + length requests <= w' -> postedTo w' (boots w k requests) = [].
Proof.
  revert w k; induction requests as [|[d p] rest IH]; intros w k Hge; [reflexivity|].
  cbn [boots]; rewrite postedTo_NewWorker, postedTo_PostMessage.
  cbn [length] in Hge; rewrite bool_decide_eq_false_2 by lia; apply IH; lia.
Qed.

Lemma postedTo_boots w k requests : forall i d p,
  requests !! i = Some (d, p) ->
  postedTo (w + i) (boots w k requests) = [(BootBackground d p, [p])].
Proof.
  revert w k; induction requests as [|[d0 p0] rest IH]; intros w k i d p Hi.
  - destruct i; discriminate Hi.
  - cbn [boots]; rewrite postedTo_NewWorker, postedTo_PostMessage.
    destruct i as [|j]; cbn in Hi.
    + injection Hi as -> ->.
      rewrite bool_decide_eq_true_2 by lia.
      rewrite postedTo_boots_below by lia; reflexivity.
    + rewrite bool_decide_eq_false_2 by lia.
      replace (w + S j) with (S w + j) by lia; apply IH; exact Hi.
Qed.

Lemma transferredTo_boots_absent port w k requests :
  port ∉ map snd requests -> transferredTo port (boots w k requests) = [].
Proof.
  revert w k; induction requests as [|[d p] rest IH]; intros w k Hnot; [reflexivity|].
  cbn [boots]; rewrite transferredTo_NewWorker, transferredTo_PostMessage.
  cbn in Hnot; rewrite bool_decide_eq_false_2 by set_solver.
  apply IH; set_solver.
Qed.

Lemma transferredTo_boots w k requests : forall i d p,
  NoDup (map snd requests) ->
  requests !! i = Some (d, p) ->
  transferredTo p (boots w k requests) = [w + i].
Proof.
  revert w k; induction requests as [|[d0 p0] rest IH]; intros w k i d p Hnd Hi.
  - destruct i; discriminate Hi.
  - cbn in Hnd; apply NoDup_cons in Hnd as [Hhead Hnd].
    cbn [boots]; rewrite transferredTo_NewWorker, transferredTo_PostMessage.
    destruct i as [|j]; cbn in Hi.
    + injection Hi as -> ->.
      rewrite bool_decide_eq_true_2 by set_solver.
      rewrite transferredTo_boots_absent by exact Hhead.
      f_equal; lia.
    + assert (Hin : p ∈ map snd rest).
      { apply list_elem_of_lookup_2 in Hi.
        apply (list_elem_of_fmap_2 snd) in Hi; exact Hi. }
      rewrite bool_decide_eq_false_2 by set_solver.
      replace (w + S j) with (S w + j) by lia; apply (IH _ _ _ d); assumption.
Qed.

(** C9. Whatever the transport and whatever the messages the foreground
    worker emits, if [N] of them are spawn requests then, in the order of
    the requests: exactly [N] workers are constructed, all of them kept in
    [backgroundWorkers]; the worker constructed for a request is posted
    exactly one message, the boot message of mode background with the
    payload and the port of that request, and the transfer list of that
    message is the port alone; nothing else is constructed or posted.
    After the transfer the transport no longer holds the port, and when
    the ports of the requests are distinct each one is transferred to
    exactly one worker, the one constructed for its request. *)
Theorem boot_fan_out (t : BasedPyrightTransport) (inbox : list Data) :
  let requests := spawnRequests inbox in
  let t' := fst (deliverAll inbox t) in
  let trace := snd (deliverAll inbox t) in
  let satellite := fun i : nat => (nextWorker t + i)%nat in
  List.filter onWorkers trace
  = boots (nextWorker t) (length (backgroundWorkers t)) requests
  /\ constructed trace = map satellite (seq 0 (length requests))
  /\ backgroundWorkers t' = backgroundWorkers t ++ map satellite (seq 0 (length requests))
  /\ (forall i d p,
        requests !! i = Some (d, p) ->
        postedTo (satellite i) trace = [(BootBackground d p, [p])]
        /\ p ∉ owned t')
  /\ (forall w, w ∉ map satellite (seq 0 (length requests)) -> postedTo w trace = [])
  /\ (NoDup (map snd requests) ->
      forall i d p,
        requests !! i = Some (d, p) -> transferredTo p trace = [satellite i]).
Proof.
  intros requests t' trace satellite.
  destruct (deliverAll_trace inbox t) as (Htr & Hbg & Hown).
  fold trace in Htr; fold t' in Hbg, Hown; fold requests in Htr, Hbg, Hown.
  assert (Hseq : map satellite (seq 0 (length requests))
                 = seq (nextWorker t) (length requests)).
  { unfold satellite; rewrite map_add_seq; f_equal; lia. }
  assert (Hposted : forall w, postedTo w trace = postedTo w (List.filter onWorkers trace)).
  { intros w; symmetry; apply omap_filter; intros [] Hf; try reflexivity; discriminate Hf. }
  split; [exact Htr|]; split; [|split; [|split; [|split]]].
  - rewrite Hseq, <- (constructed_boots (nextWorker t) (length (backgroundWorkers t))),
      <- Htr.
    unfold constructed; symmetry; apply omap_filter.
    intros [] Hf; try reflexivity; discriminate Hf.
  - rewrite Hseq; exact Hbg.
  - intros i d p Hi; split.
    + rewrite Hposted, Htr; apply postedTo_boots; exact Hi.
    + rewrite Hown; apply list_elem_of_lookup_2 in Hi.
      apply list_elem_of_fmap_2 with (f := snd) in Hi; cbn in Hi; set_solver.
  - intros w Hw; rewrite Hposted, Htr.
    rewrite Hseq, elem_of_seq in Hw.
    destruct (Nat.lt_ge_cases w (nextWorker t)) as [Hlt|Hge].
    + apply postedTo_boots_below; exact Hlt.
    + apply postedTo_boots_above; lia.
  - intros Hnd i d p Hi.
    assert (Htrans : transferredTo p trace = transferredTo p (List.filter onWorkers trace)).
    { symmetry; apply omap_filter; intros [] Hf; try reflexivity; discriminate Hf. }
    rewrite Htrans, Htr; apply (transferredTo_boots _ _ _ _ d); assumption.
Qed.

(** ** Teardown *)

Lemma filter_isOnClose_Terminate (ws : list WorkerId) :
  List.filter isOnClose (map (@Terminate Posted) ws) = [].
Proof. induction ws as [|w ws IH]; [reflexivity|exact IH]. Qed.

Lemma terminations_Terminate (ws : list WorkerId) :
  terminations (map (@Terminate Posted) ws) = ws.
Proof. induction ws as [|w ws IH]; [reflexivity|]. cbn; f_equal; exact IH. Qed.

Lemma basedPyright_teardown_law : TeardownIdempotent transport.
Proof.
  split; cbn.
  - intros t; unfold close; destruct (closed t) eqn:Hc; cbn; [exact Hc|reflexivity].
  - intros t Hc; unfold close, isClosed in *; rewrite Hc; reflexivity.
  - intros t Hc; unfold close, isClosed in *; rewrite Hc; reflexivity.
  - intros t; unfold close, closeCallbacks; destruct (closed t); cbn; [lia|].
    rewrite !List.filter_app, filter_isOnClose_Terminate.
    destruct (foregroundWorker t), (onClose t); cbn; lia.
  - intros t message Hc; unfold send, isClosed in *; rewrite Hc; reflexivity.
  - reflexivity.
  - reflexivity.
Qed.

(** A single [close()] terminates the workers held, each once. *)
Lemma basedPyright_close_terminations t :
  terminations (snd (close t)) = if closed t then [] else workers t.
Proof.
  unfold close, workers, terminations; destruct (closed t); [reflexivity|].
  cbn [snd]; rewrite !omap_app.
  change (omap terminated (map Terminate (backgroundWorkers t)))
    with (terminations (map (@Terminate Posted) (backgroundWorkers t))).
  rewrite terminations_Terminate.
  destruct (foregroundWorker t), (onClose t); cbn; rewrite ?app_nil_r; reflexivity.
Qed.

Lemma wellFormed_construct version onError' onClose' next owned' :
  wellFormed (fst (construct version onError' onClose' next owned')).
Proof.
  split; cbn.
  - apply NoDup_singleton.
  - repeat constructor.
Qed.

Lemma wellFormed_act a t : wellFormed t -> wellFormed (fst (act a t)).
Proof.
  intros [Hnd Hlt]; destruct a as [c|data| |]; cbn.
  - destruct c as [message|h|h|]; cbn.
    + unfold send; destruct (closed t); [split; assumption|].
      destruct (foregroundWorker t) eqn:Hfg; [|split; assumption].
      destruct (JSON_parse message) as [parsed|]; [|split; assumption].
      destruct (isInitialize parsed) as [[|]|]; [|split; assumption..].
      destruct (injectInitializationOptions _ parsed); split; assumption.
    + split; assumption.
    + split; assumption.
    + unfold close; destruct (closed t); [split; assumption|].
      split; cbn; constructor.
  - destruct data as [|d p|j].
    + split; assumption.
    + rewrite deliver_newWorker; unfold wellFormed, workers in *; cbn.
      rewrite app_assoc; split.
      * apply NoDup_app; split; [exact Hnd|split; [|apply NoDup_singleton]].
        intros w Hw Hin; apply list_elem_of_singleton in Hin; subst w.
        rewrite Forall_forall in Hlt; specialize (Hlt _ Hw); lia.
      * apply Forall_app; split; [|repeat constructor].
        eapply Forall_impl; [exact Hlt|]; cbn; intros; lia.
    + unfold deliver, handleMessage; cbn; destruct (isJsonRpc j); split; assumption.
  - split; assumption.
  - unfold onTimer; destruct (closed t); split; assumption.
Qed.

Lemma wellFormed_run actions : forall t, wellFormed t -> wellFormed (fst (run actions t)).
Proof.
  induction actions as [|a rest IH]; intros t Hwf; [exact Hwf|].
  cbn; pose proof (wellFormed_act a t Hwf) as H1.
  destruct (act a t) as [t1 out1]; cbn in H1.
  specialize (IH t1 H1); destruct (run rest t1) as [t2 out2]; exact IH.
Qed.

(** No call and no event reopens a closed transport, so that [send]
    keeps throwing whatever happens after [close()]. *)
Lemma basedPyright_closed_act a t : closed t = true -> closed (fst (act a t)) = true.
Proof.
  intros Hc; destruct a as [c|data| |]; cbn.
  - apply (call_closed basedPyright_teardown_law c t Hc).
  - destruct data as [|d p|j]; [exact Hc| |].
    + rewrite deliver_newWorker; exact Hc.
    + unfold deliver, handleMessage; cbn; destruct (isJsonRpc j); exact Hc.
  - exact Hc.
  - unfold onTimer; rewrite Hc; exact Hc.
Qed.

Lemma basedPyright_closed_run actions : forall t message,
  closed t = true ->
  send message (fst (run actions t))
  = (Raise (JsError "Transport is closed"), fst (run actions t), []).
Proof.
  induction actions as [|a rest IH]; intros t message Hc.
  - cbn; unfold send; rewrite Hc; reflexivity.
  - cbn; pose proof (basedPyright_closed_act a t Hc) as H1.
    destruct (act a t) as [t1 out1]; cbn in H1.
    specialize (IH t1 message H1); destruct (run rest t1) as [t2 out2]; exact IH.
Qed.

(** The messages of the foreground worker among the actions. *)
Definition messagesOf (actions : list Action) : list Data :=
  omap (fun a => match a with Message data => Some data | _ => None end) actions.

(** A trace without effects on workers constructs none and posts nothing. *)
Lemma quiet_trace trace :
  List.filter onWorkers trace = [] ->
  constructed trace = [] /\ forall w, postedTo w trace = [].
Proof.
  intros Hq; split; [|intros w].
  - unfold constructed; rewrite <- (omap_filter _ onWorkers trace);
      [rewrite Hq; reflexivity|].
    intros [] Hf; try reflexivity; discriminate Hf.
  - unfold postedTo; rewrite <- (omap_filter _ onWorkers trace);
      [rewrite Hq; reflexivity|].
    intros [] Hf; try reflexivity; discriminate Hf.
Qed.

Lemma close_quiet t : List.filter onWorkers (snd (close t)) = [].
Proof.
  unfold close; destruct (closed t); [reflexivity|]; cbn [snd].
  rewrite !List.filter_app.
  assert (Hbg : List.filter onWorkers (map (@Terminate Posted) (backgroundWorkers t)) = []).
  { induction (backgroundWorkers t) as [|w ws IHw]; [reflexivity|exact IHw]. }
  rewrite Hbg; destruct (foregroundWorker t), (onClose t); reflexivity.
Qed.

(** [send] posts to the foreground worker, if it posts. *)
Lemma send_posts message t :
  snd (fst (send message t)) = t
  /\ constructed (snd (send message t)) = []
  /\ forall w, postedTo w (snd (send message t)) <> [] -> foregroundWorker t = Some w.
Proof.
  unfold send; destruct (closed t); [repeat split; intros w H; contradiction|].
  destruct (foregroundWorker t) as [fg|]; [|repeat split; intros w H; contradiction].
  assert (Hone : forall data w,
             postedTo w [PostMessage fg data []] <> [] -> Some fg = Some w).
  { intros data w H; rewrite postedTo_PostMessage in H.
    destruct (bool_decide (fg = w)) eqn:Hd; [|contradiction].
    apply bool_decide_eq_true_1 in Hd; subst; reflexivity. }
  destruct (JSON_parse message) as [parsed|];
    [destruct (isInitialize parsed) as [[|]|];
     [destruct (injectInitializationOptions _ parsed)| |]|];
    cbn; repeat split; apply Hone.
Qed.

(** What an action does to workers: a spawn request builds and boots the
    next worker; any other action builds none and posts, if at all, to
    the foreground worker only. *)
Lemma act_workers a t :
  match a with
  | Message (DataNewWorker d p) =>
      constructed (snd (act a t)) = [nextWorker t]
      /\ (forall w,
           postedTo w (snd (act a t))
           = if bool_decide (nextWorker t = w) then [(BootBackground d p, [p])] else [])
      /\ nextWorker (fst (act a t)) = S (nextWorker t)
      /\ foregroundWorker (fst (act a t)) = foregroundWorker t
  | _ =>
      constructed (snd (act a t)) = []
      /\ (forall w, postedTo w (snd (act a t)) <> [] -> foregroundWorker t = Some w)
      /\ nextWorker (fst (act a t)) = nextWorker t
      /\ (foregroundWorker (fst (act a t)) = foregroundWorker t
          \/ foregroundWorker (fst (act a t)) = None)
  end.
Proof.
  assert (Hquiet : forall (t1 : BasedPyrightTransport) out,
             List.filter onWorkers out = [] ->
             constructed out = []
             /\ (forall w, postedTo w out <> [] -> foregroundWorker t = Some w)).
  { intros t1 out Hq; destruct (quiet_trace out Hq) as [Hc Hp]; split; [exact Hc|].
    intros w H; rewrite Hp in H; contradiction. }
  destruct a as [c|data| |].
  - destruct c as [message|h|h|]; cbn.
    + destruct (send_posts message t) as (Hst & Hc & Hp).
      destruct (send message t) as [[o t1] out]; cbn in *; subst t1; auto.
    + repeat split; auto; intros w H; contradiction.
    + repeat split; auto; intros w H; contradiction.
    + destruct (Hquiet t _ (close_quiet t)) as [Hc Hp].
      split; [exact Hc|split; [exact Hp|]].
      unfold close; destruct (closed t); cbn; auto.
  - destruct data as [|d p|j].
    + cbn; repeat split; auto; intros w H; contradiction.
    + cbn [act]; rewrite deliver_newWorker; cbn [fst snd nextWorker foregroundWorker].
      repeat split; intros w; rewrite postedTo_NewWorker, postedTo_PostMessage.
      destruct (bool_decide (nextWorker t = w)); reflexivity.
    + cbn [act]; destruct (deliver_other (DataObject j) t) as [Hst Htr]; [discriminate|].
      destruct (Hquiet t _ Htr) as [Hc Hp]; rewrite Hst; auto.
  - cbn [act]; destruct (Hquiet t (snd (onErrorEvent t))) as [Hc Hp];
      [cbn; destruct (onError t); reflexivity|].
    split; [exact Hc|split; [exact Hp|split; [reflexivity|left; reflexivity]]].
  - cbn; unfold onTimer; destruct (closed t); repeat split; auto;
      intros w H; contradiction.
Qed.

(** The trace of a run from [t] serves the spawn requests [requests]:
    the workers constructed are the next ones, one per request; what is
    posted to an earlier worker goes to the foreground worker; and the
    worker of a request is posted the boot message of the request and
    nothing else. *)
Definition fanOut (t : BasedPyrightTransport) (trace : list (Effect Posted))
    (requests : list (Payload * Port)) : Prop :=
  constructed trace = seq (nextWorker t) (length requests)
  /\ (forall w,
       w < nextWorker t -> postedTo w trace <> [] -> foregroundWorker t = Some w)
  /\ forall i d p,
       requests !! i = Some (d, p) ->
       postedTo (nextWorker t + i) trace = [(BootBackground d p, [p])].

Lemma fanOut_other t t1 out1 out2 requests :
  (forall fg, foregroundWorker t = Some fg -> fg < nextWorker t) ->
  constructed out1 = [] ->
  (forall w, postedTo w out1 <> [] -> foregroundWorker t = Some w) ->
  nextWorker t1 = nextWorker t ->
  foregroundWorker t1 = foregroundWorker t \/ foregroundWorker t1 = None ->
  fanOut t1 out2 requests ->
  fanOut t (out1 ++ out2) requests.
Proof.
  intros Hfg Hc1 Hp1 Hnext Hfg1 (IHc & IHlow & IHp); rewrite Hnext in *.
  assert (Hpost : forall w, postedTo w (out1 ++ out2) = postedTo w out1 ++ postedTo w out2)
    by (intros w; apply omap_app).
  split; [|split].
  - unfold constructed in *; rewrite omap_app, Hc1; exact IHc.
  - intros w Hw Hne; rewrite Hpost in Hne.
    destruct (postedTo w out1) as [|x l] eqn:Hq1.
    + pose proof (IHlow w Hw Hne) as Hw1.
      destruct Hfg1 as [Hfg1|Hfg1]; rewrite Hfg1 in Hw1; [exact Hw1|discriminate Hw1].
    + apply Hp1; rewrite Hq1; discriminate.
  - intros i d p Hi; rewrite Hpost.
    destruct (postedTo (nextWorker t + i) out1) as [|x l] eqn:Hq1.
    + apply IHp; exact Hi.
    + exfalso.
      assert (Hw1 : foregroundWorker t = Some (nextWorker t + i))
        by (apply Hp1; rewrite Hq1; discriminate).
      pose proof (Hfg _ Hw1); lia.
Qed.

Lemma fanOut_spawn t t1 out1 out2 d p requests :
  (forall fg, foregroundWorker t = Some fg -> fg < nextWorker t) ->
  constructed out1 = [nextWorker t] ->
  (forall w,
      postedTo w out1
      = if bool_decide (nextWorker t = w) then [(BootBackground d p, [p])] else []) ->
  nextWorker t1 = S (nextWorker t) ->
  foregroundWorker t1 = foregroundWorker t ->
  fanOut t1 out2 requests ->
  fanOut t (out1 ++ out2) ((d, p) :: requests).
Proof.
  intros Hfg Hc1 Hp1 Hnext Hfg1 (IHc & IHlow & IHp); rewrite Hnext, Hfg1 in *.
  assert (Hpost : forall w, postedTo w (out1 ++ out2) = postedTo w out1 ++ postedTo w out2)
    by (intros w; apply omap_app).
  split; [|split].
  - unfold constructed in *; rewrite omap_app, Hc1; cbn; f_equal; exact IHc.
  - intros w Hw Hne; rewrite Hpost, Hp1 in Hne.
    rewrite bool_decide_eq_false_2 in Hne by lia.
    apply (IHlow w); [lia|exact Hne].
  - intros i d' p' Hi; rewrite Hpost, Hp1.
    destruct i as [|k]; cbn in Hi.
    + injection Hi as <- <-; rewrite Nat.add_0_r, bool_decide_eq_true_2 by reflexivity.
      cbn; f_equal.
      destruct (postedTo (nextWorker t) out2) as [|x l] eqn:Hq; [reflexivity|exfalso].
      assert (Hw1 : foregroundWorker t = Some (nextWorker t))
        by (apply IHlow; [lia|rewrite Hq; discriminate]).
      pose proof (Hfg _ Hw1); lia.
    + rewrite bool_decide_eq_false_2 by lia.
      replace (nextWorker t + S k) with (S (nextWorker t) + k) by lia.
      cbn; apply IHp; exact Hi.
Qed.

(** Boot fan-out with the client's calls, error events and the timer in
    between the messages: when the foreground worker is an earlier
    worker than those to come, the workers constructed are those of the
    spawn requests, and each is posted its boot message and nothing else. *)
Lemma boot_fan_out_interleaved actions : forall t,
  (forall fg, foregroundWorker t = Some fg -> fg < nextWorker t) ->
  fanOut t (snd (run actions t)) (spawnRequests (messagesOf actions)).
Proof.
  induction actions as [|a rest IH]; intros t Hfg.
  - cbn; repeat split; [intros w _ H; contradiction|intros i d p H; discriminate H].
  - cbn [run]; pose proof (act_workers a t) as Ha.
    destruct (act a t) as [t1 out1]; cbn [fst snd] in Ha.
    specialize (IH t1); destruct (run rest t1) as [t2 out2]; cbn [fst snd] in *.
    assert (Hother : forall requests,
               constructed out1 = []
               /\ (forall w, postedTo w out1 <> [] -> foregroundWorker t = Some w)
               /\ nextWorker t1 = nextWorker t
               /\ (foregroundWorker t1 = foregroundWorker t \/ foregroundWorker t1 = None) ->
               requests = spawnRequests (messagesOf rest) ->
               fanOut t (out1 ++ out2) requests).
    { intros requests (Hc1 & Hp1 & Hnext & Hfg1) ->.
      apply (fanOut_other t t1); try assumption.
      apply IH; intros fg' Hfg'; rewrite Hnext.
      destruct Hfg1 as [Hfg1|Hfg1]; rewrite Hfg1 in Hfg';
        [apply Hfg; exact Hfg'|discriminate Hfg']. }
    destruct a as [c|[|d p|j]| |]; try (apply Hother; [exact Ha|reflexivity]).
    destruct Ha as (Hc1 & Hp1 & Hnext & Hfg1).
    change (spawnRequests (messagesOf (Message (DataNewWorker d p) :: rest)))
      with ((d, p) :: spawnRequests (messagesOf rest)).
    apply (fanOut_spawn t t1); try assumption.
    apply IH; intros fg' Hfg'; rewrite Hnext; rewrite Hfg1 in Hfg'.
    pose proof (Hfg fg' Hfg'); lia.
Qed.

End BasedPyright.

End BasedPyrightTransport.

(* ===================================================================== *)
(** * Teardown of both transports, and sample runs *)
(* ===================================================================== *)

Module Teardown.
Import Js Transport.
Local Open Scope nat_scope.

(** ** Sample transports *)

(** JSON texts stand for their own parsed values here. *)
Definition parseSample (s : string) : option string := Some s.
Definition notInitialize (j : string) : option bool := Some false.
Definition injectSample (version : string) (j : string) : option string := Some j.
Definition jsonRpcSample (j : string) : bool := true.
Definition quietHandlers (h : Handler) (message : string) : bool := false.

(** A [WebWorkerTransport] on worker 0 with one handler subscribed. *)
Definition webWorkerSample : WebWorkerTransport.WebWorkerTransport :=
  WebWorkerTransport.subscribe 5
    (fst (@WebWorkerTransport.construct string (WebWorkerTransport.FromInstance 0) true true)).

(** A [BasedPyrightTransport] just constructed, its foreground worker
    numbered 0. *)
Definition basedPyrightSample : BasedPyrightTransport.BasedPyrightTransport :=
  fst (@BasedPyrightTransport.construct string string None true true 0 ∅).

(** Spawn requests for ports 7 and 9 around a protocol message. *)
Definition sampleInbox : list (@BasedPyrightTransport.Data string string) :=
  [ BasedPyrightTransport.DataNewWorker "a" 7;
    BasedPyrightTransport.DataObject "{}";
    BasedPyrightTransport.DataNewWorker "b" 9 ].

Section BothTransports.

Context {Payload Json : Type}.
Variable JSON_parse : string -> option Json.
Variable isInitialize : Json -> option bool.
Variable injectInitializationOptions : string -> Json -> option Json.

(** C5. For a [WebWorkerTransport] and for a [BasedPyrightTransport]
    alike: [close()] called again any number of times returns normally
    and does nothing more than the first call did, so no further
    termination and no further close callback; the first call invokes the
    close callback at most once and terminates no worker twice (for a
    [BasedPyrightTransport], one whose workers are distinct, as they are
    in every transport reached from the constructor); after it the
    transport is closed with no handler subscribed (and, for a
    [WebWorkerTransport], its message and error listeners detached), and
    whatever the client calls afterwards, every [send] throws
    "Transport is closed" and does nothing. *)
Theorem close_idempotent :
  (forall (t : WebWorkerTransport.WebWorkerTransport) n later message,
      @teardown _ _ (WebWorkerTransport.transport JSON_parse) t n later message
      /\ NoDup (terminations (snd (@WebWorkerTransport.close Json t)))
      /\ (WebWorkerTransport.closed t = false ->
          WebWorkerTransport.listening (fst (@WebWorkerTransport.close Json t)) = false))
  /\ (forall (t : BasedPyrightTransport.BasedPyrightTransport) n later message,
      @teardown _ _
        (@BasedPyrightTransport.transport Payload Json JSON_parse isInitialize
           injectInitializationOptions) t n later message
      /\ (BasedPyrightTransport.wellFormed t ->
          NoDup (terminations (snd (@BasedPyrightTransport.close Payload Json t))))).
Proof.
  split.
  - intros t n later message; split; [|split].
    + apply teardown_of_law, WebWorkerTransport.webWorker_teardown_law.
    + rewrite WebWorkerTransport.webWorker_close_terminations.
      destruct (WebWorkerTransport.closed t); [apply NoDup_nil_2|apply NoDup_singleton].
    + intros Hopen; unfold WebWorkerTransport.close; rewrite Hopen; reflexivity.
  - intros t n later message; split.
    + apply teardown_of_law, BasedPyrightTransport.basedPyright_teardown_law.
    + intros [Hnd _]; rewrite BasedPyrightTransport.basedPyright_close_terminations.
      destruct (BasedPyrightTransport.closed t); [apply NoDup_nil_2|exact Hnd].
Qed.

End BothTransports.

Example sample_boot_trace :
  snd (BasedPyrightTransport.deliverAll id jsonRpcSample quietHandlers sampleInbox
         (BasedPyrightTransport.subscribe 5 basedPyrightSample))
  = [ NewWorker 1 (Background 1);
      PostMessage 1 (BasedPyrightTransport.BootBackground "a" 7) [7];
      HandlerCall 5 "{}";
      NewWorker 2 (Background 2);
      PostMessage 2 (BasedPyrightTransport.BootBackground "b" 9) [9] ].
Proof. vm_compute; reflexivity. Qed.

Example sample_close_trace :
  snd (@BasedPyrightTransport.close string string
         (fst (BasedPyrightTransport.deliverAll id jsonRpcSample quietHandlers sampleInbox
                 basedPyrightSample)))
  = [Terminate 0; Terminate 1; Terminate 2; OnClose].
Proof. vm_compute; reflexivity. Qed.

Lemma close_idempotent_witness :
  @subscribed _ _ (WebWorkerTransport.transport parseSample)
    (fst (@close _ _ (WebWorkerTransport.transport parseSample) webWorkerSample)) = []
  /\ NoDup (terminations
              (snd (@BasedPyrightTransport.close string string basedPyrightSample))).
Proof.
  split.
  - destruct (proj1 (@close_idempotent string string parseSample notInitialize injectSample)
                webWorkerSample 1 [] "") as [(_ & _ & _ & _ & Hsub & _) _].
    apply Hsub; reflexivity.
  - destruct (proj2 (@close_idempotent string string parseSample notInitialize injectSample)
                basedPyrightSample 1 [] "") as [_ Hnd].
    apply Hnd, BasedPyrightTransport.wellFormed_construct.
Defined.

Lemma boot_fan_out_witness :
  BasedPyrightTransport.transferredTo 9
    (snd (BasedPyrightTransport.deliverAll id jsonRpcSample quietHandlers sampleInbox
            basedPyrightSample))
  = [2]
  /\ BasedPyrightTransport.postedTo 2
       (snd (BasedPyrightTransport.deliverAll id jsonRpcSample quietHandlers sampleInbox
               basedPyrightSample))
     = [(BasedPyrightTransport.BootBackground "b" 9, [9])].
Proof.
  pose proof (BasedPyrightTransport.boot_fan_out id jsonRpcSample quietHandlers
                basedPyrightSample sampleInbox) as (_ & _ & _ & Hposted & _ & Hdistinct).
  split.
  - apply (Hdistinct ltac:(repeat constructor; set_solver) 1 "b" 9 eq_refl).
  - apply (Hposted 1 "b" 9 eq_refl).
Defined.

End Teardown.

(* ===================================================================== *)
(** * More on the ty worker: responses, documents, formatting *)
(* ===================================================================== *)

Module TyWorkerProperties.
Import Position Uri Js TyWorker.

(** The messages posted in a trace of the worker. *)
Definition posted (out : list Effect) : list Outgoing :=
  omap (fun e => match e with PostMessage m => Some m | _ => None end) out.

(** The methods the worker handles without sending a result. *)
Definition silent (m : Method) : bool :=
  match m with
  | DidOpen | DidChange | DidClose | Exit => true
  | _ => false
  end.

(** A posted message belongs to the request: a response or an error
    response with the id of the request, or the log notification that
    answers [initialized]. *)
Definition answersTo (request : LSPRequest) (m : Outgoing) : Prop :=
  match m with
  | Response i _ => i = id request
  | ErrorResponse i _ _ => i = id request
  | Notification _ _ _ => method request = "initialized"
  | WorkerReady => False
  end.

(** The position just past the last character of a text, counted from
    [line] and [column] by reading the text once: a line feed starts the
    next line. *)
Fixpoint endOfText (text : string) (line column : nat) : nat * nat :=
  match text with
  | EmptyString => (line, column)
  | String c t =>
      if Ascii.eqb c "010"%char then endOfText t (S line) 0
      else endOfText t line (S column)
  end.

Lemma splitLines_nonempty text : splitLines text <> [].
Proof.
  destruct text as [|c t]; cbn; [discriminate|].
  destruct (Ascii.eqb c "010"); [discriminate|].
  destruct (splitLines t); discriminate.
Qed.

Lemma endOfText_splitLines text : forall line column,
  endOfText text line column
  = match splitLines text with
    | [] => (line, column)
    | [l] => (line, (column + String.length l)%nat)
    | _ :: ls => ((line + length ls)%nat, String.length (List.last ls EmptyString))
    end.
Proof.
  induction text as [|c t IH]; intros line column; cbn [endOfText splitLines].
  - cbn; f_equal; lia.
  - destruct (Ascii.eqb c "010").
    + rewrite IH; pose proof (splitLines_nonempty t) as Hne.
      destruct (splitLines t) as [|l [|l' ls]]; [contradiction| |].
      * cbn; f_equal; lia.
      * f_equal; cbn [length]; lia.
    + rewrite IH; pose proof (splitLines_nonempty t) as Hne.
      destruct (splitLines t) as [|l [|l' ls]]; [contradiction| |].
      * cbn; f_equal; lia.
      * reflexivity.
Qed.

Lemma nth_length_last {A} (l : list A) (a d : A) : nth (length l) (a :: l) d = List.last (a :: l) d.
Proof.
  revert a; induction l as [|b l IH]; intros a; [reflexivity|].
  change (nth (length l) (b :: l) d = List.last (b :: l) d); apply IH.
Qed.

(** The whole-document range of the formatting edit ends at the position
    just past the last character of the text. *)
Lemma fullRange_endOfText text :
  fullRange text
  = mkLSPRange (mkLSPPosition 0 0)
      (mkLSPPosition (Z.of_nat (fst (endOfText text 0 0)))
                     (Z.of_nat (snd (endOfText text 0 0)))).
Proof.
  unfold fullRange; rewrite endOfText_splitLines.
  pose proof (splitLines_nonempty text) as Hne.
  destruct (splitLines text) as [|l ls]; [contradiction|].
  replace (length (l :: ls) - 1)%nat with (length ls) by (cbn; lia).
  rewrite nth_length_last.
  destruct ls as [|l' ls]; reflexivity.
Qed.

Section Properties.

Context {Workspace FileHandle : Type}.
Variable engine : @Engine Workspace FileHandle.

#[local] Arguments toString : simpl never.
#[local] Arguments undefinedRead : simpl never.

Ltac run_worker :=
  unfold handleRequest, tryCatch, dispatch, handleCase, locations, documentUri,
    tyPositionOf, defined, callEngine, callWorkspace, sendResponse, sendError,
    sendNotification, setWorkspace, setFileHandles, setPythonVersion, selfClose,
    emit, get, bind, ret, throw; cbn.

Ltac split_matches :=
  repeat match goal with
         | |- context [match ?x with _ => _ end] =>
             lazymatch x with
             | context [match _ with _ => _ end] => fail
             | _ => let E := fresh "E" in destruct x eqn:E; cbn
             end
         end.

(** What one request makes the worker post, by the case taken. *)
Lemma handleRequest_posts request st :
  match selectCase allMethods (method request) with
  | Some m =>
      if silent m then
        posted (snd (handleRequest engine request st)) = []
        \/ exists e,
             posted (snd (handleRequest engine request st))
             = [ErrorResponse (id request) (-32603) ("Internal error: " +:+ toString e)]
      else
        (exists r, posted (snd (handleRequest engine request st)) = [Response (id request) r])
        \/ (exists e,
              posted (snd (handleRequest engine request st))
              = [ErrorResponse (id request) (-32603) ("Internal error: " +:+ toString e)])
        \/ (m = Initialized
            /\ posted (snd (handleRequest engine request st))
               = [Notification "window/logMessage" 3 "ty language server initialized"])
  | None =>
      posted (snd (handleRequest engine request st))
      = [ErrorResponse (id request) (-32601) ("Method not found: " +:+ method request)]
  end.
Proof.
  destruct request as [rid name ps]; cbn [method id params].
  destruct (selectCase allMethods name) as [m|] eqn:Hsel.
  - apply selectCase_Some in Hsel; subst name.
    unfold handleRequest, tryCatch, dispatch; cbn [method id params].
    rewrite selectCase_methodName.
    destruct m; cbn [silent]; run_worker; split_matches; eauto 10.
  - unfold handleRequest, tryCatch, dispatch; cbn [method id params].
    rewrite Hsel; reflexivity.
Qed.

(** X1. Whatever the request, the state and the engine, the worker posts
    at most one message for it, and that message belongs to the request
    (it carries its id, or is the log notification answering
    [initialized]). The methods handled without a result (didOpen,
    didChange, didClose, exit) post nothing, unless something was thrown,
    in which case the error response with code -32603 is posted for them
    too; every other method, known or unknown, posts exactly one
    message. *)
Theorem one_message_per_request (request : LSPRequest) (st : State) :
  (length (posted (snd (handleRequest engine request st))) <= 1)%nat
  /\ Forall (answersTo request) (posted (snd (handleRequest engine request st)))
  /\ (forall m,
        method request = methodName m -> silent m = true ->
        posted (snd (handleRequest engine request st)) = []
        \/ exists e,
             posted (snd (handleRequest engine request st))
             = [ErrorResponse (id request) (-32603) ("Internal error: " +:+ toString e)])
  /\ (forall m,
        method request = methodName m -> silent m = false ->
        length (posted (snd (handleRequest engine request st))) = 1%nat)
  /\ (~ In (method request) supportedMethods ->
      length (posted (snd (handleRequest engine request st))) = 1%nat).
Proof.
  pose proof (handleRequest_posts request st) as H.
  destruct (selectCase allMethods (method request)) as [m0|] eqn:Hsel.
  - pose proof (selectCase_Some _ _ Hsel) as Hname.
    assert (Hm : forall m, method request = methodName m -> m = m0).
    { intros m Hm; rewrite Hm, selectCase_methodName in Hsel; congruence. }
    assert (Hknown : In (method request) supportedMethods).
    { destruct (selectCase_None allMethods (method request)) as [_ Hnone].
      destruct (in_dec string_dec (method request) supportedMethods) as [Hin|Hout];
        [exact Hin|]. rewrite (Hnone Hout) in Hsel; discriminate Hsel. }
    destruct (silent m0) eqn:Hsilent.
    + destruct H as [H|[e H]]; rewrite H; cbn; (split; [lia|]);
        (split; [repeat constructor|]); (split; [|split]).
      all: try (intros m Hmm Hs; rewrite (Hm m Hmm), Hsilent in Hs; discriminate Hs).
      all: try (intros Hout; contradiction).
      all: intros m Hmm _; eauto.
    + destruct H as [[r H]|[[e H]|[Hi H]]]; rewrite H; cbn; (split; [lia|]);
        (split; [repeat constructor; try (subst m0; exact Hname)|]); (split; [|split]).
      all: try (intros m Hmm Hs; rewrite (Hm m Hmm), Hsilent in Hs; discriminate Hs).
      all: try (intros Hout; contradiction).
      all: intros; reflexivity.
  - rewrite H; cbn; split; [lia|]; split; [repeat constructor|]; split; [|split].
    + intros m Hmm; rewrite Hmm, selectCase_methodName in Hsel; discriminate Hsel.
    + intros; reflexivity.
    + intros; reflexivity.
Qed.


(** ** Documents *)

(** X2. A [textDocument/didOpen] that the engine accepts posts nothing and
    registers the handle the engine returned under the URI of the
    document, leaving the other URIs as they were; a diagnostics pull for
    that URI then reports what the engine finds for that handle. *)
Theorem open_registers_document
    (rid rid' : option RequestId) (p : Params) (doc : TextDocument) (st : State)
    (ws ws1 : Workspace) (h : FileHandle) :
  textDocument p = Some doc ->
  workspace st = Some ws ->
  openFile engine ws (doc_uri doc) (doc_text doc) = (Ok h, ws1) ->
  exists st1,
    handleRequest engine (mkLSPRequest rid "textDocument/didOpen" (Some p)) st
    = (Ok tt, st1, [])
    /\ workspace st1 = Some ws1
    /\ fileHandles st1 !! doc_uri doc = Some h
    /\ (forall u, u <> doc_uri doc -> fileHandles st1 !! u = fileHandles st !! u)
    /\ forall p' doc' diagnostics,
         textDocument p' = Some doc' ->
         doc_uri doc' = doc_uri doc ->
         checkFile engine ws1 h = Ok diagnostics ->
         handleRequest engine (mkLSPRequest rid' "textDocument/diagnostic" (Some p')) st1
         = (Ok tt, st1,
            [PostMessage
               (Response rid' (RDiagnosticReport (map (lspDiagnostic ws1) diagnostics)))]).
Proof.
  intros Hdoc Hws Hopen.
  eexists; split; [|split; [|split; [|split]]].
  - run_worker; rewrite Hws; cbn; rewrite Hdoc; cbn; rewrite Hopen; reflexivity.
  - reflexivity.
  - cbn; apply lookup_insert_eq.
  - intros u Hu; cbn; apply lookup_insert_ne; congruence.
  - intros p' doc' diagnostics Hdoc' Huri Hcheck.
    run_worker; rewrite Hdoc'; cbn; rewrite Huri, lookup_insert_eq; cbn.
    rewrite Hcheck; reflexivity.
Qed.

(** X3. A [textDocument/didClose] that the engine accepts posts nothing
    and removes the URI from the handle map; from then on each of the ten
    requests that need the document gets its empty or null result. When
    the engine throws in [closeFile], the URI stays registered. *)
Theorem close_forgets_document
    (rid : option RequestId) (p : Params) (doc : TextDocument) (st : State)
    (ws ws1 : Workspace) (h : FileHandle) :
  textDocument p = Some doc ->
  workspace st = Some ws ->
  fileHandles st !! doc_uri doc = Some h ->
  (closeFile engine ws h = (Ok tt, ws1) ->
   exists st1,
     handleRequest engine (mkLSPRequest rid "textDocument/didClose" (Some p)) st
     = (Ok tt, st1, [])
     /\ workspace st1 = Some ws1
     /\ fileHandles st1 = delete (doc_uri doc) (fileHandles st)
     /\ forall m r rid' p',
          emptyResult m = Some r ->
          textDocument p' = Some doc ->
          handleRequest engine (mkLSPRequest rid' (methodName m) (Some p')) st1
          = (Ok tt, st1, [PostMessage (Response rid' r)]))
  /\ (forall e,
        closeFile engine ws h = (Raise e, ws1) ->
        exists st1,
          fst (handleRequest engine (mkLSPRequest rid "textDocument/didClose" (Some p)) st)
          = (Ok tt, st1)
          /\ fileHandles st1 = fileHandles st).
Proof.
  intros Hdoc Hws Hh; split.
  - intros Hclose; eexists; split; [|split; [|split]].
    + run_worker; rewrite Hdoc; cbn; rewrite Hws, Hh; cbn; rewrite Hclose; reflexivity.
    + reflexivity.
    + reflexivity.
    + intros m r rid' p' Hr Hdoc'.
      apply handleRequest_Ok, (dispatch_missing_state engine m r rid' p' doc); auto.
      right; cbn; apply lookup_delete_eq.
  - intros e Hclose; eexists; split.
    + run_worker; rewrite Hdoc; cbn; rewrite Hws, Hh; cbn; rewrite Hclose; reflexivity.
    + reflexivity.
Qed.

(** X4. Opening a document that was not open and closing it again, the
    engine accepting both, leaves the handle map exactly as it was. *)
Theorem open_close_round_trip
    (rid : option RequestId) (p : Params) (doc : TextDocument) (st : State)
    (ws ws1 ws2 : Workspace) (h : FileHandle) :
  textDocument p = Some doc ->
  workspace st = Some ws ->
  fileHandles st !! doc_uri doc = None ->
  openFile engine ws (doc_uri doc) (doc_text doc) = (Ok h, ws1) ->
  closeFile engine ws1 h = (Ok tt, ws2) ->
  exists st2,
    runWorker engine
      [ DataRequest (mkLSPRequest rid "textDocument/didOpen" (Some p));
        DataRequest (mkLSPRequest rid "textDocument/didClose" (Some p)) ] st
    = (st2, [])
    /\ (closing st = false ->
        fileHandles st2 = fileHandles st /\ workspace st2 = Some ws2).
Proof.
  intros Hdoc Hws Hnone Hopen Hclose.
  destruct (closing st) eqn:Hc.
  - exists st; split; [cbn; rewrite Hc; reflexivity|discriminate].
  - eexists; split.
    + cbn [runWorker onMessage]; rewrite Hc.
      run_worker; rewrite Hws; cbn; rewrite Hdoc; cbn; rewrite Hopen; cbn.
      rewrite Hc, lookup_insert_eq; cbn; rewrite Hclose; reflexivity.
    + intros _; cbn; split; [|reflexivity].
      apply delete_insert_id; exact Hnone.
Qed.

(** X5. [textDocument/didChange] replaces the whole document by the text
    of the first content change: further changes in the same request make
    no difference. For a document that is not open the request is
    ignored, whatever [contentChanges] holds, and so is an empty list of
    changes for an open one; a missing [contentChanges] for an open
    document is answered with the error response -32603. *)
Theorem change_uses_first_content_change
    (rid : option RequestId) (io : option InitializationOptions) (doc : TextDocument)
    (pos : option LSPPosition) (st : State) :
  let didChange := fun changes =>
    mkLSPRequest rid "textDocument/didChange" (Some (mkParams io (Some doc) changes pos)) in
  (forall change rest,
      handleRequest engine (didChange (Some (change :: rest))) st
      = handleRequest engine (didChange (Some [change])) st)
  /\ (forall changes,
        workspace st = None \/ fileHandles st !! doc_uri doc = None ->
        handleRequest engine (didChange changes) st = (Ok tt, st, []))
  /\ handleRequest engine (didChange (Some [])) st = (Ok tt, st, [])
  /\ (forall ws h,
        workspace st = Some ws -> fileHandles st !! doc_uri doc = Some h ->
        handleRequest engine (didChange None) st
        = (Ok tt, st, internalError (didChange None) (undefinedRead "length"))).
Proof.
  intros didChange; subst didChange; split; [|split; [|split]].
  - intros change rest; run_worker; split_matches; reflexivity.
  - intros changes [Hw|Hh]; run_worker; [rewrite Hw; reflexivity|].
    destruct (workspace st); rewrite ?Hh; reflexivity.
  - run_worker; split_matches; reflexivity.
  - intros ws h Hws Hh; run_worker; rewrite Hws, Hh; reflexivity.
Qed.

(** X6. [initialize] replaces the workspace but keeps the handle map: a
    handle registered before is used with the new workspace, so that a
    diagnostics pull for a document opened before the second
    [initialize] asks the new workspace about the old handle. *)
Theorem initialize_keeps_handles
    (rid rid' : option RequestId) (ps : option Params) (p : Params) (doc : TextDocument)
    (st : State) (ws' : Workspace) (h : FileHandle)
    (diagnostics : list (@TyDiagnostic Workspace)) :
  init engine = Ok tt ->
  newWorkspace engine "/" (requestedVersion ps) = Ok ws' ->
  fileHandles st !! doc_uri doc = Some h ->
  textDocument p = Some doc ->
  checkFile engine ws' h = Ok diagnostics ->
  exists st1,
    handleRequest engine (mkLSPRequest rid "initialize" ps) st
    = (Ok tt, st1, [PostMessage (Response rid RCapabilities)])
    /\ workspace st1 = Some ws'
    /\ fileHandles st1 = fileHandles st
    /\ TyWorker.pythonVersion st1 = requestedVersion ps
    /\ handleRequest engine (mkLSPRequest rid' "textDocument/diagnostic" (Some p)) st1
       = (Ok tt, st1,
          [PostMessage
             (Response rid' (RDiagnosticReport (map (lspDiagnostic ws') diagnostics)))]).
Proof.
  intros Hinit Hnew Hh Hdoc Hcheck.
  eexists; split; [|split; [|split; [|split]]].
  - run_worker; rewrite Hinit; cbn; rewrite Hnew; reflexivity.
  - reflexivity.
  - reflexivity.
  - reflexivity.
  - run_worker; rewrite Hdoc; cbn; rewrite Hh; cbn; rewrite Hcheck; reflexivity.
Qed.


(** ** Formatting *)

(** X7. For an open document whose formatting the engine returns as a
    non-empty text, [textDocument/formatting] answers with exactly one
    edit: it replaces, by the formatted text, the range from (0, 0) to
    the position just past the last character of the current text (the
    number of line feeds, and the length of what follows the last one).
    When the engine returns nothing, or the empty text, the answer is the
    empty list of edits. *)
Theorem formatting_whole_document
    (rid : option RequestId) (p : Params) (doc : TextDocument) (st : State)
    (ws : Workspace) (h : FileHandle) :
  textDocument p = Some doc ->
  workspace st = Some ws ->
  fileHandles st !! doc_uri doc = Some h ->
  (forall c formatted currentText,
      format engine ws h = Ok (Some (String c formatted)) ->
      sourceText engine ws h = Ok currentText ->
      handleRequest engine (mkLSPRequest rid "textDocument/formatting" (Some p)) st
      = (Ok tt, st,
         [PostMessage
            (Response rid
               (RTextEdits
                  [mkLSPTextEdit
                     (mkLSPRange (mkLSPPosition 0 0)
                        (mkLSPPosition (Z.of_nat (fst (endOfText currentText 0 0)))
                                       (Z.of_nat (snd (endOfText currentText 0 0)))))
                     (String c formatted)]))]))
  /\ (format engine ws h = Ok None \/ format engine ws h = Ok (Some EmptyString) ->
      handleRequest engine (mkLSPRequest rid "textDocument/formatting" (Some p)) st
      = (Ok tt, st, [PostMessage (Response rid (RTextEdits []))])).
Proof.
  intros Hdoc Hws Hh; split.
  - intros c formatted currentText Hformat Htext.
    rewrite <- fullRange_endOfText.
    run_worker; rewrite Hdoc; cbn; rewrite Hws, Hh, Hformat; cbn.
    rewrite Htext; reflexivity.
  - intros [Hformat|Hformat]; run_worker; rewrite Hdoc; cbn;
      rewrite Hws, Hh, Hformat; reflexivity.
Qed.

End Properties.

(** ** Sample runs *)

(** The state after [initialize], before any document is opened. *)
Definition initializedState : @State unit nat := mkState (Some tt) ∅ "3.12" false.

(** [sampleEngine] with a formatter: it returns a fixed text of two lines
    for a source of one line without final line feed. *)
Definition formattingEngine : @Engine unit nat :=
  {| init := init sampleEngine;
     newWorkspace := newWorkspace sampleEngine;
     openFile := openFile sampleEngine;
     updateFile := updateFile sampleEngine;
     closeFile := closeFile sampleEngine;
     checkFile := checkFile sampleEngine;
     hover := hover sampleEngine;
     completions := completions sampleEngine;
     gotoDefinition := gotoDefinition sampleEngine;
     gotoReferences := gotoReferences sampleEngine;
     gotoTypeDefinition := gotoTypeDefinition sampleEngine;
     gotoDeclaration := gotoDeclaration sampleEngine;
     documentHighlights := documentHighlights sampleEngine;
     signatureHelp := signatureHelp sampleEngine;
     format := fun _ _ => Ok (Some ("x = 1" +:+ String "010" "y = 2" +:+ String "010" ""));
     sourceText := fun _ _ => Ok ("x=1" +:+ String "010" "y=2") |}.

Example formatting_sample :
  snd (handleRequest formattingEngine
         (mkLSPRequest (Some (IdNumber 9)) "textDocument/formatting" (Some mainParams))
         openState)
  = [PostMessage
       (Response (Some (IdNumber 9))
          (RTextEdits
             [mkLSPTextEdit
                (mkLSPRange (mkLSPPosition 0 0) (mkLSPPosition 1 3))
                ("x = 1" +:+ String "010" "y = 2" +:+ String "010" "")]))].
Proof. reflexivity. Qed.

Lemma one_message_per_request_witness :
  length (posted (snd (handleRequest sampleEngine
                         (mkLSPRequest (Some (IdNumber 4)) "textDocument/hover"
                            (Some mainParams)) openState))) = 1%nat.
Proof.
  apply (proj1 (proj2 (proj2 (proj2
           (one_message_per_request sampleEngine
              (mkLSPRequest (Some (IdNumber 4)) "textDocument/hover" (Some mainParams))
              openState)))) Hover eq_refl eq_refl).
Defined.

Lemma open_registers_document_witness :
  exists st1,
    handleRequest sampleEngine
      (mkLSPRequest None "textDocument/didOpen" (Some mainParams)) initializedState
    = (Ok tt, st1, [])
    /\ fileHandles st1 !! "file:///main.py" = Some 0%nat.
Proof.
  destruct (open_registers_document sampleEngine None (Some (IdNumber 3)) mainParams
              mainDocument initializedState tt tt 0%nat eq_refl eq_refl eq_refl)
    as (st1 & Hrun & _ & Hh & _).
  exists st1; split; [exact Hrun|exact Hh].
Defined.

Lemma close_forgets_document_witness :
  exists st1,
    handleRequest sampleEngine
      (mkLSPRequest None "textDocument/didClose" (Some mainParams)) openState
    = (Ok tt, st1, [])
    /\ handleRequest sampleEngine
         (mkLSPRequest (Some (IdNumber 5)) "textDocument/hover" (Some mainParams)) st1
       = (Ok tt, st1, [PostMessage (Response (Some (IdNumber 5)) RNull)]).
Proof.
  destruct (proj1 (close_forgets_document sampleEngine None mainParams mainDocument
                     openState tt tt 0%nat eq_refl eq_refl eq_refl) eq_refl)
    as (st1 & Hrun & _ & _ & Hquery).
  exists st1; split; [exact Hrun|].
  apply (Hquery Hover RNull (Some (IdNumber 5)) mainParams eq_refl eq_refl).
Defined.

Lemma open_close_round_trip_witness :
  exists st2,
    runWorker sampleEngine
      [ DataRequest (mkLSPRequest None "textDocument/didOpen" (Some mainParams));
        DataRequest (mkLSPRequest None "textDocument/didClose" (Some mainParams)) ]
      initializedState
    = (st2, [])
    /\ fileHandles st2 = fileHandles initializedState.
Proof.
  destruct (open_close_round_trip sampleEngine None mainParams mainDocument
              initializedState tt tt tt 0%nat eq_refl eq_refl eq_refl eq_refl eq_refl)
    as (st2 & Hrun & Hsame).
  exists st2; split; [exact Hrun|apply Hsame; reflexivity].
Defined.

Lemma change_uses_first_content_change_witness :
  handleRequest sampleEngine
    (mkLSPRequest None "textDocument/didChange"
       (Some (mkParams None (Some mainDocument) None None))) initializedState
  = (Ok tt, initializedState, []).
Proof.
  apply (proj1 (proj2 (change_uses_first_content_change sampleEngine None None
                         mainDocument None initializedState)) None).
  right; reflexivity.
Defined.

Lemma initialize_keeps_handles_witness :
  exists st1,
    handleRequest sampleEngine (mkLSPRequest (Some (IdNumber 1)) "initialize" None) openState
    = (Ok tt, st1, [PostMessage (Response (Some (IdNumber 1)) RCapabilities)])
    /\ fileHandles st1 = fileHandles openState.
Proof.
  destruct (initialize_keeps_handles sampleEngine (Some (IdNumber 1)) (Some (IdNumber 2))
              None mainParams mainDocument openState tt 0%nat sampleDiagnostics
              eq_refl eq_refl eq_refl eq_refl eq_refl)
    as (st1 & Hrun & _ & Hh & _).
  exists st1; split; [exact Hrun|exact Hh].
Defined.

Lemma formatting_whole_document_witness :
  handleRequest formattingEngine
    (mkLSPRequest (Some (IdNumber 9)) "textDocument/formatting" (Some mainParams)) openState
  = (Ok tt, openState,
     [PostMessage
        (Response (Some (IdNumber 9))
           (RTextEdits
              [mkLSPTextEdit
                 (mkLSPRange (mkLSPPosition 0 0) (mkLSPPosition 1 3))
                 ("x = 1" +:+ String "010" "y = 2" +:+ String "010" "")]))]).
Proof.
  apply (proj1 (formatting_whole_document formattingEngine (Some (IdNumber 9)) mainParams
                  mainDocument openState tt 0%nat eq_refl eq_refl eq_refl)
           "x"%char (" = 1" +:+ String "010" "y = 2" +:+ String "010" "")
           ("x=1" +:+ String "010" "y=2") eq_refl eq_refl).
Defined.

End TyWorkerProperties.

(* ===================================================================== *)
(** * More on the conversions: positions, URIs, the direct ty diagnostic *)
(* ===================================================================== *)

Module ConversionProperties.
Import Position Uri Severity Js Checkers TyWorker.



(** tyService.ts, the callback of [tyDiagnostics.map] in [checkWithTy]:
    the engine's positions are copied as they are. *)
Definition tyDiagnostic {Workspace : Type} (ws : Workspace) (diag : @TyDiagnostic Workspace)
    : Checkers.Diagnostic :=
  let range := toRange diag ws in
  let severity := severity diag in
  mkDiagnostic
    (match range with
     | Some r => Some (mkDiagnosticRange (ty_line (ty_start r)) (ty_column (ty_start r)))
     | None => None
     end)
    (match range with
     | Some r => Some (mkDiagnosticRange (ty_line (ty_end r)) (ty_column (ty_end r)))
     | None => None
     end)
    (message diag)
    (tyAppSeverity severity)
    "ty".



Lemma normalized_begins p rng :
  beginsWith (uri (tyLocationLinkToLSPLocation (mkTyLocationLink p rng))) "file://".
Proof.
  unfold tyLocationLinkToLSPLocation; cbn [path uri].
  destruct (startsWith p "/file:/"); [eexists; reflexivity|].
  destruct (startsWith p "file://") eqn:Hs; cbn [negb]; [|eexists; reflexivity].
  apply startsWith_spec; exact Hs.
Qed.

(** X10. The URI of every location the worker sends begins with
    [file://], whatever path the engine returned; a path that is already
    such a URI is a fixed point, so that normalizing twice is normalizing
    once; and the marker form and the plain form of an absolute path give
    the same URI. *)
Theorem uri_normal_form :
  (forall loc, beginsWith (uri (tyLocationLinkToLSPLocation loc)) "file://")
  /\ (forall loc rng,
        uri (tyLocationLinkToLSPLocation
               (mkTyLocationLink (uri (tyLocationLinkToLSPLocation loc)) rng))
        = uri (tyLocationLinkToLSPLocation loc))
  /\ (forall rest rng,
        ~ beginsWith rest "file:/" ->
        uri (tyLocationLinkToLSPLocation (mkTyLocationLink ("/file:/" +:+ rest) rng))
        = uri (tyLocationLinkToLSPLocation (mkTyLocationLink ("/" +:+ rest) rng))).
Proof.
  split; [|split].
  - intros [p rng]; apply normalized_begins.
  - intros [p rng] rng'.
    destruct (normalized_begins p rng) as [rest Hrest]; rewrite Hrest; reflexivity.
  - intros rest rng Hnot.
    unfold tyLocationLinkToLSPLocation; cbn [path uri].
    change (startsWith ("/file:/" +:+ rest) "/file:/") with true.
    change (startsWith ("/" +:+ rest) "/file:/") with (startsWith rest "file:/").
    apply startsWith_false in Hnot; rewrite Hnot; reflexivity.
Qed.

Lemma uri_normal_form_witness :
  uri (tyLocationLinkToLSPLocation (mkTyLocationLink "/file:/main.py" sampleRange))
  = uri (tyLocationLinkToLSPLocation (mkTyLocationLink "/main.py" sampleRange)).
Proof.
  apply (proj2 (proj2 uri_normal_form) "main.py" sampleRange).
  apply startsWith_false; reflexivity.
Defined.

End ConversionProperties.

(* ===================================================================== *)
(** * The direct ty check (services/tyService.ts) *)
(* ===================================================================== *)

Module TyService.
Import Position Severity Js Checkers TyWorker ConversionProperties.

(** The text of a [PythonVersion]. *)
Definition versionString (v : PythonVersion) : string :=
  match v with
  | py3_9 => "3.9" | py3_10 => "3.10" | py3_11 => "3.11"
  | py3_12 => "3.12" | py3_13 => "3.13" | py3_14 => "3.14"
  end.

(** The diagnostics [checkWithTy] returns from its [catch] clause. *)
Definition failedToRun (e : Thrown) : list Checkers.Diagnostic :=
  [ mkDiagnostic (Some (mkDiagnosticRange 1 1)) (Some (mkDiagnosticRange 1 1))
      ("Failed to run ty: " +:+ toString e) error "ty" ].

Section CheckWithTy.

Context {Workspace FileHandle : Type}.
Variable engine : @Engine Workspace FileHandle.

(** The module-level variables [wasmInitialized] and [workspace]. *)
Record ServiceState := mkServiceState {
  wasmInitialized : bool;
  serviceWorkspace : option Workspace
}.

Definition freshService : ServiceState := mkServiceState false None.

(** [async function initializeWasm()] *)
Definition initializeWasm (st : ServiceState) : Outcome unit * ServiceState :=
  if wasmInitialized st then (Ok tt, st)
  else
    match init engine with
    | Ok _ => (Ok tt, mkServiceState true (serviceWorkspace st))
    | Raise e => (Raise e, st)
    end.

(** [async function checkWithTy(code, pythonVersion)]: the diagnostics
    returned, the state left behind and what [console.error] was given. *)
Definition checkWithTy (code : string) (pythonVersion : PythonVersion) (st : ServiceState)
    : list Checkers.Diagnostic * ServiceState * list Thrown :=
  match initializeWasm st with
  | (Raise e, st1) => (failedToRun e, st1, [e])
  | (Ok _, st1) =>
      match newWorkspace engine "/" (versionString pythonVersion) with
      | Raise e => (failedToRun e, st1, [e])
      | Ok ws =>
          match openFile engine ws "test.py" code with
          | (Raise e, ws1) =>
              (failedToRun e, mkServiceState (wasmInitialized st1) (Some ws1), [e])
          | (Ok handle, ws1) =>
              match checkFile engine ws1 handle with
              | Raise e =>
                  (failedToRun e, mkServiceState (wasmInitialized st1) (Some ws1), [e])
              | Ok tyDiagnostics =>
                  let diagnostics := map (tyDiagnostic ws1) tyDiagnostics in
                  match closeFile engine ws1 handle with
                  | (Raise e, ws2) =>
                      (failedToRun e, mkServiceState (wasmInitialized st1) (Some ws2), [e])
                  | (Ok _, ws2) =>
                      (diagnostics, mkServiceState (wasmInitialized st1) (Some ws2), [])
                  end
              end
          end
      end
  end.

(** [checkWithTy] as [runTypeChecker] awaits it: it never rejects. *)
Definition awaitCheckWithTy (st : ServiceState) (code : string)
    (pythonVersion : PythonVersion) : Thrown + list Checkers.Diagnostic :=
  inr (fst (fst (checkWithTy code pythonVersion st))).

(** The engine throws [e] in one of the calls of [checkWithTy], the calls
    before it having returned. *)
Definition checkFails (code : string) (pythonVersion : PythonVersion) (st : ServiceState)
    (e : Thrown) : Prop :=
  (wasmInitialized st = false /\ init engine = Raise e)
  \/ ((wasmInitialized st = true \/ init engine = Ok tt)
      /\ (newWorkspace engine "/" (versionString pythonVersion) = Raise e
          \/ exists ws,
               newWorkspace engine "/" (versionString pythonVersion) = Ok ws
               /\ (fst (openFile engine ws "test.py" code) = Raise e
                   \/ exists handle ws1,
                        openFile engine ws "test.py" code = (Ok handle, ws1)
                        /\ (checkFile engine ws1 handle = Raise e
                            \/ exists tyDiagnostics,
                                 checkFile engine ws1 handle = Ok tyDiagnostics
                                 /\ fst (closeFile engine ws1 handle) = Raise e)))).

(** X12. When the engine throws in any of the calls of [checkWithTy]
    (loading, creating the workspace, opening, checking, or closing the
    file), the check returns exactly one diagnostic: an error at line 1,
    column 1 with source ty whose message is "Failed to run ty: "
    followed by the string form of what was thrown. In particular a
    failure of the final [closeFile] discards the diagnostics that had
    been computed. [runTypeChecker] passes that diagnostic on unchanged. *)
Theorem check_failure_is_one_diagnostic
    (code : string) (pythonVersion : PythonVersion) (st : ServiceState) (e : Thrown) :
  checkFails code pythonVersion st e ->
  fst (fst (checkWithTy code pythonVersion st))
  = [ mkDiagnostic (Some (mkDiagnosticRange 1 1)) (Some (mkDiagnosticRange 1 1))
        ("Failed to run ty: " +:+ toString e) error "ty" ]
  /\ snd (checkWithTy code pythonVersion st) = [e]
  /\ runTypeChecker (awaitCheckWithTy st) ty code pythonVersion
     = fst (fst (checkWithTy code pythonVersion st)).
Proof.
  intros Hfail; split; [|split]; [| |reflexivity].
  all: unfold checkWithTy, initializeWasm.
  all: destruct Hfail as [[Hflag Hinit]|[Hready Hfail]].
  all: try (rewrite Hflag, Hinit; reflexivity).
  all: assert (Hstart : exists st1,
                  (if wasmInitialized st then (Ok tt, st)
                   else match init engine with
                        | Ok _ => (Ok tt, mkServiceState true (serviceWorkspace st))
                        | Raise e0 => (Raise e0, st)
                        end) = (Ok tt, st1))
         by (destruct Hready as [Hflag|Hinit];
             [rewrite Hflag; eauto
             |destruct (wasmInitialized st); [eauto|rewrite Hinit; eauto]]).
  all: destruct Hstart as [st1 ->].
  all: destruct Hfail as [Hnew|(ws & Hnew & Hfail)]; rewrite Hnew; [reflexivity|].
  all: destruct Hfail as [Hopen|(handle & ws1 & Hopen & Hfail)];
    [destruct (openFile engine ws "test.py" code) as [o ws1]; cbn in Hopen; subst o;
     reflexivity|].
  all: rewrite Hopen.
  all: destruct Hfail as [Hcheck|(tyDiagnostics & Hcheck & Hclose)]; rewrite Hcheck;
    [reflexivity|].
  all: destruct (closeFile engine ws1 handle) as [o ws2]; cbn in Hclose; subst o;
    reflexivity.
Qed.

(** X13. When every call of the engine returns, [checkWithTy] returns one
    application diagnostic per engine diagnostic, in order, with the
    engine's 1-based positions copied unchanged, logs nothing, records
    that the engine is loaded and keeps the workspace as the closing of
    the file left it. *)
Theorem check_success_maps_diagnostics
    (code : string) (pythonVersion : PythonVersion) (st : ServiceState)
    (ws ws1 ws2 : Workspace) (handle : FileHandle)
    (tyDiagnostics : list (@TyDiagnostic Workspace)) :
  wasmInitialized st = true \/ init engine = Ok tt ->
  newWorkspace engine "/" (versionString pythonVersion) = Ok ws ->
  openFile engine ws "test.py" code = (Ok handle, ws1) ->
  checkFile engine ws1 handle = Ok tyDiagnostics ->
  closeFile engine ws1 handle = (Ok tt, ws2) ->
  checkWithTy code pythonVersion st
  = (map (tyDiagnostic ws1) tyDiagnostics, mkServiceState true (Some ws2), [])
  /\ (forall i diag r,
        nth_error tyDiagnostics i = Some diag ->
        toRange diag ws1 = Some r ->
        exists d,
          nth_error (fst (fst (checkWithTy code pythonVersion st))) i = Some d
          /\ diag_start d
             = Some (mkDiagnosticRange (ty_line (ty_start r)) (ty_column (ty_start r)))
          /\ diag_end d
             = Some (mkDiagnosticRange (ty_line (ty_end r)) (ty_column (ty_end r)))).
Proof.
  intros Hready Hnew Hopen Hcheck Hclose.
  assert (Hrun : checkWithTy code pythonVersion st
                 = (map (tyDiagnostic ws1) tyDiagnostics,
                    mkServiceState true (Some ws2), [])).
  { unfold checkWithTy, initializeWasm.
    destruct (wasmInitialized st) eqn:Hflag.
    - rewrite Hnew, Hopen, Hcheck, Hclose, Hflag; reflexivity.
    - destruct Hready as [Hflag'|Hinit]; [discriminate Hflag'|].
      rewrite Hinit, Hnew, Hopen, Hcheck, Hclose; reflexivity. }
  split; [exact Hrun|].
  intros i diag r Hi Hr; rewrite Hrun; cbn [fst].
  exists (tyDiagnostic ws1 diag); split; [apply map_nth_error; exact Hi|].
  unfold tyDiagnostic; cbn; rewrite Hr; split; reflexivity.
Qed.

End CheckWithTy.

(** [engine] with another outcome of [init]. *)
Definition withInit {Workspace FileHandle : Type} (outcome : Outcome unit)
    (engine : @Engine Workspace FileHandle) : @Engine Workspace FileHandle :=
  @mkEngine Workspace FileHandle outcome
    (newWorkspace engine) (openFile engine) (updateFile engine) (closeFile engine)
    (checkFile engine) (hover engine) (completions engine) (gotoDefinition engine)
    (gotoReferences engine) (gotoTypeDefinition engine) (gotoDeclaration engine)
    (documentHighlights engine) (signatureHelp engine) (format engine)
    (sourceText engine).

(** X14. The engine is loaded until it first loads: once
    [wasmInitialized] is set, a check does the same whatever [init] would
    do; a check in which [init] returns sets the flag even when a later
    call fails; and a check in which [init] throws leaves the flag unset,
    so that the next check loads again. *)
Theorem engine_loaded_once {Workspace FileHandle : Type}
    (engine : @Engine Workspace FileHandle) (code : string)
    (pythonVersion : PythonVersion) (st : ServiceState) :
  (forall outcome,
      wasmInitialized st = true ->
      checkWithTy (withInit outcome engine) code pythonVersion st
      = checkWithTy engine code pythonVersion st)
  /\ (init engine = Ok tt ->
      wasmInitialized (snd (fst (checkWithTy engine code pythonVersion st))) = true)
  /\ (forall e,
        init engine = Raise e ->
        wasmInitialized (snd (fst (checkWithTy engine code pythonVersion st)))
        = wasmInitialized st).
Proof.
  split; [|split].
  - intros outcome Hflag; unfold checkWithTy, initializeWasm; rewrite Hflag; reflexivity.
  - intros Hinit; unfold checkWithTy, initializeWasm; rewrite Hinit.
    destruct (wasmInitialized st) eqn:Hflag;
      destruct (newWorkspace engine "/" (versionString pythonVersion)) as [ws|e];
      cbn; try exact Hflag; try reflexivity;
      destruct (openFile engine ws "test.py" code) as [[handle|e] ws1];
      cbn; try exact Hflag; try reflexivity;
      destruct (checkFile engine ws1 handle) as [ds|e];
      cbn; try exact Hflag; try reflexivity;
      destruct (closeFile engine ws1 handle) as [[u|e] ws2];
      cbn; try exact Hflag; reflexivity.
  - intros e Hinit; unfold checkWithTy, initializeWasm; rewrite Hinit.
    destruct (wasmInitialized st) eqn:Hflag; [|cbn; exact Hflag].
    destruct (newWorkspace engine "/" (versionString pythonVersion)) as [ws|e'];
      cbn; try exact Hflag;
      destruct (openFile engine ws "test.py" code) as [[handle|e'] ws1];
      cbn; try exact Hflag;
      destruct (checkFile engine ws1 handle) as [ds|e'];
      cbn; try exact Hflag;
      destruct (closeFile engine ws1 handle) as [[u|e'] ws2];
      cbn; exact Hflag.
Qed.

Lemma engine_loaded_once_witness :
  wasmInitialized (snd (fst (checkWithTy sampleEngine "x = 1" py3_12 freshService))) = true.
Proof.
  apply (proj1 (proj2 (engine_loaded_once sampleEngine "x = 1" py3_12 freshService))).
  reflexivity.
Defined.

Lemma check_failure_is_one_diagnostic_witness :
  fst (fst (checkWithTy
              (withInit (Raise (EngineFailure "CompileError: wasm")) sampleEngine)
              "x = 1" py3_12 freshService))
  = [ mkDiagnostic (Some (mkDiagnosticRange 1 1)) (Some (mkDiagnosticRange 1 1))
        "Failed to run ty: CompileError: wasm" error "ty" ].
Proof.
  apply (proj1 (check_failure_is_one_diagnostic
                  (withInit (Raise (EngineFailure "CompileError: wasm")) sampleEngine)
                  "x = 1" py3_12 freshService (EngineFailure "CompileError: wasm")
                  (or_introl (conj eq_refl eq_refl)))).
Defined.

Lemma check_success_maps_diagnostics_witness :
  checkWithTy sampleEngine "x = 1" py3_12 freshService
  = (map (tyDiagnostic tt) sampleDiagnostics, mkServiceState true (Some tt), []).
Proof.
  apply (check_success_maps_diagnostics sampleEngine "x = 1" py3_12 freshService
           tt tt tt 0%nat sampleDiagnostics).
  - right; reflexivity.
  - reflexivity.
  - reflexivity.
  - reflexivity.
  - reflexivity.
Defined.

End TyService.

(* ===================================================================== *)
(** * More on WebWorkerTransport: delivery to subscribers *)
(* ===================================================================== *)

Module WebWorkerProperties.
Import Js Transport WebWorkerTransport.
Local Open Scope nat_scope.

(** The calls of subscribed handlers in a trace, with their argument. *)
Definition handlerCalls {D : Type} (trace : list (Effect D)) : list (Handler * string) :=
  omap (fun e => match e with HandlerCall h message => Some (h, message) | _ => None end)
       trace.

Section Delivery.

Context {Json : Type}.
Variable JSON_parse : string -> option Json.
Variable JSON_stringify : Json -> string.
Variable isJsonRpc : Json -> bool.
Variable handlerThrows : Handler -> string -> bool.

(** What can happen to a transport once constructed: a call by the
    client, or an event of the worker. *)
Inductive Action :=
| Called (c : Call)
| Happened (ev : @WorkerEvent Json).

Definition act (a : Action) (t : WebWorkerTransport)
    : WebWorkerTransport * list (Effect (@Posted Json)) :=
  match a with
  | Called c => @call _ _ (transport JSON_parse) c t
  | Happened ev => onEvent JSON_parse JSON_stringify isJsonRpc handlerThrows ev t
  end.

Fixpoint run (actions : list Action) (t : WebWorkerTransport)
    : WebWorkerTransport * list (Effect (@Posted Json)) :=
  match actions with
  | [] => (t, [])
  | a :: rest =>
      match act a t with
      | (t1, out1) =>
          match run rest t1 with
          | (t2, out2) => (t2, out1 ++ out2)
          end
      end
  end.

(** The handlers form a set, and the removable listeners are attached
    exactly while the transport is open. *)
Definition sound (t : WebWorkerTransport) : Prop :=
  NoDup (handlers t) /\ listening t = negb (closed t).

(** A transport reached from the constructor. *)
Definition reached (t : WebWorkerTransport) : Prop :=
  exists source onError' onClose' actions,
    t = fst (run actions (fst (@construct Json source onError' onClose'))).


(** The text the message listener hands to the handlers for [data], if it
    forwards it: the string form of an object with the protocol marker,
    or a string as it is when it parses to such an object. *)
Definition forwarded (data : @Data Json) : option string :=
  match data with
  | DataObject j => if isJsonRpc j then Some (JSON_stringify j) else None
  | DataString s =>
      match JSON_parse s with
      | Some parsed => if isJsonRpc parsed then Some s else None
      | None => None
      end
  | DataOther => None
  end.

Lemma handlerCalls_forEachHandler {D : Type} label hs message :
  handlerCalls (@forEachHandler D handlerThrows label hs message)
  = map (fun h => (h, message)) hs.
Proof.
  unfold forEachHandler; induction hs as [|h hs IH]; [reflexivity|].
  cbn; destruct (handlerThrows h message); cbn; f_equal; exact IH.
Qed.

Lemma setAdd_NoDup h hs : NoDup hs -> NoDup (setAdd h hs).
Proof.
  intros Hnd; unfold setAdd; destruct (bool_decide (h ∈ hs)) eqn:Hin; [exact Hnd|].
  apply bool_decide_eq_false_1 in Hin.
  apply NoDup_app; split; [exact Hnd|split; [|apply NoDup_singleton]].
  intros k Hk Hk'; apply list_elem_of_singleton in Hk'; subst k; contradiction.
Qed.

Lemma setDelete_NoDup h hs : NoDup hs -> NoDup (setDelete h hs).
Proof. intros Hnd; unfold setDelete; apply NoDup_filter; exact Hnd. Qed.

Lemma sound_construct source onError' onClose' :
  sound (fst (@construct Json source onError' onClose')).
Proof. destruct source; split; cbn; try reflexivity; apply NoDup_nil_2. Qed.

Lemma act_send_state message t : fst (act (Called (CallSend message)) t) = t.
Proof.
  cbn; unfold send; destruct (closed t); [|destruct (JSON_parse message)]; reflexivity.
Qed.

Lemma sound_act a t : sound t -> sound (fst (act a t)).
Proof.
  intros [Hnd Hl]; destruct a as [[message|h|h|]|[data| |]];
    [rewrite act_send_state; split; assumption|cbn..].
  - split; cbn; [apply setAdd_NoDup; exact Hnd|exact Hl].
  - split; cbn; [apply setDelete_NoDup; exact Hnd|exact Hl].
  - unfold sound, close; destruct (closed t) eqn:Hc; cbn; rewrite ?Hc;
      [split; assumption|].
    split; [apply NoDup_nil_2|reflexivity].
  - split; assumption.
  - split; assumption.
  - split; cbn; [apply NoDup_nil_2|reflexivity].
Qed.

Lemma sound_run actions : forall t, sound t -> sound (fst (run actions t)).
Proof.
  induction actions as [|a rest IH]; intros t Hs; [exact Hs|].
  cbn; pose proof (sound_act a t Hs) as H1.
  destruct (act a t) as [t1 out1]; cbn in H1.
  specialize (IH t1 H1); destruct (run rest t1) as [t2 out2]; exact IH.
Qed.

Lemma reached_sound t : reached t -> sound t.
Proof.
  intros (source & e & c & actions & ->); apply sound_run, sound_construct.
Qed.

(** On a closed transport nothing is delivered and nothing terminated. *)
Lemma closed_act a t :
  sound t -> closed t = true ->
  closed (fst (act a t)) = true
  /\ handlerCalls (snd (act a t)) = []
  /\ terminations (snd (act a t)) = [].
Proof.
  intros [Hnd Hl] Hc; rewrite Hc in Hl; cbn in Hl.
  destruct a as [[message|h|h|]|[data| |]]; cbn.
  - unfold send; rewrite Hc; repeat split; assumption.
  - repeat split; assumption.
  - repeat split; assumption.
  - unfold close; rewrite Hc; repeat split; assumption.
  - rewrite Hl; repeat split; assumption.
  - rewrite Hl; repeat split; assumption.
  - destruct (onClose t); repeat split.
Qed.

Lemma closed_run actions : forall t,
  sound t -> closed t = true ->
  handlerCalls (snd (run actions t)) = [] /\ terminations (snd (run actions t)) = [].
Proof.
  induction actions as [|a rest IH]; intros t Hs Hc; [split; reflexivity|].
  cbn; destruct (closed_act a t Hs Hc) as (Hc1 & Hh1 & Ht1).
  pose proof (sound_act a t Hs) as Hs1.
  destruct (act a t) as [t1 out1]; cbn in *.
  destruct (IH t1 Hs1 Hc1) as [Hh2 Ht2].
  destruct (run rest t1) as [t2 out2]; cbn in *.
  unfold handlerCalls, terminations in *; rewrite !omap_app, Hh1, Hh2, Ht1, Ht2.
  split; reflexivity.
Qed.

(** X15. In a transport reached from the constructor, a message of the
    worker is handed to the subscribers exactly when it is an object
    with the protocol marker (as its string form) or a string that parses
    to one (as it is) and the transport is not closed: then every
    subscribed handler is called exactly once with that text, in the
    order of subscription, whether or not earlier handlers threw. Any
    other message calls no handler. The message changes nothing in the
    transport. *)
Theorem inbound_dispatch (t : WebWorkerTransport) (data : @Data Json) :
  reached t ->
  fst (onEvent JSON_parse JSON_stringify isJsonRpc handlerThrows (MessageEvent data) t) = t
  /\ handlerCalls
       (snd (onEvent JSON_parse JSON_stringify isJsonRpc handlerThrows
               (MessageEvent data) t))
     = match forwarded data with
       | Some text => if closed t then [] else map (fun h => (h, text)) (handlers t)
       | None => []
       end
  /\ NoDup (handlers t).
Proof.
  intros Hr; destruct (reached_sound t Hr) as [Hnd Hl].
  split; [reflexivity|split; [|exact Hnd]].
  cbn; rewrite Hl; unfold forwarded, messageListener.
  destruct (closed t); cbn.
  - destruct data as [j|s|]; [destruct (isJsonRpc j)| |]; try reflexivity.
    destruct (JSON_parse s) as [parsed|]; [destruct (isJsonRpc parsed)|]; reflexivity.
  - destruct data as [j|s|]; [destruct (isJsonRpc j)| |]; try reflexivity.
    + apply handlerCalls_forEachHandler.
    + destruct (JSON_parse s) as [parsed|]; [destruct (isJsonRpc parsed)|];
        try reflexivity.
      apply handlerCalls_forEachHandler.
Qed.

(** X16. The subscribers form a set: subscribing a handler makes it a
    member, once, however often it is subscribed; unsubscribing removes
    it; neither touches the other handlers; and subscribing a new handler
    and unsubscribing it again gives back the transport one had. *)
Theorem subscriptions_form_a_set (t : WebWorkerTransport) (h : Handler) :
  reached t ->
  (h ∈ handlers (subscribe h t))
  /\ subscribe h (subscribe h t) = subscribe h t
  /\ NoDup (handlers (subscribe h t))
  /\ (h ∉ handlers (unsubscribe h t))
  /\ (forall k, k <> h ->
        (k ∈ handlers (subscribe h t) <-> k ∈ handlers t)
        /\ (k ∈ handlers (unsubscribe h t) <-> k ∈ handlers t))
  /\ (h ∉ handlers t -> unsubscribe h (subscribe h t) = t).
Proof.
  intros Hr; destruct (reached_sound t Hr) as [Hnd _].
  assert (Hin : h ∈ setAdd h (handlers t)).
  { unfold setAdd; destruct (bool_decide (h ∈ handlers t)) eqn:Hd.
    - apply bool_decide_eq_true_1 in Hd; exact Hd.
    - apply elem_of_app; right; apply list_elem_of_singleton; reflexivity. }
  split; [exact Hin|split; [|split; [|split; [|split]]]].
  - unfold subscribe; cbn; f_equal.
    unfold setAdd at 1; rewrite bool_decide_eq_true_2 by exact Hin; reflexivity.
  - cbn; apply setAdd_NoDup; exact Hnd.
  - cbn; unfold setDelete; rewrite list_elem_of_filter; intros [Hne _]; congruence.
  - intros k Hk; cbn; split.
    + unfold setAdd; destruct (bool_decide (h ∈ handlers t)); [reflexivity|].
      rewrite elem_of_app, list_elem_of_singleton; split; [|auto].
      intros [H|H]; [exact H|contradiction].
    + unfold setDelete; rewrite list_elem_of_filter; split; [intros [_ H]; exact H|auto].
  - intros Hnew; destruct t as [w hs l c e o]; unfold unsubscribe, subscribe; cbn in *.
    f_equal; unfold setAdd; rewrite bool_decide_eq_false_2 by exact Hnew.
    unfold setDelete; rewrite filter_app; cbn.
    rewrite decide_False by (intros H; apply H; reflexivity); cbn.
    rewrite app_nil_r.
    clear -Hnew; induction hs as [|k hs IH]; [reflexivity|].
    cbn; rewrite decide_True by (intros ->; apply Hnew; left).
    f_equal; apply IH; intros H; apply Hnew; right; exact H.
Qed.

(** X17. After [close()] on a transport reached from the constructor,
    whatever is called and whatever the worker emits, no handler is
    called any more, not even one subscribed after the close, and
    nothing is terminated a second time. *)
Theorem closed_transport_is_silent (t : WebWorkerTransport) (actions : list Action) :
  reached t ->
  handlerCalls (snd (run actions (fst (@close Json t)))) = []
  /\ terminations (snd (run actions (fst (@close Json t)))) = [].
Proof.
  intros Hr; pose proof (reached_sound t Hr) as Hs.
  apply closed_run.
  - apply (sound_act (Called CallClose) t Hs).
  - unfold close; destruct (closed t) eqn:Hc; [exact Hc|reflexivity].
Qed.

(** X18. A ['messageerror'] event closes the transport and clears its
    handlers but terminates nothing, and since the transport then counts
    as closed no later [close()] terminates the worker either; unlike
    [close()], the event invokes the close callback every time it
    occurs. *)
Theorem messageerror_leaves_worker_running (t : WebWorkerTransport) :
  reached t ->
  let t1 :=
    fst (onEvent JSON_parse JSON_stringify isJsonRpc handlerThrows MessageErrorEvent t) in
  closed t1 = true
  /\ handlers t1 = []
  /\ terminations
       (snd (onEvent JSON_parse JSON_stringify isJsonRpc handlerThrows
               MessageErrorEvent t)) = []
  /\ (forall actions, terminations (snd (run actions t1)) = [])
  /\ (onClose t = true ->
      forall n,
        closeCallbacks (snd (run (repeat (Happened MessageErrorEvent) n) t)) = n).
Proof.
  intros Hr t1; pose proof (reached_sound t Hr) as Hs.
  split; [reflexivity|split; [reflexivity|split; [|split]]].
  - cbn; destruct (onClose t); reflexivity.
  - intros actions; apply closed_run; [|reflexivity].
    apply (sound_act (Happened MessageErrorEvent) t Hs).
  - intros Hcb n; clear Hr Hs t1; revert t Hcb; induction n as [|n IH]; intros t Hcb;
      [reflexivity|].
    cbn [repeat run act onEvent]; rewrite Hcb.
    specialize (IH (handleClose t) Hcb).
    destruct (run (repeat (Happened MessageErrorEvent) n) (handleClose t)) as [t2 out2].
    cbn in *; unfold closeCallbacks in *; cbn; rewrite IH; reflexivity.
Qed.

End Delivery.

(** ** Sample runs *)

Definition sampleTransport : WebWorkerTransport :=
  fst (run Teardown.parseSample id Teardown.jsonRpcSample Teardown.quietHandlers
         [Called (CallSubscribe 5); Called (CallSubscribe 8); Called (CallSubscribe 5)]
         (fst (@construct string (FromInstance 0) true true))).

Lemma sampleTransport_reached : @reached string Teardown.parseSample id
                                  Teardown.jsonRpcSample Teardown.quietHandlers
                                  sampleTransport.
Proof. eexists _, _, _, _; reflexivity. Qed.

Lemma inbound_dispatch_witness :
  handlerCalls
    (snd (onEvent Teardown.parseSample id Teardown.jsonRpcSample Teardown.quietHandlers
            (MessageEvent (DataObject "{}")) sampleTransport))
  = [(5, "{}"); (8, "{}")].
Proof.
  apply (proj1 (proj2 (inbound_dispatch Teardown.parseSample id Teardown.jsonRpcSample
                         Teardown.quietHandlers sampleTransport (DataObject "{}")
                         sampleTransport_reached))).
Defined.

Lemma subscriptions_form_a_set_witness :
  @unsubscribe 9 (subscribe 9 sampleTransport) = sampleTransport.
Proof.
  apply (proj2 (proj2 (proj2 (proj2 (proj2
           (subscriptions_form_a_set Teardown.parseSample id Teardown.jsonRpcSample
              Teardown.quietHandlers sampleTransport 9 sampleTransport_reached)))))).
  cbn; intros H; repeat (apply elem_of_cons in H as [H|H]; [discriminate H|]).
  apply not_elem_of_nil in H; exact H.
Defined.

Lemma closed_transport_is_silent_witness :
  handlerCalls
    (snd (run Teardown.parseSample id Teardown.jsonRpcSample Teardown.quietHandlers
            [Called (CallSubscribe 7); Happened (MessageEvent (DataObject "{}"))]
            (fst (@close string sampleTransport))))
  = [].
Proof.
  apply (proj1 (closed_transport_is_silent Teardown.parseSample id Teardown.jsonRpcSample
                  Teardown.quietHandlers sampleTransport
                  [Called (CallSubscribe 7); Happened (MessageEvent (DataObject "{}"))]
                  sampleTransport_reached)).
Defined.

Lemma messageerror_leaves_worker_running_witness :
  terminations
    (snd (run Teardown.parseSample id Teardown.jsonRpcSample Teardown.quietHandlers
            [Called CallClose]
            (fst (onEvent Teardown.parseSample id Teardown.jsonRpcSample
                    Teardown.quietHandlers MessageErrorEvent sampleTransport))))
  = [].
Proof.
  apply (proj1 (proj2 (proj2 (proj2
           (messageerror_leaves_worker_running Teardown.parseSample id
              Teardown.jsonRpcSample Teardown.quietHandlers sampleTransport
              sampleTransport_reached)))) [Called CallClose]).
Defined.

End WebWorkerProperties.

(* ===================================================================== *)
(** * The basedpyright transport in use
    ([services/lsp/BasedPyrightTransport.ts]) *)
(* ===================================================================== *)

Module BasedPyrightProperties.
Import Js Transport BasedPyrightTransport.
Local Open Scope nat_scope.

Section InUse.

Context {Payload Json : Type}.
Variable JSON_parse : string -> option Json.
Variable JSON_stringify : Json -> string.
Variable isJsonRpc : Json -> bool.
Variable isInitialize : Json -> option bool.
Variable injectInitializationOptions : string -> Json -> option Json.
Variable handlerThrows : Handler -> string -> bool.

#[local] Abbreviation deliverAll := (@deliverAll Payload Json JSON_stringify isJsonRpc handlerThrows).
#[local] Abbreviation act :=
  (@act Payload Json JSON_parse JSON_stringify isJsonRpc isInitialize
     injectInitializationOptions handlerThrows).
#[local] Abbreviation run :=
  (@run Payload Json JSON_parse JSON_stringify isJsonRpc isInitialize
     injectInitializationOptions handlerThrows).

(** The texts of the protocol messages among the messages of the
    foreground worker, in order. *)
Definition protocolTexts (inbox : list (@Data Payload Json)) : list string :=
  omap (fun data =>
          match data with
          | DataObject j => if isJsonRpc j then Some (JSON_stringify j) else None
          | _ => None
          end) inbox.

(** No [close()] among the actions. *)
Definition isClose (a : @Action Payload Json) : bool :=
  match a with Called CallClose => true | _ => false end.

Definition noClose (actions : list (@Action Payload Json)) : bool :=
  forallb (fun a => negb (isClose a)) actions.

(** No error event of the foreground worker among the actions. *)
Definition noError (actions : list (@Action Payload Json)) : bool :=
  forallb (fun a => match a with ErrorEvent => false | _ => true end) actions.

Lemma deliver_handlers data t :
  handlers (fst (deliver JSON_stringify isJsonRpc handlerThrows data t)) = handlers t
  /\ WebWorkerProperties.handlerCalls
       (snd (deliver JSON_stringify isJsonRpc handlerThrows data t))
     = flat_map (fun text => map (fun h => (h, text)) (handlers t)) (protocolTexts [data]).
Proof.
  destruct data as [|d p|j].
  - split; reflexivity.
  - rewrite deliver_newWorker; split; reflexivity.
  - unfold deliver, handleMessage, protocolTexts; cbn.
    destruct (isJsonRpc j); cbn; [|split; reflexivity].
    rewrite app_nil_r; split; [reflexivity|].
    apply WebWorkerProperties.handlerCalls_forEachHandler.
Qed.

(** What an action other than [close()] does to the workers held. *)
Lemma act_background a t :
  isClose a = false ->
  backgroundWorkers (fst (act a t)) = backgroundWorkers t ++ constructed (snd (act a t))
  /\ foregroundWorker (fst (act a t)) = foregroundWorker t
  /\ closed (fst (act a t)) = closed t.
Proof.
  intros Ha; destruct a as [[message|h|h|]|[|d p|j]| |]; try discriminate Ha; cbn [act].
  - destruct (@send_posts Payload Json JSON_parse isInitialize injectInitializationOptions message t)
      as (Hst & Hc & _).
    cbn [call Transport.send transport].
    destruct (@send Payload Json JSON_parse isInitialize injectInitializationOptions message t)
      as [[o t1] out]; cbn in *; subst t1; rewrite Hc, app_nil_r; auto.
  - cbn; rewrite app_nil_r; auto.
  - cbn; rewrite app_nil_r; auto.
  - cbn; rewrite app_nil_r; auto.
  - rewrite deliver_newWorker; cbn; auto.
  - destruct (@deliver_other Payload Json JSON_stringify isJsonRpc handlerThrows (DataObject j) t)
      as [Hst Htr]; [discriminate|].
    destruct (quiet_trace _ Htr) as [Hq _].
    rewrite Hst, Hq, app_nil_r; auto.
  - unfold onErrorEvent; destruct (onError t); cbn; rewrite app_nil_r; auto.
  - unfold onTimer; destruct (closed t) eqn:Hc; cbn; rewrite app_nil_r; auto.
Qed.

Lemma run_background actions : forall t,
  noClose actions = true ->
  backgroundWorkers (fst (run actions t)) = backgroundWorkers t ++ constructed (snd (run actions t))
  /\ foregroundWorker (fst (run actions t)) = foregroundWorker t
  /\ closed (fst (run actions t)) = closed t.
Proof.
  induction actions as [|a rest IH]; intros t Hn.
  - cbn; rewrite app_nil_r; auto.
  - cbn in Hn; apply andb_true_iff in Hn as [Ha Hrest].
    apply negb_true_iff in Ha.
    destruct (act_background a t Ha) as (Hb1 & Hf1 & Hc1).
    cbn [BasedPyrightTransport.run].
    destruct (act a t) as [t1 out1]; cbn [fst snd] in *.
    destruct (IH t1 Hrest) as (Hb2 & Hf2 & Hc2).
    destruct (run rest t1) as [t2 out2]; cbn [fst snd] in *.
    unfold constructed in *; rewrite omap_app, Hb2, Hb1, Hf2, Hf1, Hc2, Hc1, app_assoc.
    auto.
Qed.

Lemma ready_act a t :
  (ready t <> Pending -> ready (fst (act a t)) = ready t)
  /\ (closed t = true -> ready t = Pending ->
      ready (fst (act a t)) = Pending \/ (a = ErrorEvent /\ ready (fst (act a t)) = Rejected)).
Proof.
  destruct a as [[message|h|h|]|[|d p|j]| |]; cbn [act].
  - destruct (@send_posts Payload Json JSON_parse isInitialize injectInitializationOptions message t)
      as (Hst & _).
    cbn [call Transport.send transport].
    destruct (@send Payload Json JSON_parse isInitialize injectInitializationOptions message t)
      as [[o t1] out]; cbn in *; subst t1; auto.
  - cbn; auto.
  - cbn; auto.
  - cbn; unfold close; destruct (closed t); cbn; auto.
  - cbn; auto.
  - rewrite deliver_newWorker; cbn; auto.
  - unfold deliver, handleMessage; cbn; destruct (isJsonRpc j); cbn; auto.
  - cbn; split.
    + intros Hr; destruct (ready t); [contradiction|reflexivity..].
    + intros _ ->; right; split; reflexivity.
  - cbn; unfold onTimer; split.
    + intros Hr; destruct (closed t); [reflexivity|]; cbn.
      destruct (ready t); [contradiction|reflexivity..].
    + intros -> Hr; left; exact Hr.
Qed.

(** X19. Of the messages of the foreground worker the subscribers are
    handed exactly the protocol messages (objects whose [jsonrpc] is
    ['2.0'], as JSON text): for each of them in order of arrival, every
    subscribed handler is called with its text, in the order of
    subscription and whether or not a handler throws. Spawn requests and
    other data never reach a handler, and delivering messages leaves the
    subscriptions as they were. *)
Theorem protocol_messages_reach_subscribers (t : BasedPyrightTransport)
    (inbox : list (@Data Payload Json)) :
  handlers (fst (deliverAll inbox t)) = handlers t
  /\ WebWorkerProperties.handlerCalls (snd (deliverAll inbox t))
     = flat_map (fun text => map (fun h => (h, text)) (handlers t)) (protocolTexts inbox).
Proof.
  revert t; induction inbox as [|data rest IH]; intros t; [split; reflexivity|].
  cbn [BasedPyrightTransport.deliverAll].
  destruct (deliver_handlers data t) as [Hh1 Hc1].
  destruct (deliver JSON_stringify isJsonRpc handlerThrows data t) as [t1 out1].
  cbn [fst snd] in *.
  destruct (IH t1) as [Hh2 Hc2].
  destruct (deliverAll rest t1) as [t2 out2]; cbn [fst snd] in *.
  split; [congruence|].
  unfold WebWorkerProperties.handlerCalls in *; rewrite omap_app, Hc1, Hc2, Hh1.
  change (data :: rest) with ([data] ++ rest).
  unfold protocolTexts; rewrite omap_app, flat_map_app; reflexivity.
Qed.

(** X20. A transport just constructed on worker number [next], then used
    in any way short of closing it (messages sent, handlers subscribed and
    unsubscribed, messages and errors of the worker, the timer): the
    workers it has constructed meanwhile are those of the spawn requests
    it received, and [close()] terminates the foreground worker and every
    one of them, each exactly once, so that no worker it built survives. *)
Theorem close_terminates_every_worker (version : option string) (onError' onClose' : bool)
    (next : WorkerId) (owned' : gset Port) (actions : list (@Action Payload Json)) :
  noClose actions = true ->
  let t0 := fst (@construct Payload Json version onError' onClose' next owned') in
  let spawned := length (spawnRequests (messagesOf actions)) in
  constructed (snd (@construct Payload Json version onError' onClose' next owned')
               ++ snd (run actions t0))
  = seq next (S spawned)
  /\ terminations (snd (@close Payload Json (fst (run actions t0)))) = seq next (S spawned).
Proof.
  intros Hn t0 spawned.
  assert (Hfan : constructed (snd (run actions t0)) = seq (S next) spawned).
  { apply (boot_fan_out_interleaved JSON_parse JSON_stringify isJsonRpc isInitialize
             injectInitializationOptions handlerThrows actions t0).
    cbn; intros fg Hfg; injection Hfg as <-; lia. }
  destruct (run_background actions t0 Hn) as (Hb & Hf & Hc).
  split.
  - unfold constructed in *; rewrite omap_app, Hfan; reflexivity.
  - rewrite basedPyright_close_terminations, Hc.
    change (closed t0) with false; cbv iota.
    unfold workers; rewrite Hf, Hb, Hfan; reflexivity.
Qed.

(** X21. A transport closed before its [ready] promise settled never
    becomes ready: the timer finds it closed and does not resolve the
    promise, which stays pending for good when the worker raises no error
    and is rejected otherwise. A promise once settled stays as it is. *)
Theorem closed_transport_never_ready (t : BasedPyrightTransport)
    (actions : list (@Action Payload Json)) :
  closed t = true ->
  ready t <> Resolved ->
  ready (fst (run actions t)) <> Resolved
  /\ (ready t = Pending -> noError actions = true -> ready (fst (run actions t)) = Pending)
  /\ (ready t = Rejected -> ready (fst (run actions t)) = Rejected).
Proof.
  revert t; induction actions as [|a rest IH]; intros t Hc Hr.
  - cbn; auto.
  - cbn [BasedPyrightTransport.run].
    pose proof (basedPyright_closed_act JSON_parse JSON_stringify isJsonRpc isInitialize
                  injectInitializationOptions handlerThrows a t Hc) as Hc1.
    destruct (ready_act a t) as [Hkeep Hpend].
    destruct (act a t) as [t1 out1]; cbn [fst snd] in *.
    assert (Hr1 : ready t1 <> Resolved).
    { destruct (ready t) eqn:Ht; [|contradiction|].
      - destruct (Hpend Hc eq_refl) as [H|[_ H]]; rewrite H; discriminate.
      - rewrite Hkeep by discriminate; discriminate. }
    destruct (IH t1 Hc1 Hr1) as (Hn2 & Hp2 & Hj2).
    destruct (run rest t1) as [t2 out2]; cbn [fst snd] in *.
    split; [exact Hn2|split].
    + intros Hp He; cbn in He; apply andb_true_iff in He as [He1 He2].
      apply Hp2; [|exact He2].
      destruct (Hpend Hc Hp) as [H|[-> _]]; [exact H|discriminate He1].
    + intros Hj; apply Hj2; rewrite Hkeep; [exact Hj|rewrite Hj; discriminate].
Qed.

End InUse.

Lemma close_terminates_every_worker_witness :
  terminations
    (snd (@close string string
            (fst (@run string string Teardown.parseSample id Teardown.jsonRpcSample Teardown.notInitialize
                    Teardown.injectSample Teardown.quietHandlers
                    [Message (DataNewWorker "a" 7); Called (CallSend "{}");
                     Message (DataNewWorker "b" 9); TimerEvent]
                    Teardown.basedPyrightSample))))
  = [0; 1; 2].
Proof.
  apply (proj2 (@close_terminates_every_worker string string Teardown.parseSample id Teardown.jsonRpcSample
                  Teardown.notInitialize Teardown.injectSample Teardown.quietHandlers
                  None true true 0 ∅
                  [Message (DataNewWorker "a" 7); Called (CallSend "{}");
                   Message (DataNewWorker "b" 9); TimerEvent] eq_refl)).
Defined.

Lemma closed_transport_never_ready_witness :
  ready
    (fst (@run string string Teardown.parseSample id Teardown.jsonRpcSample Teardown.notInitialize
            Teardown.injectSample Teardown.quietHandlers
            [TimerEvent; Message (DataObject "{}")]
            (fst (@close string string Teardown.basedPyrightSample))))
  = Pending.
Proof.
  apply (proj1 (proj2 (@closed_transport_never_ready string string Teardown.parseSample id
                         Teardown.jsonRpcSample Teardown.notInitialize Teardown.injectSample
                         Teardown.quietHandlers
                         (fst (@close string string Teardown.basedPyrightSample))
                         [TimerEvent; Message (DataObject "{}")] eq_refl
                         ltac:(discriminate))) eq_refl eq_refl).
Defined.

End BasedPyrightProperties.

(* ===================================================================== *)
(** * The LSP session managers
    ([services/lsp/tyLSPService.ts], [services/lsp/basedPyrightLSPService.ts]) *)
(* ===================================================================== *)

Module LspService.
Import Js Checkers.
Local Open Scope nat_scope.

(** The two modules are alike but for the server they start. *)
Inductive Server := TyServer | BasedPyrightServer.

(** The client and the transport that a call of [create...LSPClient]
    builds are objects; the pair built by the [n]-th call is known by the
    number [n]. *)
Definition Session := nat.

(** The options of [create...LSPClient]; [documentUri] is not read, and
    [onDiagnostics] is read by the basedpyright module only. *)
Record Options := mkOptions {
  opt_pythonVersion : option PythonVersion;
  opt_rootUri : option string;
  opt_onDiagnostics : bool
}.

(** What the modules do to the objects they hold and build, and how a
    call of [create...LSPClient] ends. *)
Inductive Effect :=
| Disconnect (c : Session)                      (* client.disconnect() *)
| CloseTransport (tr : Session)                 (* transport.close() *)
| NewClient (c : Session) (rootUri : string) (timeout : Z)
| NewWebWorkerTransport (tr : Session)
| NewBasedPyrightTransport (tr : Session) (pythonVersion : PythonVersion)
| Subscribe (tr : Session)                      (* newTransport.subscribe(...) *)
| Connect (c : Session)                         (* newClient.connect(newTransport) *)
| Returned (c : Session)                        (* return client *)
| Threw (c : Session).                          (* the awaited promise rejected *)

(** A call suspended at an [await]. *)
Inductive Suspended :=
| AwaitReady (i : Session)             (* await newTransport.ready *)
| AwaitInitializing (i : Session)      (* await newClient.initializing *)
| AwaitClosed (version : PythonVersion).
                                       (* await close...LSPClient(), in update...PythonVersion *)

#[export] Instance PythonVersion_eq_dec : EqDecision PythonVersion.
Proof. solve_decision. Defined.

#[export] Instance Suspended_eq_dec : EqDecision Suspended.
Proof. solve_decision. Defined.

(** The variables of the module ([client], [transport],
    [currentPythonVersion]), the number of the next pair, and the calls
    suspended. *)
Record Service := mkService {
  client : option Session;
  transport : option Session;
  currentPythonVersion : PythonVersion;
  nextSession : Session;
  suspended : list Suspended
}.

Definition initialService : Service := mkService None None py3_12 0 [].

Definition orDefault {A} (d : A) (o : option A) : A :=
  match o with Some a => a | None => d end.

(** [if (client) { client.disconnect(); client = null }
     if (transport) { transport.close(); transport = null }] *)
Definition closeExisting (s : Service) : Service * list Effect :=
  (mkService None None (currentPythonVersion s) (nextSession s) (suspended s),
   match client s with Some c => [Disconnect c] | None => [] end
   ++ match transport s with Some tr => [CloseTransport tr] | None => [] end).

Definition suspend (p : Suspended) (s : Service) : Service :=
  mkService (client s) (transport s) (currentPythonVersion s) (nextSession s)
    (suspended s ++ [p]).

Section Manager.

Variable server : Server.

(** [create...LSPClient(options)] up to its first [await]. *)
Definition create (options : Options) (s : Service) : Service * list Effect :=
  let pythonVersion := orDefault py3_12 (opt_pythonVersion options) in
  let i := nextSession s in
  match closeExisting s with
  | (s1, out1) =>
      let s2 := mkService (client s1) (transport s1) pythonVersion (S i) (suspended s1) in
      match server with
      | TyServer =>
          (suspend (AwaitInitializing i) s2,
           out1 ++ [ NewClient i (orDefault "file:///" (opt_rootUri options)) 10000;
                     NewWebWorkerTransport i;
                     Connect i ])
      | BasedPyrightServer =>
          (suspend (AwaitReady i) s2,
           out1 ++ [ NewClient i (orDefault "file:///workspace" (opt_rootUri options)) 30000;
                     NewBasedPyrightTransport i pythonVersion ]
                ++ (if opt_onDiagnostics options then [Subscribe i] else []))
      end
  end.

(** [close...LSPClient()] *)
Definition close (s : Service) : Service * list Effect := closeExisting s.

(** [update...PythonVersion(version)] up to its first [await]. *)
Definition updatePythonVersion (version : PythonVersion) (s : Service)
    : Service * list Effect :=
  if bool_decide (currentPythonVersion s = version) then (s, [])
  else
    let s1 :=
      mkService (client s) (transport s) version (nextSession s) (suspended s) in
    match client s1 with
    | Some _ =>
        match close s1 with
        | (s2, out) => (suspend (AwaitClosed version) s2, out)
        end
    | None => (s1, [])
    end.

(** [get...LSPClient()] *)
Definition getClient (s : Service) : option Session := client s.

Fixpoint dropFirst (p : Suspended) (l : list Suspended) : list Suspended :=
  match l with
  | [] => []
  | q :: rest => if bool_decide (p = q) then rest else q :: dropFirst p rest
  end.

(** A suspended call goes on when the promise it awaits settles:
    fulfilled ([ok]) or rejected. *)
Definition resume (p : Suspended) (ok : bool) (s : Service) : Service * list Effect :=
  if bool_decide (p ∈ suspended s) then
    let s1 :=
      mkService (client s) (transport s) (currentPythonVersion s) (nextSession s)
        (dropFirst p (suspended s)) in
    match p with
    | AwaitReady i =>
        if ok then (suspend (AwaitInitializing i) s1, [Connect i])
        else (s1, [Threw i])
    | AwaitInitializing i =>
        if ok then
          (mkService (Some i) (Some i) (currentPythonVersion s1) (nextSession s1)
             (suspended s1),
           [Returned i])
        else (s1, [Threw i])
    | AwaitClosed version => create (mkOptions (Some version) None false) s1
    end
  else (s, []).

(** What happens to a module: its functions are called, and the calls
    suspended go on. *)
Inductive Event :=
| Create (options : Options)
| Close
| UpdatePythonVersion (version : PythonVersion)
| Resume (p : Suspended) (ok : bool).

Definition step (ev : Event) (s : Service) : Service * list Effect :=
  match ev with
  | Create options => create options s
  | Close => close s
  | UpdatePythonVersion version => updatePythonVersion version s
  | Resume p ok => resume p ok s
  end.

Fixpoint run (events : list Event) (s : Service) : Service * list Effect :=
  match events with
  | [] => (s, [])
  | ev :: rest =>
      match step ev s with
      | (s1, out1) =>
          match run rest s1 with
          | (s2, out2) => (s2, out1 ++ out2)
          end
      end
  end.

(** The promises a [create...LSPClient] that built pair [i] awaits, all
    fulfilled. *)
Definition settle (i : Session) : list Event :=
  match server with
  | TyServer => [Resume (AwaitInitializing i) true]
  | BasedPyrightServer => [Resume (AwaitReady i) true; Resume (AwaitInitializing i) true]
  end.

(** The functions of the module called one after the other, each call
    let to finish, with success, before the next. *)
Inductive Call :=
| DoCreate (options : Options)
| DoClose
| DoUpdatePythonVersion (version : PythonVersion).

Definition complete (c : Call) (s : Service) : list Event :=
  match c with
  | DoCreate options => Create options :: settle (nextSession s)
  | DoClose => [Close]
  | DoUpdatePythonVersion version =>
      UpdatePythonVersion version
      :: (if bool_decide (currentPythonVersion s = version) then []
          else match client s with
               | Some _ => Resume (AwaitClosed version) true :: settle (nextSession s)
               | None => []
               end)
  end.

Fixpoint runCalls (calls : list Call) (s : Service) : Service * list Effect :=
  match calls with
  | [] => (s, [])
  | c :: rest =>
      match run (complete c s) s with
      | (s1, out1) =>
          match runCalls rest s1 with
          | (s2, out2) => (s2, out1 ++ out2)
          end
      end
  end.

End Manager.

(** The transports built and those closed in a trace. *)
Definition builtTransports (trace : list Effect) : list Session :=
  omap (fun e =>
          match e with
          | NewWebWorkerTransport tr | NewBasedPyrightTransport tr _ => Some tr
          | _ => None
          end) trace.

Definition closedTransports (trace : list Effect) : list Session :=
  omap (fun e => match e with CloseTransport tr => Some tr | _ => None end) trace.

(** The pairs the module knows are pairs it built. *)
Definition sound (s : Service) : Prop :=
  (forall i, transport s = Some i -> i < nextSession s)
  /\ (forall i, In (AwaitReady i) (suspended s) \/ In (AwaitInitializing i) (suspended s) ->
                i < nextSession s).

(** Pair [i] was built, and the module neither holds its transport nor
    has a call suspended that would install it. *)
Definition detached (i : Session) (s : Service) : Prop :=
  i < nextSession s
  /\ transport s <> Some i
  /\ ~ In (AwaitReady i) (suspended s)
  /\ ~ In (AwaitInitializing i) (suspended s).


Section Sessions.

Variable server : Server.

Lemma dropFirst_In p q l : In q (dropFirst p l) -> In q l.
Proof.
  induction l as [|x l IH]; cbn; [auto|].
  destruct (bool_decide (p = x)); cbn; [auto|]; intros [H|H]; auto.
Qed.

Lemma dropFirst_fresh p l : ~ In p l -> dropFirst p (l ++ [p]) = l.
Proof.
  induction l as [|x l IH]; intros Hn; cbn.
  - rewrite bool_decide_eq_true_2 by reflexivity; reflexivity.
  - rewrite bool_decide_eq_false_2 by (intros ->; apply Hn; left; reflexivity).
    f_equal; apply IH; intros H; apply Hn; right; exact H.
Qed.

(** Case analysis on everything an event looks at. *)
Ltac step_cases :=
  cbn [step]; unfold resume, updatePythonVersion, close, create, closeExisting, suspend;
  repeat match goal with
         | |- context [bool_decide ?P] => destruct (bool_decide P) eqn:?
         | |- context [match ?x with _ => _ end] =>
             lazymatch x with
             | context [match _ with _ => _ end] => fail
             | context [bool_decide _] => fail
             | _ => destruct x eqn:?
             end
         end;
  cbn [fst snd client transport currentPythonVersion nextSession suspended
       closedTransports builtTransports omap list_omap app] in *.

Lemma step_closes ev s tr :
  In tr (closedTransports (snd (step server ev s))) -> transport s = Some tr.
Proof.
  destruct ev as [options| |version|[j|j|v] ok]; step_cases;
    cbn; intros H; repeat (destruct H as [H|H]; try discriminate H; try congruence);
    try contradiction.
Qed.

Lemma step_installs ev s tr :
  transport (fst (step server ev s)) = Some tr ->
  transport s = Some tr \/ ev = Resume (AwaitInitializing tr) true.
Proof.
  destruct ev as [options| |version|[j|j|v] ok]; step_cases;
    intros H; try discriminate H; try (left; congruence).
  right; congruence.
Qed.

Lemma step_built ev s :
  builtTransports (snd (step server ev s))
  = seq (nextSession s) (nextSession (fst (step server ev s)) - nextSession s)
  /\ nextSession s <= nextSession (fst (step server ev s)).
Proof.
  destruct ev as [options| |version|[j|j|v] ok]; step_cases;
    rewrite ?Nat.sub_diag; replace (S (nextSession s) - nextSession s) with 1 by lia;
    cbn; split; try reflexivity; lia.
Qed.

Lemma sound_step ev s : sound s -> sound (fst (step server ev s)).
Proof.
  intros [Htr Hsus].
  assert (Hdrop : forall p i,
             In (AwaitReady i) (dropFirst p (suspended s))
             \/ In (AwaitInitializing i) (dropFirst p (suspended s)) ->
             i < nextSession s).
  { intros p i [H|H]; apply dropFirst_In in H; auto. }
  assert (Hin : forall (P : Prop) (q : Suspended), (q ∈ suspended s) -> In q (suspended s))
    by (intros _ q H; apply list_elem_of_In; exact H).
  destruct ev as [options| |version|[j|j|v] ok]; step_cases; split; cbn;
    intros i H;
    repeat match goal with
           | H : bool_decide _ = true |- _ => apply bool_decide_eq_true_1 in H
           | H : _ ∈ _ |- _ => apply list_elem_of_In in H
           | H : _ \/ _ |- _ => destruct H as [H|H]
           | H : In _ (_ ++ _) |- _ => apply in_app_or in H
           | H : In _ [_] |- _ => destruct H as [H|[]]
           end;
    try discriminate H;
    try (injection H as <-);
    try (apply Htr; assumption);
    try (assert (i < nextSession s) by eauto; lia);
    try lia;
    try (assert (j < nextSession s) by eauto; lia).
Qed.

Lemma sound_events events : forall s, sound s -> sound (fst (run server events s)).
Proof.
  induction events as [|ev rest IH]; intros s Hs; [exact Hs|].
  cbn; pose proof (sound_step ev s Hs) as H1.
  destruct (step server ev s) as [s1 out1]; cbn in H1.
  specialize (IH s1 H1); destruct (run server rest s1) as [s2 out2]; exact IH.
Qed.

Lemma sound_initial : sound initialService.
Proof. split; cbn; [intros i H; discriminate H|intros i [[]|[]]]. Qed.

(** A detached pair stays detached, and its transport is not closed. *)
Lemma detached_step i ev s :
  detached i s ->
  detached i (fst (step server ev s))
  /\ ~ In i (closedTransports (snd (step server ev s))).
Proof.
  intros (Hlt & Htr & Hr & Hi); split.
  - destruct ev as [options| |version|[j|j|v] ok]; step_cases;
      (split; [|split; [|split]]); cbn;
      try lia; try assumption; try discriminate; intros H;
      repeat match goal with
             | H : In _ (_ ++ _) |- _ => apply in_app_or in H as [H|H]
             | H : In _ [_] |- _ => destruct H as [H|[]]
             | H : In _ (dropFirst _ _) |- _ => apply dropFirst_In in H
             | H : bool_decide _ = true |- _ => apply bool_decide_eq_true_1 in H
             | H : _ ∈ _ |- _ => apply list_elem_of_In in H
             | H : Some _ = Some _ |- _ => injection H as H
             | H : AwaitReady _ = AwaitReady _ |- _ => injection H as H
             | H : AwaitInitializing _ = AwaitInitializing _ |- _ => injection H as H
             end;
      try discriminate; try contradiction; try congruence; try lia;
      try (subst i; contradiction); try (subst j; contradiction).
  - intros H; apply step_closes in H; contradiction.
Qed.

Lemma detached_run i events : forall s,
  detached i s -> ~ In i (closedTransports (snd (run server events s))).
Proof.
  induction events as [|ev rest IH]; intros s Hd; [intros []|].
  cbn; destruct (detached_step i ev s Hd) as [Hd1 Hn1].
  destruct (step server ev s) as [s1 out1]; cbn [fst snd] in *.
  specialize (IH s1 Hd1); destruct (run server rest s1) as [s2 out2]; cbn [fst snd] in *.
  unfold closedTransports in *; rewrite omap_app; intros H.
  apply in_app_or in H as [H|H]; contradiction.
Qed.

Lemma run_app events1 events2 s :
  run server (events1 ++ events2) s
  = (fst (run server events2 (fst (run server events1 s))),
     snd (run server events1 s) ++ snd (run server events2 (fst (run server events1 s)))).
Proof.
  revert s; induction events1 as [|ev rest IH]; intros s; cbn.
  - destruct (run server events2 s); reflexivity.
  - destruct (step server ev s) as [s1 out1]; rewrite IH.
    destruct (run server rest s1) as [s2 out2]; cbn; rewrite app_assoc; reflexivity.
Qed.

Lemma run_closes events : forall s tr,
  In tr (closedTransports (snd (run server events s))) ->
  transport s = Some tr \/ In (Resume (AwaitInitializing tr) true) events.
Proof.
  induction events as [|ev rest IH]; intros s tr; [intros []|].
  cbn; pose proof (step_closes ev s tr) as Hc; pose proof (step_installs ev s tr) as Hi.
  destruct (step server ev s) as [s1 out1]; cbn [fst snd] in *.
  specialize (IH s1 tr); destruct (run server rest s1) as [s2 out2]; cbn [fst snd] in *.
  unfold closedTransports in *; rewrite omap_app; intros H.
  apply in_app_or in H as [H|H]; [left; auto|].
  destruct (IH H) as [H1|H1]; [|right; right; exact H1].
  destruct (Hi H1) as [H2|H2]; [left; exact H2|right; left; exact H2].
Qed.

Lemma run_built events : forall s,
  builtTransports (snd (run server events s))
  = seq (nextSession s) (nextSession (fst (run server events s)) - nextSession s)
  /\ nextSession s <= nextSession (fst (run server events s)).
Proof.
  induction events as [|ev rest IH]; intros s.
  - cbn; rewrite Nat.sub_diag; split; [reflexivity|lia].
  - cbn; destruct (step_built ev s) as [Hb Hle].
    destruct (step server ev s) as [s1 out1]; cbn [fst snd] in *.
    destruct (IH s1) as [Hb2 Hle2].
    destruct (run server rest s1) as [s2 out2]; cbn [fst snd] in *.
    split; [|lia].
    unfold builtTransports in *; rewrite omap_app, Hb, Hb2.
    replace (nextSession s2 - nextSession s)
      with ((nextSession s1 - nextSession s) + (nextSession s2 - nextSession s1)) by lia.
    rewrite seq_app; do 2 f_equal; lia.
Qed.

End Sessions.

Lemma dropFirst_middle p l l' : ~ In p l -> dropFirst p (l ++ p :: l') = l ++ l'.
Proof.
  induction l as [|x l IH]; intros Hn; cbn.
  - rewrite bool_decide_eq_true_2 by reflexivity; reflexivity.
  - rewrite bool_decide_eq_false_2 by (intros ->; apply Hn; left; reflexivity).
    f_equal; apply IH; intros H; apply Hn; right; exact H.
Qed.

Lemma resume_ready server i s :
  In (AwaitReady i) (suspended s) ->
  resume server (AwaitReady i) true s
  = (mkService (client s) (transport s) (currentPythonVersion s) (nextSession s)
       (dropFirst (AwaitReady i) (suspended s) ++ [AwaitInitializing i]),
     [Connect i]).
Proof.
  intros Hin; unfold resume.
  rewrite bool_decide_eq_true_2 by (apply list_elem_of_In; exact Hin); reflexivity.
Qed.

Lemma resume_initializing server i s :
  In (AwaitInitializing i) (suspended s) ->
  resume server (AwaitInitializing i) true s
  = (mkService (Some i) (Some i) (currentPythonVersion s) (nextSession s)
       (dropFirst (AwaitInitializing i) (suspended s)),
     [Returned i]).
Proof.
  intros Hin; unfold resume.
  rewrite bool_decide_eq_true_2 by (apply list_elem_of_In; exact Hin); reflexivity.
Qed.

(** A [create...LSPClient] let to finish with success: everything it
    does, given what is suspended besides. *)
Lemma create_settles server options s :
  ~ In (AwaitReady (nextSession s)) (suspended s) ->
  ~ In (AwaitInitializing (nextSession s)) (suspended s) ->
  let i := nextSession s in
  let r := run server (Create options :: settle server i) s in
  fst r
  = mkService (Some i) (Some i) (orDefault py3_12 (opt_pythonVersion options)) (S i)
      (suspended s)
  /\ closedTransports (snd r) = match transport s with Some tr => [tr] | None => [] end
  /\ builtTransports (snd r) = [i].
Proof.
  intros Hr Hi i r; subst r i; unfold settle.
  destruct s as [c t v n l]; cbn [nextSession suspended] in *.
  destruct server; cbn [run step create closeExisting suspend fst snd client transport
                         currentPythonVersion nextSession suspended].
  - rewrite resume_initializing by (cbn; apply in_or_app; right; left; reflexivity).
    unfold suspend; cbn [fst snd client transport currentPythonVersion nextSession suspended].
    rewrite dropFirst_fresh by exact Hi.
    unfold closedTransports, builtTransports; rewrite !omap_app.
    destruct c, t; repeat split.
  - rewrite resume_ready by (cbn; apply in_or_app; right; left; reflexivity).
    unfold suspend; cbn [fst snd client transport currentPythonVersion nextSession suspended].
    rewrite dropFirst_fresh by exact Hr.
    rewrite resume_initializing by (cbn; apply in_or_app; right; left; reflexivity).
    unfold suspend; cbn [fst snd client transport currentPythonVersion nextSession suspended].
    rewrite dropFirst_fresh by exact Hi.
    unfold closedTransports, builtTransports; rewrite !omap_app.
    destruct c, t, (opt_onDiagnostics options); repeat split.
Qed.

(** Only [closeExisting] closes, and what it closes is the transport the
    module holds. *)
Lemma closeExisting_trace s :
  closedTransports (snd (closeExisting s))
  = match transport s with Some tr => [tr] | None => [] end
  /\ builtTransports (snd (closeExisting s)) = []
  /\ fst (closeExisting s)
     = mkService None None (currentPythonVersion s) (nextSession s) (suspended s).
Proof. unfold closeExisting; destruct (client s), (transport s); repeat split. Qed.

Section Sequences.

Variable server : Server.

(** Nothing is suspended, the client and the transport held belong
    together, and of the transports built so far each has been closed,
    once, but the one held. *)
Definition settled (s : Service) (trace : list Effect) : Prop :=
  suspended s = []
  /\ client s = transport s
  /\ builtTransports trace = seq 0 (nextSession s)
  /\ NoDup (closedTransports trace)
  /\ (forall i, transport s = Some i -> i < nextSession s)
  /\ forall i, In i (closedTransports trace) <-> i < nextSession s /\ transport s <> Some i.

Definition held (s : Service) : list Session :=
  match transport s with Some tr => [tr] | None => [] end.

(** The transport held is closed, and pair [nextSession s] is built and
    installed ([k]) or nothing is. *)
Lemma settled_next s trace s' out (k : bool) :
  settled s trace ->
  closedTransports out = held s ->
  builtTransports out = (if k then [nextSession s] else []) ->
  suspended s' = [] ->
  client s' = transport s' ->
  transport s' = (if k then Some (nextSession s) else None) ->
  nextSession s' = (if k then S (nextSession s) else nextSession s) ->
  settled s' (trace ++ out).
Proof.
  intros (Hsus & Hct & Hb & Hnd & Hlt & Hcl) Hc1 Hb1 Hsus' Hct' Htr' Hn'.
  assert (Hclosed : closedTransports (trace ++ out) = closedTransports trace ++ held s)
    by (unfold closedTransports in *; rewrite omap_app, Hc1; reflexivity).
  assert (Hfresh : forall tr, transport s = Some tr -> ~ In tr (closedTransports trace))
    by (intros tr Htr H; apply Hcl in H as [_ H]; contradiction).
  split; [exact Hsus'|split; [exact Hct'|split; [|split; [|split]]]].
  - unfold builtTransports in *; rewrite omap_app, Hb, Hb1, Hn'.
    destruct k; [rewrite seq_S; reflexivity|apply app_nil_r].
  - rewrite Hclosed; unfold held; destruct (transport s) as [tr|] eqn:Htr;
      [|rewrite app_nil_r; exact Hnd].
    apply NoDup_app; split; [exact Hnd|split; [|apply NoDup_singleton]].
    intros j Hj Hj'; apply list_elem_of_singleton in Hj'; subst j.
    apply (Hfresh tr eq_refl), list_elem_of_In; exact Hj.
  - intros j Hj; rewrite Htr' in Hj; rewrite Hn'.
    destruct k; [injection Hj as <-; lia|discriminate Hj].
  - intros j; rewrite Hclosed, in_app_iff, Hcl, Htr', Hn'; unfold held.
    destruct (transport s) as [tr|] eqn:Htr; cbn.
    + specialize (Hlt tr eq_refl).
      destruct k; split.
      * intros [[H1 H2]|[<-|[]]]; split; try lia; intros H; injection H as H; lia.
      * intros [H1 H2]; destruct (Nat.eq_dec tr j) as [->|Hne]; [auto|left].
        split; [|congruence].
        assert (j <> nextSession s) by congruence; lia.
      * intros [[H1 H2]|[<-|[]]]; split; try lia; discriminate.
      * intros [H1 _]; destruct (Nat.eq_dec tr j) as [->|Hne]; [auto|left].
        split; [exact H1|congruence].
    + destruct k; split.
      * intros [[H1 H2]|[]]; split; [lia|]; intros H; injection H as H; lia.
      * intros [H1 H2]; left; split; [|discriminate].
        assert (j <> nextSession s) by congruence; lia.
      * intros [[H1 H2]|[]]; split; [exact H1|discriminate].
      * intros [H1 _]; left; split; [exact H1|discriminate].
Qed.

Lemma settled_same s trace s' :
  settled s trace ->
  suspended s' = suspended s -> client s' = client s -> transport s' = transport s ->
  nextSession s' = nextSession s ->
  settled s' (trace ++ []).
Proof.
  intros H Hs Hc Ht Hn; unfold settled in *.
  rewrite app_nil_r, Hs, Hc, Ht, Hn; exact H.
Qed.

Lemma settled_complete c s trace :
  settled s trace ->
  settled (fst (run server (complete server c s) s)) (trace ++ snd (run server (complete server c s) s)).
Proof.
  intros Hs; pose proof Hs as (Hsus & Hct & _).
  destruct c as [options| |version]; cbn [complete].
  - destruct (create_settles server options s) as (Hst & Hc & Hb);
      [rewrite Hsus; intros []..|].
    apply (settled_next s trace _ _ true); try assumption; rewrite Hst, ?Hsus; reflexivity.
  - cbn [run step]; unfold close.
    destruct (closeExisting_trace s) as (Hc & Hb & Hst).
    destruct (closeExisting s) as [s1 out1]; cbn [fst snd] in *; subst s1.
    rewrite app_nil_r.
    apply (settled_next s trace _ _ false); try assumption; reflexivity.
  - destruct (bool_decide (currentPythonVersion s = version)) eqn:Hv.
    + cbn [run step]; unfold updatePythonVersion; rewrite Hv; cbn [fst snd app].
      apply (settled_same s); auto.
    + destruct (client s) as [c|] eqn:Hclient.
      * set (s1 := mkService (Some c) (transport s) version (nextSession s) (suspended s)).
        set (s2 := mkService None None version (nextSession s) (suspended s)).
        assert (Hrun : run server
                         (UpdatePythonVersion version
                          :: Resume (AwaitClosed version) true :: settle server (nextSession s)) s
                       = (fst (run server
                                 (Create (mkOptions (Some version) None false)
                                  :: settle server (nextSession s)) s2),
                          snd (closeExisting s1)
                          ++ snd (run server
                                    (Create (mkOptions (Some version) None false)
                                     :: settle server (nextSession s)) s2))).
        { unfold s1, s2; cbn [run step]; unfold updatePythonVersion; rewrite Hv.
          cbn [client]; rewrite Hclient; unfold close, closeExisting.
          cbn [fst snd client transport currentPythonVersion nextSession suspended].
          unfold resume, suspend.
          cbn [fst snd client transport currentPythonVersion nextSession suspended].
          rewrite Hsus; cbn [app].
          rewrite bool_decide_eq_true_2 by (apply list_elem_of_In; left; reflexivity).
          cbn [dropFirst]; rewrite bool_decide_eq_true_2 by reflexivity.
          destruct (create server _ _) as [s3 out3].
          destruct (run server (settle server (nextSession s)) s3) as [s4 out4]; reflexivity. }
        rewrite Hrun; cbn [fst snd].
        destruct (create_settles server (mkOptions (Some version) None false) s2) as (Hst & Hc & Hb);
          [unfold s2; cbn; rewrite Hsus; intros []..|].
        cbn [s2 nextSession transport suspended opt_pythonVersion orDefault] in Hst, Hc, Hb.
        destruct (closeExisting_trace s1) as (Hc1 & Hb1 & _).
        apply (settled_next s trace _ _ true); try assumption.
        -- unfold closedTransports in *; rewrite omap_app, Hc, Hc1, app_nil_r; reflexivity.
        -- unfold builtTransports in *; rewrite omap_app, Hb, Hb1; reflexivity.
        -- rewrite Hst, Hsus; reflexivity.
        -- rewrite Hst; reflexivity.
        -- rewrite Hst; reflexivity.
        -- rewrite Hst; reflexivity.
      * cbn [run step]; unfold updatePythonVersion; rewrite Hv; cbn [client].
        rewrite Hclient; cbn [fst snd app].
        apply (settled_same s); auto.
Qed.

Lemma settled_runCalls calls : forall s trace,
  settled s trace ->
  settled (fst (runCalls server calls s)) (trace ++ snd (runCalls server calls s)).
Proof.
  induction calls as [|c rest IH]; intros s trace Hs.
  - cbn; rewrite app_nil_r; exact Hs.
  - cbn [runCalls]; pose proof (settled_complete c s trace Hs) as H1.
    destruct (run server (complete server c s) s) as [s1 out1]; cbn [fst snd] in *.
    specialize (IH s1 _ H1); destruct (runCalls server rest s1) as [s2 out2].
    cbn [fst snd] in *; rewrite app_assoc; exact IH.
Qed.

(** X23. When the functions of a session manager are called one after
    the other, each call finishing with success before the next begins,
    the manager never holds more than it should: after any such calls no
    call is suspended, the client and the transport held belong to the
    same session, and every transport built so far has been closed,
    exactly once, except the one still held. *)
Theorem sequential_sessions_leave_one_transport (calls : list Call) :
  let r := runCalls server calls initialService in
  suspended (fst r) = []
  /\ client (fst r) = transport (fst r)
  /\ builtTransports (snd r) = seq 0 (nextSession (fst r))
  /\ NoDup (closedTransports (snd r))
  /\ forall i,
       In i (builtTransports (snd r)) ->
       (In i (closedTransports (snd r)) <-> transport (fst r) <> Some i).
Proof.
  intros r.
  assert (Hinit : settled initialService []).
  { split; [reflexivity|split; [reflexivity|split; [reflexivity|]]].
    split; [apply NoDup_nil_2|split].
    - intros i H; discriminate H.
    - intros i; cbn; split; [intros []|intros [H _]; lia]. }
  destruct (settled_runCalls calls initialService [] Hinit) as (H1 & H2 & H3 & H4 & H5 & H6).
  cbn [app] in *; fold r in H1, H2, H3, H4, H5, H6.
  split; [exact H1|split; [exact H2|split; [exact H3|split; [exact H4|]]]].
  intros i Hi; rewrite H3 in Hi; apply in_seq in Hi.
  rewrite H6; split; [intros [_ H]; exact H|intros H; split; [lia|exact H]].
Qed.

End Sequences.

(** ** Sessions left behind *)

(** The pair that a suspended call of [create...LSPClient] has built. *)
Definition sessionOf (p : Suspended) : option Session :=
  match p with
  | AwaitReady i | AwaitInitializing i => Some i
  | AwaitClosed _ => None
  end.

(** The pairs whose call is suspended. *)
Definition waiting (s : Service) : list Session := omap sessionOf (suspended s).

(** No pair has two calls suspended, and the pair held has none. *)
Definition tidy (s : Service) : Prop :=
  NoDup (waiting s) /\ forall i, transport s = Some i -> ~ In i (waiting s).

(** The pairs the module knows are pairs it built, and it is tidy. *)
Definition orderly (s : Service) : Prop := sound s /\ tidy s.

(** The transports closed in a trace are out of the module's reach. *)
Definition gone (s : Service) (trace : list Effect) : Prop :=
  forall c, In c (closedTransports trace) -> detached c s.

Lemma sessions_In l i :
  In i (omap sessionOf l) <-> In (AwaitReady i) l \/ In (AwaitInitializing i) l.
Proof.
  induction l as [|x l IH]; [cbn; tauto|].
  destruct x as [j|j|v]; cbn; rewrite IH; split.
  - intros [->|[H|H]]; auto.
  - intros [[H|H]|[H|H]]; auto; try discriminate H; injection H as ->; auto.
  - intros [->|[H|H]]; auto.
  - intros [[H|H]|[H|H]]; auto; try discriminate H; injection H as ->; auto.
  - intros [H|H]; auto.
  - intros [[H|H]|[H|H]]; auto; discriminate H.
Qed.

Lemma sessionOf_In p l i : sessionOf p = Some i -> In p l -> In i (omap sessionOf l).
Proof.
  intros Hp Hin; apply sessions_In.
  destruct p as [j|j|v]; cbn in Hp; try discriminate Hp; injection Hp as ->; auto.
Qed.

Lemma dropFirst_sessions p l :
  In p l -> NoDup (omap sessionOf l) ->
  NoDup (omap sessionOf (dropFirst p l))
  /\ (forall k, In k (omap sessionOf (dropFirst p l)) -> In k (omap sessionOf l))
  /\ (forall j, sessionOf p = Some j -> ~ In j (omap sessionOf (dropFirst p l))).
Proof.
  induction l as [|x l IH]; intros Hin Hnd; [destruct Hin|].
  cbn [dropFirst]; destruct (bool_decide (p = x)) eqn:Hpx.
  - apply bool_decide_eq_true_1 in Hpx; subst x.
    cbn in Hnd |- *; destruct (sessionOf p) as [j|] eqn:Hj.
    + apply NoDup_cons in Hnd as [Hj' Hnd]; split; [exact Hnd|split].
      * intros k Hk; right; exact Hk.
      * intros j' Heq; injection Heq as <-; rewrite <- list_elem_of_In; exact Hj'.
    + split; [exact Hnd|split; [auto|intros j' Heq; discriminate Heq]].
  - apply bool_decide_eq_false_1 in Hpx.
    destruct Hin as [Heq|Hin]; [exfalso; apply Hpx; symmetry; exact Heq|].
    cbn in Hnd |- *; destruct (sessionOf x) as [k|] eqn:Hk.
    + apply NoDup_cons in Hnd as [Hk' Hnd].
      destruct (IH Hin Hnd) as (IH1 & IH2 & IH3); split; [|split].
      * apply NoDup_cons; split; [|exact IH1].
        rewrite list_elem_of_In; intros H; apply Hk'; rewrite list_elem_of_In; auto.
      * intros k' [H|H]; [left; exact H|right; auto].
      * intros j Hj [H|H]; [|exact (IH3 j Hj H)].
        subst k; apply Hk'; rewrite list_elem_of_In.
        apply (sessionOf_In p); assumption.
    + exact (IH Hin Hnd).
Qed.

Lemma waiting_In s i :
  In i (waiting s) <-> In (AwaitReady i) (suspended s) \/ In (AwaitInitializing i) (suspended s).
Proof. apply sessions_In. Qed.

Section Orphans.

Variable server : Server.

Lemma create_builds options s :
  builtTransports (snd (create server options s)) = [nextSession s]
  /\ nextSession (fst (create server options s)) = S (nextSession s)
  /\ transport (fst (create server options s)) = None
  /\ client (fst (create server options s)) = None
  /\ exists p,
       sessionOf p = Some (nextSession s)
       /\ suspended (fst (create server options s)) = suspended s ++ [p].
Proof.
  unfold create, closeExisting, suspend, builtTransports.
  destruct server, (client s), (transport s), (opt_onDiagnostics options);
    cbn; repeat split; (eexists; split; [|reflexivity]; reflexivity).
Qed.

Lemma tidy_create options s :
  sound s -> NoDup (waiting s) -> tidy (fst (create server options s)).
Proof.
  intros Hsound Hnd.
  destruct (create_builds options s) as (_ & _ & Htr & _ & p & Hp & Hsus).
  split; [|intros i Hi; rewrite Htr in Hi; discriminate Hi].
  unfold waiting; rewrite Hsus, omap_app; cbn; rewrite Hp.
  apply NoDup_app; split; [exact Hnd|split; [|apply NoDup_singleton]].
  intros x Hx Hx'; apply list_elem_of_singleton in Hx'; subst x.
  apply list_elem_of_In, waiting_In in Hx.
  pose proof (proj2 Hsound _ Hx); lia.
Qed.

Lemma tidy_step ev s : sound s -> tidy s -> tidy (fst (step server ev s)).
Proof.
  intros Hsound Ht; pose proof Ht as (Hnd & Hheld).
  destruct ev as [options| |version|p ok]; cbn [step].
  - apply tidy_create; assumption.
  - unfold close, closeExisting, tidy, waiting; cbn; split; [exact Hnd|discriminate].
  - unfold updatePythonVersion.
    destruct (bool_decide (currentPythonVersion s = version)); [exact Ht|].
    cbn [client]; destruct (client s); [|exact Ht].
    unfold close, closeExisting, suspend, tidy, waiting; cbn.
    rewrite omap_app; cbn; rewrite app_nil_r; split; [exact Hnd|discriminate].
  - unfold resume; destruct (bool_decide (p ∈ suspended s)) eqn:Hin; [|exact Ht].
    apply bool_decide_eq_true_1, list_elem_of_In in Hin.
    destruct (dropFirst_sessions p (suspended s) Hin Hnd) as (D1 & D2 & D3).
    assert (Hdropped :
              tidy (mkService (client s) (transport s) (currentPythonVersion s)
                      (nextSession s) (dropFirst p (suspended s))))
      by (split; [exact D1|intros i Hi H; exact (Hheld i Hi (D2 i H))]).
    destruct p as [j|j|v].
    + destruct ok; [|exact Hdropped].
      unfold suspend, tidy, waiting; cbn; rewrite omap_app; cbn; split.
      * apply NoDup_app; split; [exact D1|split; [|apply NoDup_singleton]].
        intros x Hx Hx'; apply list_elem_of_singleton in Hx'; subst x.
        apply list_elem_of_In in Hx; exact (D3 j eq_refl Hx).
      * intros i Hi H; apply in_app_or in H as [H|[<-|[]]].
        -- exact (Hheld i Hi (D2 i H)).
        -- apply (Hheld j Hi), (sessionOf_In (AwaitReady j)); [reflexivity|exact Hin].
    + destruct ok; [|exact Hdropped].
      unfold tidy, waiting; cbn; split; [exact D1|].
      intros i Hi; injection Hi as <-; exact (D3 j eq_refl).
    + apply tidy_create; [|exact D1].
      split; [exact (proj1 Hsound)|].
      intros i [H|H]; apply dropFirst_In in H; apply (proj2 Hsound); auto.
Qed.

Lemma orderly_step ev s : orderly s -> orderly (fst (step server ev s)).
Proof.
  intros [Hsound Ht]; split; [apply sound_step; exact Hsound|apply tidy_step; assumption].
Qed.

Lemma orderly_initial : orderly initialService.
Proof.
  split; [exact sound_initial|].
  split; [apply NoDup_nil_2|intros i H; discriminate H].
Qed.

(** Case analysis on everything an event looks at. *)
Ltac event_cases :=
  cbn [step]; unfold resume, updatePythonVersion, close, create, closeExisting, suspend;
  repeat match goal with
         | |- context [bool_decide ?P] => destruct (bool_decide P) eqn:?
         | |- context [match ?x with _ => _ end] =>
             lazymatch x with
             | context [match _ with _ => _ end] => fail
             | context [bool_decide _] => fail
             | _ => destruct x eqn:?
             end
         end;
  cbn [fst snd client transport currentPythonVersion nextSession suspended
       closedTransports builtTransports omap list_omap app] in *.

(** An event that closes a transport leaves the module without one. *)
Lemma step_closes_clears ev s c :
  In c (closedTransports (snd (step server ev s))) ->
  transport (fst (step server ev s)) = None.
Proof.
  destruct ev as [options| |version|[j|j|v] ok]; event_cases;
    cbn; intros H; try reflexivity; exfalso;
    repeat (destruct H as [H|H]; try discriminate H); try contradiction.
Qed.

(** The calls suspended after an event: those suspended before, the call
    of the pair just built, a call of [update...PythonVersion], or the
    call that was waiting for the transport and now waits for the
    client. *)
Lemma step_suspended ev s p :
  In p (suspended (fst (step server ev s))) ->
  In p (suspended s)
  \/ sessionOf p = Some (nextSession s)
  \/ sessionOf p = None
  \/ exists j, p = AwaitInitializing j /\ In (AwaitReady j) (suspended s).
Proof.
  destruct ev as [options| |version|[j|j|v] ok]; event_cases; intros H;
    repeat match goal with
           | H : In _ (_ ++ _) |- _ => apply in_app_or in H as [H|H]
           | H : In _ [_] |- _ => destruct H as [H|[]]
           | H : In _ (dropFirst _ _) |- _ => apply dropFirst_In in H
           | H : bool_decide _ = true |- _ => apply bool_decide_eq_true_1 in H
           | H : _ ∈ _ |- _ => apply list_elem_of_In in H
           end;
    try (left; assumption);
    try (subst p; cbn; auto; fail);
    try (subst p; right; right; right; eexists; split; [reflexivity|assumption]).
Qed.

Lemma closed_detached ev s c :
  orderly s ->
  In c (closedTransports (snd (step server ev s))) ->
  detached c (fst (step server ev s)).
Proof.
  intros (Hsound & _ & Hheld) Hc.
  pose proof (step_closes server ev s c Hc) as Htr.
  pose proof (proj1 Hsound c Htr) as Hlt.
  assert (Hnot : ~ In (AwaitReady c) (suspended s) /\ ~ In (AwaitInitializing c) (suspended s)).
  { pose proof (Hheld c Htr) as H; rewrite waiting_In in H; tauto. }
  destruct (step_built server ev s) as [_ Hle].
  assert (Hp : forall p, sessionOf p = Some c ->
               ~ In p (suspended (fst (step server ev s)))).
  { intros p Hpc Hin.
    destruct (step_suspended ev s p Hin) as [H|[H|[H|(j & -> & H)]]].
    - apply (sessionOf_In p _ c Hpc), waiting_In in H; tauto.
    - rewrite Hpc in H; injection H as H; lia.
    - rewrite Hpc in H; discriminate H.
    - cbn in Hpc; injection Hpc as ->; tauto. }
  split; [lia|split; [|split]].
  - rewrite (step_closes_clears ev s c Hc); discriminate.
  - apply Hp; reflexivity.
  - apply Hp; reflexivity.
Qed.

Lemma gone_step ev s trace :
  orderly s -> gone s trace ->
  gone (fst (step server ev s)) (trace ++ snd (step server ev s)).
Proof.
  intros Ho Hg c Hc; unfold closedTransports in Hc; rewrite omap_app in Hc.
  apply in_app_or in Hc as [Hc|Hc].
  - apply (detached_step server c ev s), Hg; exact Hc.
  - apply closed_detached; assumption.
Qed.

Lemma orderly_run events : forall s trace,
  orderly s -> gone s trace ->
  orderly (fst (run server events s))
  /\ gone (fst (run server events s)) (trace ++ snd (run server events s)).
Proof.
  induction events as [|ev rest IH]; intros s trace Ho Hg.
  - cbn; rewrite app_nil_r; auto.
  - cbn [run]; pose proof (orderly_step ev s Ho) as Ho1.
    pose proof (gone_step ev s trace Ho Hg) as Hg1.
    destruct (step server ev s) as [s1 out1]; cbn [fst snd] in *.
    specialize (IH s1 _ Ho1 Hg1); destruct (run server rest s1) as [s2 out2].
    cbn [fst snd] in *; rewrite app_assoc; exact IH.
Qed.

(** Every state the module reaches is orderly, and the transports it has
    closed are out of its reach. *)
Lemma reached_orderly events :
  orderly (fst (run server events initialService))
  /\ gone (fst (run server events initialService)) (snd (run server events initialService)).
Proof.
  apply (orderly_run events initialService []); [exact orderly_initial|intros c []].
Qed.

(** X22. Whatever has been called on a session manager before and
    whatever is called after, and however the promises awaited settle: a
    call of [create...LSPClient] builds a transport of its own, one that
    was not there before and is built once; and the manager closes that
    transport only if, after the call, the initialization of its client
    succeeded. So the transport, and with it the worker, of a session
    whose initialization fails or never finishes is never closed by the
    manager. The same holds of every transport the manager closes. *)
Theorem only_initialized_sessions_are_closed (before after : list Event)
    (options : Options) :
  let i := nextSession (fst (run server before initialService)) in
  let trace := snd (run server (before ++ Create options :: after) initialService) in
  In i (builtTransports trace)
  /\ NoDup (builtTransports trace)
  /\ ~ In i (builtTransports (snd (run server before initialService)))
  /\ (In i (closedTransports trace) -> In (Resume (AwaitInitializing i) true) after)
  /\ (forall tr,
        In tr (closedTransports trace) ->
        In (Resume (AwaitInitializing tr) true) (before ++ Create options :: after)).
Proof.
  intros i trace.
  destruct (reached_orderly before) as [(Hsound & _) Hgone].
  set (s := fst (run server before initialService)) in *.
  destruct (create_builds options s) as (Hb1 & Hn1 & Htr1 & _).
  assert (Htrace : trace
                   = snd (run server before initialService)
                     ++ snd (create server options s)
                     ++ snd (run server after (fst (create server options s)))).
  { unfold trace; rewrite run_app; cbn [snd run step]; fold s.
    destruct (create server options s) as [s1 out1]; cbn [fst snd].
    destruct (run server after s1) as [s2 out2]; reflexivity. }
  destruct (run_built server before initialService) as [Hbefore _].
  destruct (run_built server after (fst (create server options s))) as [Hafter Hle].
  fold s in Hbefore; cbn [nextSession initialService] in Hbefore.
  rewrite Nat.sub_0_r in Hbefore; fold i in Hbefore, Hb1, Hn1.
  rewrite Hn1 in Hafter, Hle.
  assert (Hbuilt : builtTransports trace
                   = seq 0 (nextSession
                              (fst (run server after (fst (create server options s)))))).
  { rewrite Htrace; unfold builtTransports in *; rewrite !omap_app, Hbefore, Hb1, Hafter.
    set (n := nextSession (fst (run server after (fst (create server options s))))) in *.
    replace n with (i + (1 + (n - S i))) at 2 by lia.
    rewrite !seq_app; cbn [Nat.add seq].
    replace (i + 1) with (S i) by lia; reflexivity. }
  split; [|split; [|split; [|split]]].
  - rewrite Hbuilt; apply in_seq; lia.
  - rewrite Hbuilt; apply NoDup_ListNoDup, List.seq_NoDup.
  - rewrite Hbefore; intros H; apply in_seq in H; lia.
  - rewrite Htrace; unfold closedTransports; rewrite !omap_app; intros H.
    apply in_app_or in H as [H|H]; [|apply in_app_or in H as [H|H]].
    + destruct (Hgone i H) as [Hlt _]; fold s in Hlt; unfold i in Hlt; lia.
    + apply (step_closes server (Create options) s i) in H.
      pose proof (proj1 Hsound i H); unfold i in *; lia.
    + apply run_closes in H as [H|H]; [rewrite Htr1 in H; discriminate H|exact H].
  - intros tr H; apply run_closes in H as [H|H]; [discriminate H|exact H].
Qed.

(** X24. Calls of [create...LSPClient] that overlap leave a session
    behind, in whichever order they finish. In every state the manager
    reaches: when the initialization of a session succeeds while the
    manager holds another one, as it does when the call for the one
    finishes before the call for the other, the manager takes the new
    session; the transport of the session it held was built and has not
    been closed, and it is not closed then, nor by anything called on the
    manager later. *)
Theorem overlapping_creates_orphan_a_session (events later : list Event)
    (held finished : Session) :
  let s := fst (run server events initialService) in
  transport s = Some held ->
  In (AwaitInitializing finished) (suspended s) ->
  let taken :=
    fst (run server (events ++ [Resume (AwaitInitializing finished) true]) initialService) in
  held <> finished
  /\ client taken = Some finished
  /\ transport taken = Some finished
  /\ In held (builtTransports (snd (run server events initialService)))
  /\ ~ In held
         (closedTransports
            (snd (run server
                    (events ++ Resume (AwaitInitializing finished) true :: later)
                    initialService))).
Proof.
  intros s Hheld Hwait taken.
  destruct (reached_orderly events) as [(Hsound & Hnd & Hnot) Hgone]; fold s in Hsound, Hnd, Hnot, Hgone.
  assert (Hne : held <> finished).
  { intros ->; apply (Hnot finished Hheld), waiting_In; right; exact Hwait. }
  assert (Hstep : resume server (AwaitInitializing finished) true s
                  = (mkService (Some finished) (Some finished) (currentPythonVersion s)
                       (nextSession s) (dropFirst (AwaitInitializing finished) (suspended s)),
                     [Returned finished]))
    by (apply resume_initializing; exact Hwait).
  assert (Htaken : taken
                   = mkService (Some finished) (Some finished) (currentPythonVersion s)
                       (nextSession s)
                       (dropFirst (AwaitInitializing finished) (suspended s))).
  { unfold taken; rewrite run_app; cbn [fst run step]; fold s; rewrite Hstep; reflexivity. }
  split; [exact Hne|split; [rewrite Htaken; reflexivity|split; [rewrite Htaken; reflexivity|]]].
  split.
  - destruct (run_built server events initialService) as [Hb _]; fold s in Hb.
    rewrite Hb; cbn [nextSession initialService]; rewrite Nat.sub_0_r.
    apply in_seq; pose proof (proj1 Hsound held Hheld); lia.
  - rewrite run_app; cbn [snd]; fold s.
    unfold closedTransports; rewrite omap_app; intros H; apply in_app_or in H as [H|H].
    + destruct (Hgone held H) as (_ & Htr & _); contradiction.
    + revert H; cbn [run step]; rewrite Hstep.
      destruct (run server later _) as [s2 out2] eqn:Hlater; cbn [snd app omap list_omap].
      change out2 with (snd (s2, out2)); rewrite <- Hlater.
      apply (detached_run server held).
      assert (Hw : ~ In held (waiting s)) by exact (Hnot held Hheld).
      rewrite waiting_In in Hw.
      split; [exact (proj1 Hsound held Hheld)|split; [cbn; congruence|]].
      split; intros H; apply dropFirst_In in H; tauto.
Qed.

End Orphans.

(** X25. The ty session manager does nothing with the Python version it
    is given but record it: the client and the transport it builds, and
    all it does to them, are the same for every version. The basedpyright
    manager hands the version (3.12 when none is given) to the transport
    it builds. *)
Theorem ty_session_ignores_python_version (s : Service) (rootUri : option string)
    (version version' : option PythonVersion) (onDiagnostics onDiagnostics' : bool) :
  let given := fun server v d => run server (complete server (DoCreate (mkOptions v rootUri d)) s) s in
  snd (given TyServer version onDiagnostics) = snd (given TyServer version' onDiagnostics')
  /\ getClient (fst (given TyServer version onDiagnostics))
     = getClient (fst (given TyServer version' onDiagnostics'))
  /\ In (NewBasedPyrightTransport (nextSession s) (orDefault py3_12 version))
        (snd (given BasedPyrightServer version onDiagnostics)).
Proof.
  intros given; subst given; cbn [complete settle run step fst snd].
  unfold create, closeExisting; cbn [fst snd opt_pythonVersion opt_rootUri opt_onDiagnostics].
  split; [|split].
  - rewrite !resume_initializing by (cbn; apply in_or_app; right; left; reflexivity).
    reflexivity.
  - rewrite !resume_initializing by (cbn; apply in_or_app; right; left; reflexivity).
    reflexivity.
  - destruct (resume BasedPyrightServer (AwaitReady _) _ _) as [s1 out1].
    destruct (resume BasedPyrightServer (AwaitInitializing _) _ s1) as [s2 out2].
    cbn [fst snd]; rewrite !in_app_iff; cbn [In]; auto 10.
Qed.

(** ** Sample runs *)

(** The second call finishes first: the manager ends with the first
    session, and the transport of the second is never closed. *)
Lemma overlapping_creates_orphan_a_session_witness :
  ~ In 1 (closedTransports
            (snd (run TyServer
                    ([Create (mkOptions (Some py3_12) None false);
                      Create (mkOptions (Some py3_13) None false);
                      Resume (AwaitInitializing 1) true]
                     ++ Resume (AwaitInitializing 0) true
                        :: [Close; Create (mkOptions None None false); Close])
                    initialService))).
Proof.
  apply (proj2 (proj2 (proj2 (proj2
           (overlapping_creates_orphan_a_session TyServer
              [Create (mkOptions (Some py3_12) None false);
               Create (mkOptions (Some py3_13) None false);
               Resume (AwaitInitializing 1) true]
              [Close; Create (mkOptions None None false); Close] 1 0
              eq_refl (or_introl eq_refl)))))).
Defined.

Example overlapping_first_finishes_first :
  snd (run TyServer
         [ Create (mkOptions (Some py3_12) None false);
           Create (mkOptions (Some py3_13) None false);
           Resume (AwaitInitializing 0) true; Resume (AwaitInitializing 1) true; Close ]
         initialService)
  = [ NewClient 0 "file:///" 10000; NewWebWorkerTransport 0; Connect 0;
      NewClient 1 "file:///" 10000; NewWebWorkerTransport 1; Connect 1;
      Returned 0; Returned 1;
      Disconnect 1; CloseTransport 1 ].
Proof. vm_compute; reflexivity. Qed.

Example overlapping_second_finishes_first :
  snd (run TyServer
         [ Create (mkOptions (Some py3_12) None false);
           Create (mkOptions (Some py3_13) None false);
           Resume (AwaitInitializing 1) true; Resume (AwaitInitializing 0) true; Close ]
         initialService)
  = [ NewClient 0 "file:///" 10000; NewWebWorkerTransport 0; Connect 0;
      NewClient 1 "file:///" 10000; NewWebWorkerTransport 1; Connect 1;
      Returned 1; Returned 0;
      Disconnect 0; CloseTransport 0 ].
Proof. vm_compute; reflexivity. Qed.

(** A session whose initialization fails: its transport stays. *)
Example failed_initialization_trace :
  snd (run BasedPyrightServer
         [ Create (mkOptions None None true);
           Resume (AwaitReady 0) true; Resume (AwaitInitializing 0) false;
           Close; Create (mkOptions None None true) ]
         initialService)
  = [ NewClient 0 "file:///workspace" 30000; NewBasedPyrightTransport 0 py3_12; Subscribe 0;
      Connect 0; Threw 0;
      NewClient 1 "file:///workspace" 30000; NewBasedPyrightTransport 1 py3_12; Subscribe 1 ].
Proof. vm_compute; reflexivity. Qed.

End LspService.

(* ===================================================================== *)
(** * The typeshed bundle ([scripts/bundle-typeshed.mjs]) and the files
    handed to basedpyright ([services/lsp/BasedPyrightTransport.ts]) *)
(* ===================================================================== *)

Module TypeshedBundle.
Import Uri.
Local Open Scope nat_scope.

Definition ESSENTIAL_MODULES : list string :=
  [ "VERSIONS"; "builtins.pyi"; "typing.pyi"; "typing_extensions.pyi"; "_typeshed";
    "collections"; "abc.pyi"; "types.pyi"; "sys.pyi"; "os"; "io.pyi"; "re.pyi";
    "functools.pyi"; "itertools.pyi"; "contextlib.pyi"; "dataclasses.pyi"; "enum.pyi";
    "json"; "pathlib.pyi"; "datetime.pyi"; "copy.pyi"; "warnings.pyi"; "weakref.pyi" ].

(** [m.split('.')[0]]: what stands before the first dot. *)
Fixpoint stem (m : string) : string :=
  match m with
  | EmptyString => EmptyString
  | String c rest => if Ascii.eqb c "."%char then EmptyString else String c (stem rest)
  end.

(** [String.prototype.endsWith] *)
Fixpoint endsWith (s searchString : string) : bool :=
  match s with
  | EmptyString => String.eqb s searchString
  | String _ rest => String.eqb s searchString || endsWith rest searchString
  end.

(** [ESSENTIAL_MODULES.some(m => item.name === m
      || item.name.startsWith(m.split('.')[0]))] *)
Definition essential (name : string) : bool :=
  existsb (fun m => String.eqb name m || startsWith name (stem m)) ESSENTIAL_MODULES.

(** An entry of a directory listing of the GitHub API, with what fetching
    it gives: the content of a file ([None] when [fetchRaw] rejects), the
    listing of a directory ([None] when [fetchJson] rejects); entries of
    another type (links, submodules) have a name only. *)
#[warnings="-register-all"]
Inductive Item :=
| File (name : string) (content : option string)
| Dir (name : string) (listing : option (list Item))
| Other (name : string).

(** The two [continue]s of the loop. *)
Definition skipped (depth : nat) (name : string) : bool :=
  startsWith name "@" || (Nat.eqb depth 0 && negb (essential name)).

(** The body of the loop of [fetchDirectory] for one entry; [files] is
    the object filled, [None] an exception, which ends the run without
    anything written. *)
Fixpoint fetchItem (dirPath : string) (depth : nat) (item : Item)
    (files : gmap string string) {struct item} : option (gmap string string) :=
  match item with
  | File name content =>
      if skipped depth name then Some files
      else if endsWith name ".pyi" || String.eqb name "VERSIONS" then
        match content with
        | Some text => Some (<["/typeshed/stdlib" +:+ dirPath +:+ "/" +:+ name := text]> files)
        | None => Some files
        end
      else Some files
  | Dir name listing =>
      if skipped depth name then Some files
      else
        match listing with
        | None => None
        | Some items =>
            (fix fetchEach (items : list Item) (files : gmap string string)
               : option (gmap string string) :=
               match items with
               | [] => Some files
               | item :: rest =>
                   match fetchItem (dirPath +:+ "/" +:+ name) (S depth) item files with
                   | Some files1 => fetchEach rest files1
                   | None => None
                   end
               end) items files
        end
  | Other name => Some files
  end.

(** The loop over a listing. *)
Fixpoint fetchItems (dirPath : string) (depth : nat) (items : list Item)
    (files : gmap string string) : option (gmap string string) :=
  match items with
  | [] => Some files
  | item :: rest =>
      match fetchItem dirPath depth item files with
      | Some files1 => fetchItems dirPath depth rest files1
      | None => None
      end
  end.

(** [fetchDirectory(dirPath, files, depth)], given the listing of the
    directory. *)
Definition fetchDirectory (dirPath : string) (listing : option (list Item)) (depth : nat)
    (files : gmap string string) : option (gmap string string) :=
  match listing with
  | Some items => fetchItems dirPath depth items files
  | None => None
  end.

(** [main()]: the object written to [typeshed.json], if any. *)
Definition bundle (listing : option (list Item)) : option (gmap string string) :=
  fetchDirectory "" listing 0 ∅.

(** The [files] of the [initializationOptions] that [send] puts into an
    [initialize] request: the entry for [main.py], the bundled files
    under [/workspace], the root marker and the configuration; in an
    object literal a later entry replaces an earlier one of the same
    key. *)
Definition typeshedPath : string := "/workspace/typeshed".

Definition initializationFiles (typeshedFiles : gmap string string) (config : string)
    : gmap string string :=
  <["/workspace/pyrightconfig.json" := config]>
    (<["/workspace/.root" := ""]>
       (list_to_map
          (map (fun entry => ("/workspace" +:+ fst entry, snd entry))
             (map_to_list typeshedFiles))
        ∪ {["/workspace/main.py" := ""]})).


(** ** Strings *)

Lemma append_cons c a b : String c a +:+ b = String c (a +:+ b).
Proof. reflexivity. Qed.

Lemma append_assoc a b c : (a +:+ b) +:+ c = a +:+ (b +:+ c).
Proof.
  induction a as [|x a IH]; [reflexivity|].
  rewrite !append_cons, IH; reflexivity.
Qed.

Lemma append_inj_r p a b : p +:+ a = p +:+ b -> a = b.
Proof.
  induction p as [|c p IH]; [auto|].
  rewrite !append_cons; intros H; injection H as H; auto.
Qed.

Lemma endsWith_refl s : endsWith s s = true.
Proof. destruct s; cbn [endsWith]; rewrite String.eqb_refl; reflexivity. Qed.

Lemma endsWith_app a b suffix : endsWith b suffix = true -> endsWith (a +:+ b) suffix = true.
Proof.
  intros H; induction a as [|c a IH]; [exact H|].
  rewrite append_cons; cbn [endsWith]; rewrite IH; apply orb_true_r.
Qed.

Lemma startsWith_stem m : startsWith m (stem m) = true.
Proof.
  induction m as [|c m IH]; [reflexivity|]; cbn.
  destruct (Ascii.eqb c "."); [reflexivity|].
  cbn; rewrite Ascii.eqb_refl; exact IH.
Qed.

(** ** The listing *)

Lemma Item_nested_ind (P : Item -> Prop) :
  (forall name content, P (File name content)) ->
  (forall name, P (Dir name None)) ->
  (forall name items, Forall P items -> P (Dir name (Some items))) ->
  (forall name, P (Other name)) ->
  forall item, P item.
Proof.
  intros HFile HNone HDir HOther.
  refine (fix IH (item : Item) : P item :=
            match item with
            | File name content => HFile name content
            | Dir name None => HNone name
            | Dir name (Some items) =>
                HDir name items
                  ((fix each (items : list Item) : Forall P items :=
                      match items with
                      | [] => @List.Forall_nil Item P
                      | item :: rest => @List.Forall_cons Item P item rest (IH item) (each rest)
                      end) items)
            | Other name => HOther name
            end).
Qed.

Lemma fetchItem_Dir dirPath depth name items files :
  fetchItem dirPath depth (Dir name (Some items)) files
  = if skipped depth name then Some files
    else fetchItems (dirPath +:+ "/" +:+ name) (S depth) items files.
Proof.
  cbn [fetchItem]; destruct (skipped depth name); [reflexivity|].
  revert files; induction items as [|item rest IH]; intros files; [reflexivity|].
  cbn [fetchItems]; destruct (fetchItem _ _ item files); [apply IH|reflexivity].
Qed.

(** What [fetchDirectory] at [dirPath] and [depth] adds: a path below
    the directory that ends as a stub or as [VERSIONS]; at the root, one
    whose first name passed the test for essential modules. *)
Definition added (dirPath : string) (depth : nat) (path : string) : Prop :=
  exists rel,
    path = "/typeshed/stdlib" +:+ dirPath +:+ "/" +:+ rel
    /\ (endsWith path ".pyi" = true \/ endsWith path "/VERSIONS" = true)
    /\ (depth = 0 ->
        exists root rest,
          rel = root +:+ rest /\ essential root = true /\ startsWith root "@" = false
          /\ (rest = "" \/ beginsWith rest "/")).

Lemma skipped_root depth name :
  skipped depth name = false ->
  startsWith name "@" = false /\ (depth = 0 -> essential name = true).
Proof.
  unfold skipped; intros H; apply orb_false_iff in H as [H1 H2]; split; [exact H1|].
  intros ->; cbn in H2; apply negb_false_iff in H2; exact H2.
Qed.

Lemma fetchItem_added item : forall dirPath depth files files',
  fetchItem dirPath depth item files = Some files' ->
  forall path text,
    files' !! path = Some text -> files !! path = Some text \/ added dirPath depth path.
Proof.
  induction item as [name content|name|name items IH|name] using Item_nested_ind;
    intros dirPath depth files files' Hfetch path text Hpath.
  - cbn [fetchItem] in Hfetch.
    destruct (skipped depth name) eqn:Hskip; [injection Hfetch as <-; auto|].
    destruct (endsWith name ".pyi" || String.eqb name "VERSIONS") eqn:Hkind;
      [|injection Hfetch as <-; auto].
    destruct content as [content|]; [|injection Hfetch as <-; auto].
    injection Hfetch as <-.
    destruct (decide (path = "/typeshed/stdlib" +:+ dirPath +:+ "/" +:+ name))
      as [->|Hne]; [|rewrite lookup_insert_ne in Hpath by congruence; auto].
    right; exists name; split; [reflexivity|split].
    + apply orb_true_iff in Hkind as [Hpyi|Hversions].
      * left; do 3 apply endsWith_app; exact Hpyi.
      * right; apply String.eqb_eq in Hversions; subst name.
        do 2 apply endsWith_app; reflexivity.
    + intros Hroot; destruct (skipped_root depth name Hskip) as [Hat Hess].
      exists name, ""; split; [|auto].
      clear; induction name as [|c name IHn]; [reflexivity|].
      rewrite append_cons, <- IHn; reflexivity.
  - cbn [fetchItem] in Hfetch.
    destruct (skipped depth name); [injection Hfetch as <-; auto|discriminate Hfetch].
  - rewrite fetchItem_Dir in Hfetch.
    destruct (skipped depth name) eqn:Hskip; [injection Hfetch as <-; auto|].
    assert (Hitems : forall files0 files1,
               fetchItems (dirPath +:+ "/" +:+ name) (S depth) items files0 = Some files1 ->
               files1 !! path = Some text ->
               files0 !! path = Some text
               \/ added (dirPath +:+ "/" +:+ name) (S depth) path).
    { clear Hfetch Hpath; induction IH as [|item rest Hitem _ IHrest];
        intros files0 files1 Hf Hp.
      - injection Hf as <-; auto.
      - cbn [fetchItems] in Hf.
        destruct (fetchItem _ _ item files0) as [files2|] eqn:H2; [|discriminate Hf].
        destruct (IHrest _ _ Hf Hp) as [H|H]; [|auto].
        apply (Hitem _ _ _ _ H2 _ _ H). }
    destruct (Hitems _ _ Hfetch Hpath) as [H|(rel & Hrel & Hend & _)]; [auto|right].
    exists (name +:+ "/" +:+ rel); split; [|split; [exact Hend|]].
    + rewrite Hrel, !append_assoc; reflexivity.
    + intros Hroot; destruct (skipped_root depth name Hskip) as [Hat Hess].
      exists name, ("/" +:+ rel); split; [reflexivity|split; [auto|split; [exact Hat|]]].
      right; exists rel; reflexivity.
  - injection Hfetch as <-; auto.
Qed.

Lemma fetchItems_added items : forall dirPath depth files files',
  fetchItems dirPath depth items files = Some files' ->
  forall path text,
    files' !! path = Some text -> files !! path = Some text \/ added dirPath depth path.
Proof.
  induction items as [|item rest IH]; intros dirPath depth files files' Hf path text Hp.
  - injection Hf as <-; auto.
  - cbn [fetchItems] in Hf.
    destruct (fetchItem dirPath depth item files) as [files1|] eqn:H1; [|discriminate Hf].
    destruct (IH _ _ _ _ Hf _ _ Hp) as [H|H]; [|auto].
    apply (fetchItem_added _ _ _ _ _ H1 _ _ H).
Qed.

(** X26. The test for essential modules at the root of the stubs is a
    test on prefixes: a name passes exactly when it begins with what
    stands before the first dot of some listed module, so that the
    comparison with the listed name itself adds nothing. Every listed
    module passes, and so does every other name that begins like one. *)
Theorem essential_is_a_prefix_test :
  (forall name,
      essential name = existsb (fun m => startsWith name (stem m)) ESSENTIAL_MODULES)
  /\ (forall m, In m ESSENTIAL_MODULES -> essential m = true)
  /\ (forall m rest, In m ESSENTIAL_MODULES -> essential (stem m +:+ rest) = true).
Proof.
  assert (Hprefix : forall name,
             essential name = existsb (fun m => startsWith name (stem m)) ESSENTIAL_MODULES).
  { intros name; unfold essential.
    induction ESSENTIAL_MODULES as [|m ms IH]; [reflexivity|].
    cbn [existsb]; rewrite IH; f_equal.
    destruct (String.eqb_spec name m) as [->|_]; [|reflexivity].
    rewrite startsWith_stem; reflexivity. }
  split; [exact Hprefix|split].
  - intros m Hm; rewrite Hprefix; apply existsb_exists.
    exists m; split; [exact Hm|apply startsWith_stem].
  - intros m rest Hm; rewrite Hprefix; apply existsb_exists.
    exists m; split; [exact Hm|apply startsWith_app].
Qed.

Lemma bundled_begins listing files path text :
  bundle listing = Some files ->
  files !! path = Some text ->
  beginsWith path "/typeshed/stdlib/".
Proof.
  unfold bundle, fetchDirectory; intros Hb Hp.
  destruct listing as [items|]; [|discriminate Hb].
  destruct (fetchItems_added _ _ _ _ _ Hb _ _ Hp) as [H|(rel & Hrel & _)].
  - rewrite lookup_empty in H; discriminate H.
  - exists rel; exact Hrel.
Qed.

(** X27. When the run ends without an exception, every path of the
    bundle written begins with [/typeshed/stdlib/], ends in [.pyi] or
    is a file [VERSIONS], and lies at or below an entry of the root whose
    name passed the test for essential modules and does not begin with
    [@]. *)
Theorem bundle_paths (listing : option (list Item)) (files : gmap string string)
    (path text : string) :
  bundle listing = Some files ->
  files !! path = Some text ->
  beginsWith path "/typeshed/stdlib/"
  /\ (endsWith path ".pyi" = true \/ endsWith path "/VERSIONS" = true)
  /\ exists root rest,
       path = "/typeshed/stdlib/" +:+ root +:+ rest
       /\ essential root = true /\ startsWith root "@" = false
       /\ (rest = "" \/ beginsWith rest "/").
Proof.
  unfold bundle, fetchDirectory; intros Hb Hp.
  destruct listing as [items|]; [|discriminate Hb].
  destruct (fetchItems_added _ _ _ _ _ Hb _ _ Hp) as [H|(rel & Hrel & Hend & Hroot)].
  - rewrite lookup_empty in H; discriminate H.
  - destruct (Hroot eq_refl) as (root & rest & -> & Hess & Hat & Hrest).
    split; [exists (root +:+ rest); exact Hrel|split; [exact Hend|]].
    exists root, rest; split; [exact Hrel|auto].
Qed.

(** ** The files of the initialization *)

#[export] Instance workspace_inj : Inj (=) (=) (String.append "/workspace").
Proof. intros a b H; exact (append_inj_r _ _ _ H). Qed.

(** [Object.fromEntries(Object.entries(typeshedFiles).map(([path, content])
      => [`/workspace${path}`, content]))] *)
Definition underWorkspace (typeshedFiles : gmap string string) : gmap string string :=
  kmap (String.append "/workspace") typeshedFiles.

Lemma underWorkspace_entries typeshedFiles :
  list_to_map
    (map (fun entry : string * string => ("/workspace" +:+ fst entry, snd entry))
       (map_to_list typeshedFiles))
  = underWorkspace typeshedFiles.
Proof. reflexivity. Qed.

Lemma underWorkspace_Some typeshedFiles key text :
  underWorkspace typeshedFiles !! key = Some text <->
  exists path, key = "/workspace" +:+ path /\ typeshedFiles !! path = Some text.
Proof. unfold underWorkspace; apply lookup_kmap_Some, _. Qed.

Lemma initializationFiles_lookup typeshedFiles config key :
  initializationFiles typeshedFiles config !! key
  = if decide (key = "/workspace/pyrightconfig.json") then Some config
    else if decide (key = "/workspace/.root") then Some ""
    else match underWorkspace typeshedFiles !! key with
         | Some text => Some text
         | None => if decide (key = "/workspace/main.py") then Some "" else None
         end.
Proof.
  unfold initializationFiles; rewrite underWorkspace_entries.
  destruct (decide (key = "/workspace/pyrightconfig.json")) as [->|H1];
    [apply lookup_insert_eq|rewrite lookup_insert_ne by congruence].
  destruct (decide (key = "/workspace/.root")) as [->|H2];
    [apply lookup_insert_eq|rewrite lookup_insert_ne by congruence].
  rewrite lookup_union.
  destruct (underWorkspace typeshedFiles !! key) as [text|] eqn:Hkm.
  - destruct ({["/workspace/main.py" := ""]} !! key); reflexivity.
  - destruct (decide (key = "/workspace/main.py")) as [->|H3].
    + rewrite lookup_singleton_eq; reflexivity.
    + rewrite lookup_singleton_ne by congruence; reflexivity.
Qed.

(** X28. With the bundle the script writes, the files handed to
    basedpyright at initialization hold every bundled stub, with its
    content, under the configured typeshed path in [stdlib], and nothing
    of the bundle can take the place of [main.py], of the root marker or
    of the generated configuration: these three are present as the
    transport wrote them, and every other entry is a bundled stub. *)
Theorem initialization_files_hold_the_bundle (listing : option (list Item))
    (typeshedFiles : gmap string string) (config : string) :
  bundle listing = Some typeshedFiles ->
  let files := initializationFiles typeshedFiles config in
  files !! "/workspace/main.py" = Some ""
  /\ files !! "/workspace/.root" = Some ""
  /\ files !! "/workspace/pyrightconfig.json" = Some config
  /\ (forall path text,
        typeshedFiles !! path = Some text ->
        files !! ("/workspace" +:+ path) = Some text
        /\ beginsWith ("/workspace" +:+ path) (typeshedPath +:+ "/stdlib/"))
  /\ (forall key text,
        files !! key = Some text ->
        key = "/workspace/main.py" \/ key = "/workspace/.root"
        \/ key = "/workspace/pyrightconfig.json"
        \/ exists path, key = "/workspace" +:+ path /\ typeshedFiles !! path = Some text).
Proof.
  intros Hb files; subst files.
  assert (Hstub : forall path text,
             typeshedFiles !! path = Some text ->
             exists rest, "/workspace" +:+ path = "/workspace/typeshed/stdlib/" +:+ rest).
  { intros path text Hp; destruct (bundled_begins _ _ _ _ Hb Hp) as [rest ->].
    exists rest; reflexivity. }
  assert (Hnone : forall key,
             (forall rest, key <> "/workspace/typeshed/stdlib/" +:+ rest) ->
             underWorkspace typeshedFiles !! key = None).
  { intros key Hkey.
    destruct (underWorkspace typeshedFiles !! key) as [text|] eqn:Hk; [exfalso|reflexivity].
    apply underWorkspace_Some in Hk as (path & -> & Hp).
    destruct (Hstub _ _ Hp) as [rest Hrest]; exact (Hkey rest Hrest). }
  split; [|split; [|split; [|split]]].
  - rewrite initializationFiles_lookup, Hnone by (intros rest H; discriminate H).
    reflexivity.
  - rewrite initializationFiles_lookup; reflexivity.
  - rewrite initializationFiles_lookup; reflexivity.
  - intros path text Hp; destruct (Hstub _ _ Hp) as [rest Hrest]; split.
    + assert (Hk : underWorkspace typeshedFiles !! ("/workspace" +:+ path) = Some text)
        by (apply underWorkspace_Some; exists path; auto).
      rewrite initializationFiles_lookup, Hk, Hrest.
      rewrite decide_False by discriminate.
      rewrite decide_False by discriminate.
      reflexivity.
    + exists rest; exact Hrest.
  - intros key text; rewrite initializationFiles_lookup.
    destruct (decide (key = "/workspace/pyrightconfig.json")); [auto|].
    destruct (decide (key = "/workspace/.root")); [auto|].
    destruct (underWorkspace typeshedFiles !! key) as [text'|] eqn:Hk.
    + intros H; injection H as ->.
      apply underWorkspace_Some in Hk as (path & -> & Hp).
      right; right; right; exists path; auto.
    + destruct (decide (key = "/workspace/main.py")); [auto|discriminate].
Qed.

(** ** A sample listing *)

Definition sampleListing : option (list Item) :=
  Some [ File "VERSIONS" (Some "builtins: 3.0-");
         File "builtins.pyi" (Some "class object: ...");
         File "ossaudiodev.pyi" (Some "def open(): ...");
         File "ast.pyi" (Some "class AST: ...");
         Dir "@tests" (Some [File "check.pyi" (Some "")]);
         Dir "os" (Some [File "path.pyi" (Some "def join(): ..."); File "README" (Some "")]);
         File "sys.pyi" None ].

Definition sampleBundle : gmap string string :=
  {[ "/typeshed/stdlib/VERSIONS" := "builtins: 3.0-";
     "/typeshed/stdlib/builtins.pyi" := "class object: ...";
     "/typeshed/stdlib/ossaudiodev.pyi" := "def open(): ...";
     "/typeshed/stdlib/os/path.pyi" := "def join(): ..." ]}.

Example sample_bundle : bundle sampleListing = Some sampleBundle.
Proof. vm_compute; reflexivity. Qed.

Lemma bundle_paths_witness : beginsWith "/typeshed/stdlib/os/path.pyi" "/typeshed/stdlib/".
Proof.
  apply (bundle_paths sampleListing sampleBundle "/typeshed/stdlib/os/path.pyi"
           "def join(): ..." sample_bundle eq_refl).
Defined.

Lemma initialization_files_hold_the_bundle_witness :
  initializationFiles sampleBundle "{}" !! "/workspace/typeshed/stdlib/os/path.pyi"
  = Some "def join(): ...".
Proof.
  apply (proj1 (proj2 (proj2 (proj2
           (initialization_files_hold_the_bundle sampleListing sampleBundle "{}"
              sample_bundle))))
           "/typeshed/stdlib/os/path.pyi" "def join(): ..." eq_refl).
Defined.

End TypeshedBundle.

(* ===================================================================== *)
(** * The end of the ty worker ([workers/tyWorker.ts]) *)
(* ===================================================================== *)

Module WorkerLifecycle.
Import Js TyWorker.

Section Lifecycle.

Context {Workspace FileHandle : Type}.
Variable engine : @Engine Workspace FileHandle.

(** The worker after [self.close()]. *)
Definition closedWorker (st : @State Workspace FileHandle) : State :=
  mkState (workspace st) (fileHandles st) (pythonVersion st) true.

Lemma handleRequest_shutdown rid ps st :
  handleRequest engine (mkLSPRequest rid "shutdown" ps) st
  = (Ok tt, st, [PostMessage (Response rid RNull)]).
Proof.
  apply handleRequest_Ok; unfold dispatch; cbn [method].
  change "shutdown" with (methodName Shutdown).
  rewrite selectCase_methodName; reflexivity.
Qed.

Lemma handleRequest_exit rid ps st :
  handleRequest engine (mkLSPRequest rid "exit" ps) st
  = (Ok tt, closedWorker st, [SelfClose]).
Proof.
  apply handleRequest_Ok; unfold dispatch; cbn [method].
  change "exit" with (methodName Exit).
  rewrite selectCase_methodName; reflexivity.
Qed.

Lemma runWorker_closing inbox st :
  closing st = true -> runWorker engine inbox st = (st, []).
Proof. intros Hc; destruct inbox; cbn [runWorker]; [|rewrite Hc]; reflexivity. Qed.

(** X29. [shutdown] is answered with [null] and changes nothing in the
    worker: the messages after it are handled as they would be without
    it, documents and workspace still in place. [exit] posts nothing,
    keeps the state and ends the worker: of the messages after it none
    is handled and none is answered, whatever they are. *)
Theorem shutdown_keeps_serving_exit_ends (rid : option RequestId) (ps : option Params)
    (st : State) (later : list MessageData) :
  closing st = false ->
  runWorker engine (DataRequest (mkLSPRequest rid "shutdown" ps) :: later) st
  = (fst (runWorker engine later st),
     PostMessage (Response rid RNull) :: snd (runWorker engine later st))
  /\ runWorker engine (DataRequest (mkLSPRequest rid "exit" ps) :: later) st
     = (closedWorker st, [SelfClose])
  /\ workspace (closedWorker st) = workspace st
  /\ fileHandles (closedWorker st) = fileHandles st.
Proof.
  intros Hc; split; [|split; [|split; reflexivity]].
  - cbn [runWorker onMessage]; rewrite Hc, handleRequest_shutdown.
    destruct (runWorker engine later st) as [st2 out2]; reflexivity.
  - cbn [runWorker onMessage]; rewrite Hc, handleRequest_exit.
    rewrite runWorker_closing by reflexivity; reflexivity.
Qed.

End Lifecycle.

Lemma shutdown_keeps_serving_exit_ends_witness :
  runWorker sampleEngine
    [ DataRequest (mkLSPRequest (Some (IdNumber 1)) "exit" None);
      DataRequest (mkLSPRequest (Some (IdNumber 2)) "textDocument/hover" (Some mainParams)) ]
    openState
  = (closedWorker openState, [SelfClose]).
Proof.
  apply (proj1 (proj2 (shutdown_keeps_serving_exit_ends sampleEngine (Some (IdNumber 1)) None
                         openState
                         [DataRequest (mkLSPRequest (Some (IdNumber 2)) "textDocument/hover"
                                         (Some mainParams))]
                         eq_refl))).
Defined.

End WorkerLifecycle.
